(** * OvaCare: the anonymous community chat

    A shallow embedding of the chat core of the OvaCare backend
    (the Express/Socket.IO server file, its [Message] schema) and of the
    React socket context that consumes it.

    Conventions of the model.
    - A JavaScript string is the list of its UTF-16 code units ([jstring]).
    - A JavaScript value that crosses the wire or is built for it is a
      [JsVal]; an object is the list of its own properties in insertion
      order.
    - A [Map] is an association list in insertion order ([Map.set] on a
      present key keeps the key's position).
    - Handlers run in the monad [M]: the world (database collections and
      the presence map), the trace of input/output actions, and an
      exception channel for [throw]/[try]/[catch].  One handler run is one
      transition: the [await] points inside a handler are not interleaving
      points of the model.
    - The database is modelled as available; its failures are the ones the
      schema and the driver raise on the data (cast, validation, duplicate
      key, negative skip).
    - [jwt.verify] and Mongoose's ObjectId cast come from libraries outside
      the repository and are section variables. *)

From Stdlib Require Import List NArith ZArith Bool String Ascii Lia.
From Stdlib.Strings Require Import Byte.
From Stdlib Require Import Permutation Sorted.
Import ListNotations.

Set Implicit Arguments.
Local Open Scope string_scope.
Local Open Scope list_scope.

(* ------------------------------------------------------------------ *)
(** ** JavaScript strings *)

Definition jstring := list N.

Definition str (s : string) : jstring :=
  map N_of_ascii (list_ascii_of_string s).

Fixpoint jstring_eqb (a b : jstring) : bool :=
  match a, b with
  | [], [] => true
  | x :: a', y :: b' => N.eqb x y && jstring_eqb a' b'
  | _, _ => false
  end.

(** [WhiteSpace] and [LineTerminator] code units of ECMAScript, the ones
    [String.prototype.trim] strips. *)
Definition isWhiteSpace (c : N) : bool :=
  existsb (N.eqb c)
    [9; 10; 11; 12; 13; 32; 160; 5760; 8232; 8233; 8239; 8287; 12288; 65279]%N
  || ((8192 <=? c) && (c <=? 8202))%N.

Fixpoint trimStart (s : jstring) : jstring :=
  match s with
  | c :: s' => if isWhiteSpace c then trimStart s' else s
  | [] => []
  end.

Definition trimEnd (s : jstring) : jstring := rev (trimStart (rev s)).

(** [s.trim()] *)
Definition trim (s : jstring) : jstring := trimEnd (trimStart s).

(* ------------------------------------------------------------------ *)
(** ** ObjectId: twelve bytes, printed as 24 lowercase hex digits *)

Record ObjectId := mkObjectId {
  b0 : byte; b1 : byte; b2 : byte; b3 : byte;      (* seconds since the epoch *)
  b4 : byte; b5 : byte; b6 : byte; b7 : byte; b8 : byte;   (* per-process random value *)
  b9 : byte; b10 : byte; b11 : byte                (* counter *)
}.

Definition oid_bytes (o : ObjectId) : list byte :=
  [b0 o; b1 o; b2 o; b3 o; b4 o; b5 o; b6 o; b7 o; b8 o; b9 o; b10 o; b11 o].

Definition hex_digit (d : N) : N :=
  if (d <? 10)%N then (48 + d)%N else (87 + d)%N.

Definition hex_of_byte (b : byte) : jstring :=
  [hex_digit (Byte.to_N b / 16); hex_digit (Byte.to_N b mod 16)].

(** [ObjectId.prototype.toString()]: the hex string of the id. *)
Definition oid_toString (o : ObjectId) : jstring :=
  flat_map hex_of_byte (oid_bytes o).

Fixpoint bytes_eqb (a b : list byte) : bool :=
  match a, b with
  | [], [] => true
  | x :: a', y :: b' => Byte.eqb x y && bytes_eqb a' b'
  | _, _ => false
  end.

Definition oid_eqb (a b : ObjectId) : bool :=
  bytes_eqb (oid_bytes a) (oid_bytes b).

(** An id for examples: the twelve low bytes of [n], big-endian. *)
Definition byte_of_N (n : N) : byte :=
  match Byte.of_N (n mod 256) with Some b => b | None => x00 end.

Definition oid_of_N (n : N) : ObjectId :=
  let b (i : N) := byte_of_N (n / 256 ^ i) in
  mkObjectId (b 11%N) (b 10%N) (b 9%N) (b 8%N) (b 7%N) (b 6%N) (b 5%N) (b 4%N)
             (b 3%N) (b 2%N) (b 1%N) (b 0%N).

(* ------------------------------------------------------------------ *)
(** ** JavaScript values *)

#[local] Set Warnings "-register-all".

Inductive JsVal :=
| JUndefined
| JNull
| JBool (b : bool)
| JNum (n : Z)                 (* the integers among the numbers *)
| JStr (s : jstring)
| JOid (o : ObjectId)
| JDate (ms : Z)               (* milliseconds since the epoch *)
| JArr (l : list JsVal)
| JObj (fields : list (string * JsVal))
| JHost (what : string).      (* a function, module or host object *)

(** ToBoolean *)
Definition truthy (v : JsVal) : bool :=
  match v with
  | JUndefined | JNull => false
  | JBool b => b
  | JNum n => negb (n =? 0)%Z
  | JStr s => negb (Nat.eqb (List.length s) 0)
  | JOid _ | JDate _ | JArr _ | JObj _ | JHost _ => true
  end.

Fixpoint assoc (k : string) (fields : list (string * JsVal)) : option JsVal :=
  match fields with
  | [] => None
  | (k', v) :: rest => if String.eqb k k' then Some v else assoc k rest
  end.

(** The own property [k] of an object value; [None] is a missing property. *)
Definition get_field (k : string) (v : JsVal) : option JsVal :=
  match v with
  | JObj fields => assoc k fields
  | _ => None
  end.

Definition field_names (v : JsVal) : list string :=
  match v with
  | JObj fields => map fst fields
  | _ => []
  end.

(* ------------------------------------------------------------------ *)
(** ** The Message schema (models/Message.js)

    A value of [Message] is a document that passed the schema's validation:
    [content], [userId] and [username] are required.  The [createdAt] and
    [updatedAt] fields of the [timestamps] option are left out: no handler
    reads them.  The [select] projections of the queries are not modelled
    either: they keep every field [anonymizeMessage] reads. *)

Record Message := mkMessage {
  _id : ObjectId;
  content : jstring;       (* required, maxlength 500 *)
  userId : ObjectId;       (* required, ref 'register' *)
  username : jstring;      (* required: the author's real name *)
  isAnonymous : bool;      (* default true *)
  timestamp : Z;           (* default Date.now *)
  isDeleted : bool         (* default false *)
}.

(* ------------------------------------------------------------------ *)
(** ** The anonymization boundary *)

(** [currentUserId] is [null] ([None]) or the identity string of the viewer.
<<
const anonymizeMessage = (message, currentUserId = null) => ({
    _id: message._id,
    content: message.content,
    username: 'Anonymous',
    timestamp: message.timestamp,
    isAnonymous: true,
    isOwnMessage: currentUserId
      ? message.userId.toString() === currentUserId.toString() : false
});
>> *)
Definition anonymizeMessage (message : Message) (currentUserId : option jstring) : JsVal :=
  JObj [ ("_id", JOid (_id message));
         ("content", JStr (content message));
         ("username", JStr (str "Anonymous"));
         ("timestamp", JDate (timestamp message));
         ("isAnonymous", JBool true);
         ("isOwnMessage",
           JBool (match currentUserId with
                  | Some uid =>
                      if truthy (JStr uid)
                      then jstring_eqb (oid_toString (userId message)) uid
                      else false
                  | None => false
                  end)) ].

(* ------------------------------------------------------------------ *)
(** ** Server state and the handler monad *)

(** A document of the users collection.  The schema file (models/Users.js)
    is not among the sources; the record holds the fields the chat reads:
    [user._id], [user.name], [user.email]. *)
Record User := mkUser {
  u_id : ObjectId;
  u_name : jstring;
  u_email : jstring
}.

(** The value stored per identity in [connectedUsers]. *)
Record UserInfo := mkUserInfo {
  socketId : jstring;
  ui_name : jstring;
  ui_email : jstring
}.

(** The properties the server puts on a socket object. *)
Record Socket := mkSocket {
  sock_id : jstring;                 (* socket.id *)
  sock_userId : jstring;             (* socket.userId = decoded.userId *)
  sock_userEmail : jstring;          (* socket.userEmail = decoded.email *)
  sock_userName : option jstring     (* socket.userName; undefined until set *)
}.

(** The payload of a verified token. *)
Record Decoded := mkDecoded {
  d_userId : jstring;
  d_email : jstring
}.

Record World := mkWorld {
  users : list User;                            (* the users collection *)
  messages : list Message;                      (* the messages collection, in insertion order *)
  connectedUsers : list (jstring * UserInfo);   (* const connectedUsers = new Map() *)
  sockets : list Socket                         (* connections whose handlers are registered *)
}.

Inductive Target :=
| ToSocket (id : jstring)       (* socket.emit, io.to(id).emit *)
| ToAll                         (* io.emit *)
| ToOthers (id : jstring).      (* socket.broadcast.emit *)

(** What a handler does to the outside, in order. *)
Inductive Action :=
| Emit (to : Target) (event : string) (payload : JsVal)
| Saved (m : Message)                         (* a document written to the messages collection *)
| Respond (status : nat) (body : JsVal).      (* res.status(status).json(body) *)

Inductive Exn :=
| TypeError | ReferenceError | CastError | ValidationError | MongoServerError.

Inductive Outcome (A : Type) :=
| Returned (a : A)
| Thrown (e : Exn).
Arguments Thrown {A} e.

Definition M (A : Type) : Type := World -> Outcome A * World * list Action.

Definition ret {A} (a : A) : M A := fun w => (Returned a, w, []).

Definition bind {A B} (m : M A) (f : A -> M B) : M B :=
  fun w =>
    match m w with
    | (Returned a, w1, t1) =>
        match f a w1 with (o, w2, t2) => (o, w2, t1 ++ t2) end
    | (Thrown e, w1, t1) => (Thrown e, w1, t1)
    end.

Definition throw {A} (e : Exn) : M A := fun w => (Thrown e, w, []).

(** [try { body } catch (error) { handler }] *)
Definition try_catch {A} (body : M A) (handler : Exn -> M A) : M A :=
  fun w =>
    match body w with
    | (Thrown e, w1, t1) =>
        match handler e w1 with (o, w2, t2) => (o, w2, t1 ++ t2) end
    | r => r
    end.

Declare Scope js_scope.
Delimit Scope js_scope with js.
Notation "x <- m ;; k" := (bind m (fun x => k))
  (at level 100, m at next level, right associativity) : js_scope.
Notation "m ;; k" := (bind m (fun _ => k))
  (at level 100, right associativity) : js_scope.
Local Open Scope js_scope.

Definition gets {A} (f : World -> A) : M A := fun w => (Returned (f w), w, []).
Definition modify (f : World -> World) : M unit := fun w => (Returned tt, f w, []).
Definition act (a : Action) : M unit := fun w => (Returned tt, w, [a]).

Definition emit (to : Target) (event : string) (payload : JsVal) : M unit :=
  act (Emit to event payload).
Definition respond (status : nat) (body : JsVal) : M unit :=
  act (Respond status body).

Definition world_of {A} (r : Outcome A * World * list Action) : World := snd (fst r).
Definition actions_of {A} (r : Outcome A * World * list Action) : list Action := snd r.
Definition outcome_of {A} (r : Outcome A * World * list Action) : Outcome A := fst (fst r).

(* ------------------------------------------------------------------ *)
(** ** Map, in insertion order *)

Section JsMap.
Variable V : Type.

Fixpoint Map_get (k : jstring) (m : list (jstring * V)) : option V :=
  match m with
  | [] => None
  | (k', v) :: rest => if jstring_eqb k' k then Some v else Map_get k rest
  end.

Fixpoint Map_set (k : jstring) (v : V) (m : list (jstring * V)) : list (jstring * V) :=
  match m with
  | [] => [(k, v)]
  | (k', v') :: rest =>
      if jstring_eqb k' k then (k', v) :: rest else (k', v') :: Map_set k v rest
  end.

Definition Map_delete (k : jstring) (m : list (jstring * V)) : list (jstring * V) :=
  filter (fun kv => negb (jstring_eqb (fst kv) k)) m.

(** [m.forEach((value, key) => ...)] *)
Fixpoint Map_forEach (m : list (jstring * V)) (callback : V -> jstring -> M unit) : M unit :=
  match m with
  | [] => ret tt
  | (k, v) :: rest => callback v k ;; Map_forEach rest callback
  end.
End JsMap.

(* ------------------------------------------------------------------ *)
(** ** Property access and the string methods the handlers call *)

(** [const { k } = v] and [v.k]: a TypeError on [undefined] and [null],
    the own property of an object, [undefined] elsewhere. *)
Definition get_prop (k : string) (v : JsVal) : M JsVal :=
  match v with
  | JUndefined | JNull => throw TypeError
  | JObj fields =>
      match assoc k fields with Some x => ret x | None => ret JUndefined end
  | _ => ret JUndefined
  end.

(** [v.trim()]: only a string has the method. *)
Definition call_trim (v : JsVal) : M jstring :=
  match v with
  | JStr s => ret (trim s)
  | _ => throw TypeError
  end.

(** [!v || v.trim().length === 0] *)
Definition is_blank (v : JsVal) : M bool :=
  if negb (truthy v) then ret true
  else t <- call_trim v ;; ret (Nat.eqb (List.length t) 0).

(** [v.length > n] *)
Definition length_gt (v : JsVal) (n : nat) : bool :=
  match v with
  | JStr s => Nat.ltb n (List.length s)
  | JArr l => Nat.ltb n (List.length l)
  | _ => false
  end.

(** An identifier that no enclosing scope binds raises a ReferenceError. *)
Definition resolve (scope : list (string * JsVal)) (name : string) : M JsVal :=
  match assoc name scope with
  | Some v => ret v
  | None => throw ReferenceError
  end.

(* ------------------------------------------------------------------ *)
(** ** The messages collection *)

(** [.sort({ timestamp: -1 })]: newest first.  The sort key is the
    timestamp alone; among equal timestamps the model keeps the order of
    the collection, which is one of the orders the database may answer in
    ([database_order] below is all of them; what depends on the order of
    equal timestamps is stated for every one of them). *)
Fixpoint insert_desc (m : Message) (sorted : list Message) : list Message :=
  match sorted with
  | [] => [m]
  | x :: rest =>
      if (timestamp x <=? timestamp m)%Z then m :: x :: rest
      else x :: insert_desc m rest
  end.

Definition sort_timestamp_desc (l : list Message) : list Message :=
  fold_right insert_desc [] l.

(** [Message.find({ isDeleted: false }).sort({ timestamp: -1 }).limit(limit).skip(skip)]:
    filter, sort, skip, then limit; a limit of 0 is no limit, a negative
    limit counts by its absolute value, a negative skip is refused by the
    server. *)
Definition Message_find_recent (limit skip : Z) : M (list Message) :=
  fun w =>
    if (skip <? 0)%Z then (Thrown MongoServerError, w, [])
    else
      let found := sort_timestamp_desc (filter (fun m => negb (isDeleted m)) (messages w)) in
      let rest := skipn (Z.to_nat skip) found in
      (Returned (if (limit =? 0)%Z then rest else firstn (Z.abs_nat limit) rest), w, []).

(** [new Message({ content, userId, username, isAnonymous: true })] before
    validation: [userId] is cast to an ObjectId, [username] may be
    [undefined]. *)
Record MessageDoc := mkMessageDoc {
  doc_id : ObjectId;                 (* generated by the driver *)
  doc_content : jstring;
  doc_userId : option ObjectId;      (* None: the value does not cast *)
  doc_username : option jstring;     (* None: undefined *)
  doc_timestamp : Z                  (* Date.now() *)
}.

(** The schema's validators: [required] on the three fields (an empty
    string fails it) and [maxlength: 500] on the content. *)
Definition validate (d : MessageDoc) : option Message :=
  match doc_userId d, doc_username d with
  | Some uid, Some name =>
      if negb (Nat.eqb (List.length (doc_content d)) 0)
         && Nat.leb (List.length (doc_content d)) 500
         && negb (Nat.eqb (List.length name) 0)
      then Some (mkMessage (doc_id d) (doc_content d) uid name true (doc_timestamp d) false)
      else None
  | _, _ => None
  end.

(** [await message.save()]: validation, then the insert; [_id] is unique. *)
Definition save (d : MessageDoc) : M Message :=
  fun w =>
    match validate d with
    | None => (Thrown ValidationError, w, [])
    | Some m =>
        if existsb (fun x => oid_eqb (_id x) (_id m)) (messages w)
        then (Thrown MongoServerError, w, [])
        else (Returned m,
              mkWorld (users w) (messages w ++ [m]) (connectedUsers w) (sockets w),
              [Saved m])
    end.

Definition set_connectedUsers (f : list (jstring * UserInfo) -> list (jstring * UserInfo)) : M unit :=
  modify (fun w => mkWorld (users w) (messages w) (f (connectedUsers w)) (sockets w)).

Definition set_sockets (f : list Socket -> list Socket) : M unit :=
  modify (fun w => mkWorld (users w) (messages w) (connectedUsers w) (f (sockets w))).

Definition find_socket (id : jstring) (l : list Socket) : option Socket :=
  find (fun s => jstring_eqb (sock_id s) id) l.

Definition error_payload (text : string) : JsVal :=
  JObj [("message", JStr (str text))].

Definition error_body (text : string) : JsVal :=
  JObj [("error", JStr (str text))].

(** [authHeader.split(' ')] *)
Fixpoint split_space (s : jstring) : list jstring :=
  match s with
  | [] => [[]]
  | c :: s' =>
      if N.eqb c 32 then [] :: split_space s'
      else match split_space s' with
           | piece :: pieces => (c :: piece) :: pieces
           | [] => [[c]]
           end
  end.

(** An HTTP request as the chat routes read it. *)
Record Request := mkRequest {
  authorization : option jstring;    (* req.headers['authorization'] *)
  body : JsVal;                      (* req.body *)
  query_limit : option Z;            (* parseInt(req.query.limit); None is NaN *)
  query_page : option Z              (* parseInt(req.query.page); None is NaN *)
}.

(** [n || d] on the result of [parseInt] *)
Definition or_default (n : option Z) (d : Z) : Z :=
  match n with
  | Some z => if (z =? 0)%Z then d else z
  | None => d
  end.

(* ------------------------------------------------------------------ *)
(** ** The server *)

Section Server.

(** [jwt.verify(token, JWT_SECRET, callback)]: the payload of a token
    that verifies, [None] when the callback receives an error. *)
Variable jwt_verify : jstring -> option Decoded.

(** Mongoose's cast of a string to an ObjectId; [None] is a cast error. *)
Variable castObjectId : jstring -> option ObjectId.

(** [User.findById(id).select(...)] *)
Definition User_findById (id : jstring) : M (option User) :=
  match castObjectId id with
  | None => throw CastError
  | Some oid => gets (fun w => find (fun u => oid_eqb (u_id u) oid) (users w))
  end.

Definition new_Message (fresh : ObjectId) (now : Z)
    (content : jstring) (userId : jstring) (username : option jstring) : MessageDoc :=
  mkMessageDoc fresh content (castObjectId userId) username now.

(** The Socket.IO middleware: [Some socket] is [next()], [None] is
    [next(new Error('Authentication error'))]. *)
Definition authenticateSocket (id : jstring) (token : JsVal) : option Socket :=
  if negb (truthy token) then None
  else match token with
       | JStr t =>
           match jwt_verify t with
           | Some decoded => Some (mkSocket id (d_userId decoded) (d_email decoded) None)
           | None => None
           end
       | _ => None      (* jwt.verify reports an error for a token that is not a string *)
       end.

(** The body of [io.on('connection', async (socket) => ...)] up to the
    registration of the socket's handlers; the result is the socket as
    the handlers see it. *)
Definition on_connection (socket : Socket) : M Socket :=
  try_catch
    (user <- User_findById (sock_userId socket) ;;
     match user with
     | None => throw TypeError          (* user.name on null *)
     | Some user =>
         let socket := mkSocket (sock_id socket) (sock_userId socket)
                                (sock_userEmail socket) (Some (u_name user)) in
         set_connectedUsers
           (Map_set (sock_userId socket)
                    (mkUserInfo (sock_id socket) (u_name user) (u_email user))) ;;
         recentMessages <- Message_find_recent 50 0 ;;
         let anonymizedMessages :=
           map (fun msg => anonymizeMessage msg (Some (sock_userId socket))) recentMessages in
         emit (ToSocket (sock_id socket)) "recent_messages" (JArr (rev anonymizedMessages)) ;;
         ret socket
     end)
    (fun error => ret socket).

(** [socket.on('send_message', async (data) => ...)]; [fresh] and [now]
    are the id and the time the new document receives. *)
Definition send_message (socket : Socket) (data : JsVal) (fresh : ObjectId) (now : Z) : M unit :=
  try_catch
    (content <- get_prop "content" data ;;
     empty <- is_blank content ;;
     if (empty : bool) then
       emit (ToSocket (sock_id socket)) "error" (error_payload "Message cannot be empty")
     else if length_gt content 500 then
       emit (ToSocket (sock_id socket)) "error"
            (error_payload "Message too long (max 500 characters)")
     else
       trimmed <- call_trim content ;;
       message <- save (new_Message fresh now trimmed (sock_userId socket) (sock_userName socket)) ;;
       entries <- gets connectedUsers ;;
       Map_forEach entries (fun userInfo userId =>
         let messageData := anonymizeMessage message (Some userId) in
         emit (ToSocket (socketId userInfo)) "new_message" messageData) ;;
       let fallbackMessage := anonymizeMessage message None in
       emit ToAll "new_message" fallbackMessage)
    (fun error =>
       emit (ToSocket (sock_id socket)) "error" (error_payload "Failed to send message")).

(** [socket.on('typing', (data) => ...)] *)
Definition on_typing (socket : Socket) (data : JsVal) : M unit :=
  isTyping <- get_prop "isTyping" data ;;
  emit (ToOthers (sock_id socket)) "user_typing"
       (JObj [("username", JStr (str "Someone")); ("isTyping", isTyping)]).

(** [socket.on('ping', () => ...)] *)
Definition on_ping (socket : Socket) : M unit :=
  emit (ToSocket (sock_id socket)) "pong" JUndefined.

(** [socket.on('disconnect', () => ...)] *)
Definition on_disconnect (socket : Socket) : M unit :=
  set_connectedUsers (Map_delete (sock_userId socket)).

(** The Express middleware [authenticateToken]; [next] continues with
    [req.user]. *)
Definition authenticateToken (req : Request) (next : Decoded -> M unit) : M unit :=
  let token :=
    match authorization req with
    | Some authHeader =>
        if truthy (JStr authHeader)
        then match nth_error (split_space authHeader) 1 with
             | Some t => JStr t
             | None => JUndefined
             end
        else JStr authHeader
    | None => JUndefined
    end in
  if negb (truthy token) then respond 401 (error_body "Access token required")
  else match token with
       | JStr t =>
           match jwt_verify t with
           | Some user => next user
           | None => respond 403 (error_body "Invalid or expired token")
           end
       | _ => respond 403 (error_body "Invalid or expired token")
       end.

(** [app.get('/api/chat/messages', authenticateToken, ...)] *)
Definition get_chat_messages (req : Request) : M unit :=
  authenticateToken req (fun user =>
    try_catch
      (let limit := or_default (query_limit req) 50 in
       let page := or_default (query_page req) 1 in
       let skip := ((page - 1) * limit)%Z in
       messages <- Message_find_recent limit skip ;;
       let anonymousMessages :=
         map (fun msg => anonymizeMessage msg (Some (d_userId user))) messages in
       respond 200
         (JObj [("messages", JArr (rev anonymousMessages));
                ("hasMore", JBool (Z.of_nat (List.length messages) =? limit)%Z)]))
      (fun error => respond 500 (error_body "Failed to fetch messages"))).

(** The module-level declarations of the server file. *)
Definition module_scope : list (string * JsVal) :=
  map (fun name => (name, JHost name))
    ["express"; "cors"; "mongoose"; "bcrypt"; "jwt"; "multer"; "axios"; "Groq";
     "createServer"; "Server"; "User"; "Message"; "Period"; "PeriodNote";
     "FoodItem"; "FoodLog"; "app"; "server"; "io"; "JWT_SECRET"; "storage";
     "upload"; "MONGODB_URI"; "authenticateSocket"; "connectedUsers";
     "anonymizeMessage"; "authenticateToken"; "generateDietRecommendations"; "PORT"].

(** The bindings in scope where the send route builds its response: the
    handler's parameters and its three [const]s, then the module's.  The
    [const messageData] of the route is declared inside the [forEach]
    callback, whose scope ends with the callback. *)
Definition send_route_scope (content : JsVal) : list (string * JsVal) :=
  [("req", JHost "req"); ("res", JHost "res"); ("content", content);
   ("user", JHost "user"); ("message", JHost "message")] ++ module_scope.

(** [app.post('/api/chat/send', authenticateToken, ...)] *)
Definition post_chat_send (req : Request) (fresh : ObjectId) (now : Z) : M unit :=
  authenticateToken req (fun req_user =>
    try_catch
      (content <- get_prop "content" (body req) ;;
       empty <- is_blank content ;;
       if (empty : bool) then
         respond 400 (error_body "Message cannot be empty")
       else if length_gt content 500 then
         respond 400 (error_body "Message too long (max 500 characters)")
       else
         user <- User_findById (d_userId req_user) ;;
         trimmed <- call_trim content ;;
         name <- match user with
                 | Some u => ret (u_name u)
                 | None => throw TypeError       (* user.name on null *)
                 end ;;
         message <- save (new_Message fresh now trimmed (d_userId req_user) (Some name)) ;;
         entries <- gets connectedUsers ;;
         Map_forEach entries (fun userInfo userId =>
           let messageData := anonymizeMessage message (Some userId) in
           emit (ToSocket (socketId userInfo)) "new_message" messageData) ;;
         messageData <- resolve (send_route_scope content) "messageData" ;;
         respond 200 (JObj [("success", JBool true); ("message", messageData)]))
      (fun error => respond 500 (error_body "Failed to send message"))).

(** [app.get('/api/chat/users-online', authenticateToken, ...)] *)
Definition get_users_online (req : Request) : M unit :=
  authenticateToken req (fun _ =>
    respond 200 (JObj [("count", JNum 0); ("users", JArr [])])).

(** The older copy of the server file (OvaCare-main/backend/app.js):
    the same handler without the fallback broadcast. *)
Definition send_message_legacy (socket : Socket) (data : JsVal) (fresh : ObjectId) (now : Z)
    : M unit :=
  try_catch
    (content <- get_prop "content" data ;;
     empty <- is_blank content ;;
     if (empty : bool) then
       emit (ToSocket (sock_id socket)) "error" (error_payload "Message cannot be empty")
     else if length_gt content 500 then
       emit (ToSocket (sock_id socket)) "error"
            (error_payload "Message too long (max 500 characters)")
     else
       trimmed <- call_trim content ;;
       message <- save (new_Message fresh now trimmed (sock_userId socket) (sock_userName socket)) ;;
       entries <- gets connectedUsers ;;
       Map_forEach entries (fun userInfo userId =>
         let messageData := anonymizeMessage message (Some userId) in
         emit (ToSocket (socketId userInfo)) "new_message" messageData))
    (fun error =>
       emit (ToSocket (sock_id socket)) "error" (error_payload "Failed to send message")).

(** *** Events *)

Inductive Event :=
| Connect (id : jstring) (token : JsVal)     (* a handshake with socket.handshake.auth.token *)
| SendMessage (id : jstring) (data : JsVal) (fresh : ObjectId) (now : Z)
| Typing (id : jstring) (data : JsVal)
| Ping (id : jstring)
| Disconnect (id : jstring).

Definition event_socket (ev : Event) : jstring :=
  match ev with
  | Connect id _ | SendMessage id _ _ _ | Typing id _ | Ping id | Disconnect id => id
  end.

Definition unregister (id : jstring) (l : list Socket) : list Socket :=
  filter (fun s => negb (jstring_eqb (sock_id s) id)) l.

(** An event of a socket reaches the handler registered for it; a socket
    that the middleware refused has no handlers. *)
Definition with_socket (id : jstring) (handler : Socket -> M unit) : M unit :=
  registered <- gets sockets ;;
  match find_socket id registered with
  | Some socket => handler socket
  | None => ret tt
  end.

(** One event, handled to its end.  For a [Connect] the pieces of the
    connection handler run one after the other with no other event in
    between; [tick] below takes them one at a time. *)
Definition dispatch (ev : Event) : M unit :=
  match ev with
  | Connect id token =>
      match authenticateSocket id token with
      | None => ret tt
      | Some socket =>
          socket <- on_connection socket ;;
          set_sockets (fun l => socket :: unregister id l)
      end
  | SendMessage id data fresh now =>
      with_socket id (fun socket => send_message socket data fresh now)
  | Typing id data => with_socket id (fun socket => on_typing socket data)
  | Ping id => with_socket id on_ping
  | Disconnect id =>
      with_socket id (fun socket => on_disconnect socket ;; set_sockets (unregister id))
  end.

(** The events in order; an exception no handler catches ends the run. *)
Fixpoint run (evs : list Event) : M unit :=
  match evs with
  | [] => ret tt
  | ev :: rest => dispatch ev ;; run rest
  end.

End Server.

(* ------------------------------------------------------------------ *)
(** ** The client: the socket context of the React frontend *)

Module Client.

(** [interface AnonymousMessage] *)
Record AnonymousMessage := mkAnonymousMessage {
  _id : jstring;
  content : jstring;
  username : jstring;
  timestamp : jstring;
  isAnonymous : bool;
  isOwnMessage : bool
}.

(** [{ ...msg, username: 'Anonymous', isAnonymous: true,
       isOwnMessage: msg.isOwnMessage || false }] *)
Definition normalize (msg : AnonymousMessage) : AnonymousMessage :=
  mkAnonymousMessage (_id msg) (content msg) (str "Anonymous") (timestamp msg)
                     true (isOwnMessage msg || false).

(** [newSocket.on('recent_messages', ...)]: the next value of the
    [messages] state. *)
Definition on_recent_messages (recentMessages : list AnonymousMessage)
    (prev : list AnonymousMessage) : list AnonymousMessage :=
  let anonymizedMessages := map normalize recentMessages in
  anonymizedMessages.

(** [newSocket.on('new_message', ...)]: the updater passed to
    [setMessages]. *)
Definition on_new_message (message : AnonymousMessage)
    (prev : list AnonymousMessage) : list AnonymousMessage :=
  let anonymizedMessage := normalize message in
  let messageExists :=
    existsb (fun msg => jstring_eqb (_id msg) (_id anonymizedMessage)) prev in
  if messageExists then prev else prev ++ [anonymizedMessage].

(** The same handler in the older copy of the context: no check. *)
Definition on_new_message_legacy (message : AnonymousMessage)
    (prev : list AnonymousMessage) : list AnonymousMessage :=
  prev ++ [normalize message].

Inductive Event :=
| RecentMessages (recentMessages : list AnonymousMessage)
| NewMessage (message : AnonymousMessage)
| Logout.                                   (* setMessages([]) in the effect's else branch *)

Definition step (messages : list AnonymousMessage) (ev : Event) : list AnonymousMessage :=
  match ev with
  | RecentMessages l => on_recent_messages l messages
  | NewMessage m => on_new_message m messages
  | Logout => []
  end.

(** The [messages] state after the events, from the initial [[]]. *)
Definition run (evs : list Event) : list AnonymousMessage :=
  fold_left step evs [].

Definition ids (messages : list AnonymousMessage) : list jstring := map _id messages.

(** How many rendered entries carry the id. *)
Definition entries_with (id : jstring) (messages : list AnonymousMessage) : nat :=
  List.length (filter (fun msg => jstring_eqb (_id msg) id) messages).

(** A snapshot as the server builds it lists each stored message once. *)
Definition distinct_snapshot (ev : Event) : Prop :=
  match ev with
  | RecentMessages l => NoDup (ids l)
  | _ => True
  end.

End Client.

(* ------------------------------------------------------------------ *)
(** ** Sample data *)

Definition hex_value (c : N) : option N :=
  if ((48 <=? c) && (c <=? 57))%N then Some (c - 48)%N
  else if ((97 <=? c) && (c <=? 102))%N then Some (c - 87)%N
  else if ((65 <=? c) && (c <=? 70))%N then Some (c - 55)%N
  else None.

Fixpoint parse_hex_bytes (s : jstring) : option (list byte) :=
  match s with
  | [] => Some []
  | hi :: lo :: rest =>
      match hex_value hi, hex_value lo, parse_hex_bytes rest with
      | Some h, Some l, Some bs =>
          match Byte.of_N (16 * h + l) with
          | Some b => Some (b :: bs)
          | None => None
          end
      | _, _, _ => None
      end
  | [_] => None
  end.

(** A cast that accepts the 24-digit hex strings. *)
Definition cast_hex (s : jstring) : option ObjectId :=
  match parse_hex_bytes s with
  | Some [c0; c1; c2; c3; c4; c5; c6; c7; c8; c9; c10; c11] =>
      Some (mkObjectId c0 c1 c2 c3 c4 c5 c6 c7 c8 c9 c10 c11)
  | _ => None
  end.

Definition alice : User := mkUser (oid_of_N 1) (str "Alice") (str "alice@example.org").
Definition bob : User := mkUser (oid_of_N 2) (str "Bob") (str "bob@example.org").

Definition alice_id : jstring := oid_toString (u_id alice).
Definition bob_id : jstring := oid_toString (u_id bob).

(** A verifier that accepts two tokens. *)
Definition sample_verify (token : jstring) : option Decoded :=
  if jstring_eqb token (str "token-alice") then Some (mkDecoded alice_id (u_email alice))
  else if jstring_eqb token (str "token-bob") then Some (mkDecoded bob_id (u_email bob))
  else None.

Definition empty_world : World := mkWorld [alice; bob] [] [] [].

Definition socketA : Socket := mkSocket (str "sA") alice_id (u_email alice) (Some (u_name alice)).
Definition socketB : Socket := mkSocket (str "sB") bob_id (u_email bob) (Some (u_name bob)).

(** Alice and Bob connected. *)
Definition two_online : World :=
  mkWorld [alice; bob] []
          [(alice_id, mkUserInfo (str "sA") (u_name alice) (u_email alice));
           (bob_id, mkUserInfo (str "sB") (u_name bob) (u_email bob))]
          [socketB; socketA].

Definition hello : JsVal := JObj [("content", JStr (str "hello"))].

Definition bearer (token : string) : option jstring := Some (str "Bearer " ++ str token).

Definition post_hello : Request := mkRequest (bearer "token-alice") hello None None.

(** [n] copies of a code unit. *)
Definition repeat_unit (c : N) (n : nat) : jstring := repeat c n.

(** Three messages with increasing timestamps. *)
Definition msgA : Message := mkMessage (oid_of_N 101) (str "A") (u_id alice) (str "Alice") true 1000 false.
Definition msgB : Message := mkMessage (oid_of_N 102) (str "B") (u_id bob) (str "Bob") true 2000 false.
Definition msgC : Message := mkMessage (oid_of_N 103) (str "C") (u_id alice) (str "Alice") true 3000 false.

(** Three messages created within one millisecond. *)
Definition tieA : Message := mkMessage (oid_of_N 201) (str "A") (u_id alice) (str "Alice") true 1000 false.
Definition tieB : Message := mkMessage (oid_of_N 202) (str "B") (u_id bob) (str "Bob") true 1000 false.
Definition tieC : Message := mkMessage (oid_of_N 203) (str "C") (u_id alice) (str "Alice") true 1000 false.

Definition alice_decoded : Decoded := mkDecoded alice_id (u_email alice).

(** A, B and C stored in that order. *)
Definition three_messages : World := mkWorld [alice; bob] [msgA; msgB; msgC] [] [].

Definition get_three : Request := mkRequest (bearer "token-alice") JUndefined (Some 3%Z) (Some 1%Z).

(** The same message as the client receives it twice: the targeted copy
    and the fallback copy. *)
Definition targeted_copy : Client.AnonymousMessage :=
  Client.mkAnonymousMessage (str "64") (str "hello") (str "Anonymous") (str "t") true true.
Definition fallback_copy : Client.AnonymousMessage :=
  Client.mkAnonymousMessage (str "64") (str "hello") (str "Anonymous") (str "t") true false.
Definition earlier_message : Client.AnonymousMessage :=
  Client.mkAnonymousMessage (str "63") (str "hi") (str "Anonymous") (str "s") true false.

(* ------------------------------------------------------------------ *)
(** ** Notions the statements use *)

(** The per-entry deliveries of a message: one [new_message] to each
    entry's socket, anonymized for that entry's identity, in the order of
    the map. *)
Definition fanout (message : Message) (entries : list (jstring * UserInfo)) : list Action :=
  map (fun entry =>
         Emit (ToSocket (socketId (snd entry))) "new_message"
              (anonymizeMessage message (Some (fst entry))))
      entries.

Definition is_broadcast (a : Action) : bool :=
  match a with
  | Emit ToAll _ _ => true
  | _ => false
  end.

(** The condition under which the two validation tests of the send
    handlers let a content through: a string, not empty once trimmed, of at
    most 500 code units as received. *)
Definition content_ok (content : JsVal) : bool :=
  match content with
  | JStr s => negb (Nat.eqb (List.length (trim s)) 0) && Nat.leb (List.length s) 500
  | _ => false
  end.

(** [const { content } = data], when it does not throw. *)
Definition content_of (data : JsVal) : option JsVal :=
  match data with
  | JUndefined | JNull => None
  | JObj fields =>
      match assoc "content" fields with
      | Some content => Some content
      | None => Some JUndefined
      end
  | _ => Some JUndefined
  end.

Definition data_ok (data : JsVal) : bool :=
  match content_of data with
  | Some content => content_ok content
  | None => false
  end.

(** The specification's wording of validity: a length of 1 to 500 after
    trimming. *)
Definition valid_after_trim (s : jstring) : bool :=
  Nat.leb 1 (List.length (trim s)) && Nat.leb (List.length (trim s)) 500.

(** The document a send stores. *)
Definition stored (fresh : ObjectId) (now : Z) (s : jstring) (uid : ObjectId) (name : jstring)
    : Message :=
  mkMessage fresh (trim s) uid name true now false.

Definition add_message (m : Message) (w : World) : World :=
  mkWorld (users w) (messages w ++ [m]) (connectedUsers w) (sockets w).

(** The id is not the [_id] of a stored message. *)
Definition unused (fresh : ObjectId) (w : World) : bool :=
  negb (existsb (fun x => oid_eqb (_id x) fresh) (messages w)).

(** The outcome of the two validation tests on a content that does not
    pass: the first test answers "empty", or throws on a value that has no
    [trim], or the second test answers "too long". *)
Inductive Verdict := Empty | NoTrim | TooLong.

Definition verdict (content : JsVal) : Verdict :=
  match content with
  | JStr s =>
      if Nat.eqb (List.length (trim s)) 0 then Empty else TooLong
  | other => if truthy other then NoTrim else Empty
  end.

(** The text of the error a send that does not pass receives. *)
Definition rejection_text (data : JsVal) : string :=
  match content_of data with
  | None => "Failed to send message"
  | Some content =>
      match verdict content with
      | Empty => "Message cannot be empty"
      | NoTrim => "Failed to send message"
      | TooLong => "Message too long (max 500 characters)"
      end
  end.

(** The status of that error on the REST route: 400 from the validation
    tests, 500 from the [catch]. *)
Definition rejection_status (data : JsVal) : nat :=
  match content_of data with
  | None => 500
  | Some content =>
      match verdict content with
      | Empty | TooLong => 400
      | NoTrim => 500
      end
  end.

(** The request carries a token that [authenticateToken] lets through as
    [user]. *)
Definition authenticated (jwt_verify : jstring -> option Decoded)
    (req : Request) (user : Decoded) : Prop :=
  exists authHeader token,
    authorization req = Some authHeader
    /\ nth_error (split_space authHeader) 1 = Some token
    /\ token <> []
    /\ jwt_verify token = Some user.

(** [a] may stand before [b] in a newest-first listing. *)
Definition newer_first (a b : Message) : Prop := (timestamp b <= timestamp a)%Z.

(** A connection's own events, the handshake apart. *)
Definition is_connect (ev : Event) : bool :=
  match ev with
  | Connect _ _ => true
  | _ => false
  end.

(** The three of them stored in the order A, B, C. *)
Definition same_millisecond : World := mkWorld [alice; bob] [tieA; tieB; tieC] [] [].

(** A content of 501 code units that trims to one: a letter, then blanks. *)
Definition padded : jstring := 97%N :: repeat_unit 32 500.

(** The credential of a handshake does not verify: it is missing, not a
    string, or a string [jwt.verify] rejects. *)
Definition fails_verification (jwt_verify : jstring -> option Decoded) (token : JsVal) : Prop :=
  forall t, token = JStr t -> jwt_verify t = None.

(** The history a new connection receives: the 50 newest messages that are
    not deleted, newest first. *)
Definition snapshot (w : World) : list Message :=
  firstn 50 (sort_timestamp_desc (filter (fun m => negb (isDeleted m)) (messages w))).

Definition set_presence (entries : list (jstring * UserInfo)) (w : World) : World :=
  mkWorld (users w) (messages w) entries (sockets w).

(** The answers [.sort({ timestamp: -1 })] allows for the query
    [find({ isDeleted: false })] on the stored messages: the messages that
    are not deleted, most recent first.  The timestamp is the only sort
    key, so among equal timestamps any order may come back, and two
    queries need not agree on it; [sort_timestamp_desc] is one of them. *)
Definition database_order (stored found : list Message) : Prop :=
  Permutation (filter (fun m => negb (isDeleted m)) stored) found
  /\ StronglySorted newer_first found.

(** What the query followed by [.skip(skip).limit(limit)] may answer, for
    a skip that is not negative and a positive limit. *)
Definition recent_answer (limit skip : nat) (stored answer : list Message) : Prop :=
  exists found, database_order stored found /\ answer = firstn limit (skipn skip found).

(** [parseInt(q) || d]: the value the route works with is the query
    parameter when that is a number other than 0, and the default [d] when
    the parameter is missing, not a number or 0. *)
Definition effective (q : option Z) (d v : Z) : Prop :=
  ((q = None \/ q = Some 0%Z) /\ v = d) \/ (q = Some v /\ v <> 0%Z).

(** No two messages that are not deleted carry the same timestamp. *)
Definition distinct_timestamps (stored : list Message) : Prop :=
  NoDup (map timestamp (filter (fun m => negb (isDeleted m)) stored)).

(* ------------------------------------------------------------------ *)
(** ** More of the server file *)

Section MoreServer.

Variable jwt_verify : jstring -> option Decoded.
Variable castObjectId : jstring -> option ObjectId.

(** [req.userId]: [authenticateToken] assigns [req.user]; no middleware
    assigns [req.userId], so the property is [undefined]. *)
Definition req_userId (req : Request) : option jstring := None.

(** [app.post('/api/chat/test', authenticateToken, ...)] *)
Definition post_chat_test (req : Request) (fresh : ObjectId) (now : Z) : M unit :=
  authenticateToken jwt_verify req (fun _ =>
    try_catch
      (testMessage <- save (mkMessageDoc fresh
                              (str "Test message - real-time chat is working!")
                              (match req_userId req with
                               | Some id => castObjectId id
                               | None => None
                               end)
                              (Some (str "System Test")) now) ;;
       entries <- gets connectedUsers ;;
       Map_forEach entries (fun userInfo userId =>
         let messageData := anonymizeMessage testMessage (Some userId) in
         emit (ToSocket (socketId userInfo)) "new_message" messageData) ;;
       let fallbackMessage := anonymizeMessage testMessage None in
       emit ToAll "new_message" fallbackMessage ;;
       respond 200 (JObj [("success", JBool true); ("message", JStr (str "Test message sent"))]))
      (fun error => respond 500 (error_body "Failed to send test message"))).

(** What reaches the chat core: a socket event or a request to one of the
    four chat routes. *)
Inductive Input :=
| FromSocket (ev : Event)
| GetMessages (req : Request)
| PostSend (req : Request) (fresh : ObjectId) (now : Z)
| PostTest (req : Request) (fresh : ObjectId) (now : Z)
| GetUsersOnline (req : Request).

Definition handle (i : Input) : M unit :=
  match i with
  | FromSocket ev => dispatch jwt_verify castObjectId ev
  | GetMessages req => get_chat_messages jwt_verify req
  | PostSend req fresh now => post_chat_send jwt_verify castObjectId req fresh now
  | PostTest req fresh now => post_chat_test req fresh now
  | GetUsersOnline req => get_users_online jwt_verify req
  end.

(** The inputs in order; an exception no handler catches ends the run. *)
Fixpoint handle_all (inputs : list Input) : M unit :=
  match inputs with
  | [] => ret tt
  | i :: rest => handle i ;; handle_all rest
  end.

End MoreServer.

(** A stored message as the schema and the send handlers leave it: a
    content of 1 to 500 code units without blanks at either end, a name,
    anonymous, not deleted. *)
Definition well_formed (m : Message) : Prop :=
  content m <> [] /\ List.length (content m) <= 500 /\ trim (content m) = content m
  /\ username m <> [] /\ isAnonymous m = true /\ isDeleted m = false.

(** Every presence entry points at a registered socket of the entry's
    identity, and the registered sockets have distinct ids. *)
Definition presence_consistent (w : World) : Prop :=
  NoDup (map sock_id (sockets w))
  /\ forall k info,
       In (k, info) (connectedUsers w) ->
       exists s, In s (sockets w) /\ sock_id s = socketId info /\ sock_userId s = k.

(** The messages that are not deleted, newest first. *)
Definition history (w : World) : list Message :=
  sort_timestamp_desc (filter (fun m => negb (isDeleted m)) (messages w)).

(** The body of the route's answer for the messages [msgs] of a query with
    limit [limit]. *)
Definition page_body (user : Decoded) (limit : Z) (msgs : list Message) : JsVal :=
  JObj [("messages", JArr (rev (map (fun msg => anonymizeMessage msg (Some (d_userId user))) msgs)));
        ("hasMore", JBool (Z.of_nat (List.length msgs) =? limit)%Z)].

(** [w'] is [w] with at most one message more, a well-formed one; users,
    presence map and sockets are the same. *)
Definition only_adds (w w' : World) : Prop :=
  users w' = users w /\ connectedUsers w' = connectedUsers w /\ sockets w' = sockets w
  /\ (messages w' = messages w
      \/ exists m, messages w' = messages w ++ [m] /\ well_formed m /\ unused (_id m) w = true).

(** The messages collection of [w'] is the one of [w] followed by
    well-formed messages; the users are the same. *)
Definition store_grows (w w' : World) : Prop :=
  users w' = users w
  /\ exists added, messages w' = messages w ++ added /\ Forall well_formed added.

(** The token a request carries: the second piece of the authorization
    header when there is one and it is not empty. *)
Definition bearer_token (req : Request) : option jstring :=
  match authorization req with
  | Some authHeader =>
      match nth_error (split_space authHeader) 1 with
      | Some [] => None
      | Some token => Some token
      | None => None
      end
  | None => None
  end.

(** The request of an input that is a request. *)
Definition input_request (i : Input) : option Request :=
  match i with
  | FromSocket _ => None
  | GetMessages req | PostSend req _ _ | PostTest req _ _ | GetUsersOnline req => Some req
  end.

(* ------------------------------------------------------------------ *)
(** ** More of the client: sending *)

Module ClientSend.

(** [const sendMessage = (content: string) => ...] of the socket context:
    the events the call emits; [socket] tells whether the [socket] state
    is set. *)
Definition sendMessage (socket : bool) (content : jstring) : list (string * JsVal) :=
  if socket && truthy (JStr (trim content))
  then [("send_message", JObj [("content", JStr (trim content))])]
  else [].

(** [handleSetIsTyping], the context's [setIsTyping] *)
Definition handleSetIsTyping (socket : bool) (typing : bool) : list (string * JsVal) :=
  if socket then [("typing", JObj [("isTyping", JBool typing)])] else [].

(** [handleSendMessage] of the chat page: the events emitted and the next
    value of the input. *)
Definition handleSendMessage (socket isConnected : bool) (message : jstring)
    : list (string * JsVal) * jstring :=
  if truthy (JStr (trim message)) && isConnected
  then (sendMessage socket message ++ handleSetIsTyping socket false, [])
  else ([], message).

End ClientSend.

(* ------------------------------------------------------------------ *)
(** ** The connection handler, await by await *)

(** The handler of [io.on('connection', ...)] is suspended twice, at
    [await User.findById(...)] and at [await Message.find(...)], and
    registers the socket's listeners only after the [try]; between the
    pieces other events are handled.  [dispatch] above runs the pieces of a
    [Connect] one after the other; here each piece is a step of its own. *)

(** Where the handler of a connection is suspended. *)
Inductive Await :=
| AwaitUser         (* at [await User.findById(socket.userId).select(...)] *)
| AwaitRecent.      (* at [await Message.find(...).sort(...).limit(50).select(...)] *)

Definition await_eqb (a b : Await) : bool :=
  match a, b with
  | AwaitUser, AwaitUser | AwaitRecent, AwaitRecent => true
  | _, _ => false
  end.

(** A connection whose handler has not reached the [socket.on] calls: the
    handler's [socket], where the handler is suspended, and whether the
    connection is still open. *)
Record Pending := mkPending {
  pend_socket : Socket;
  pend_await : Await;
  pend_open : bool
}.

Definition pend_id (q : Pending) : jstring := sock_id (pend_socket q).

Definition find_pending (id : jstring) (a : Await) (p : list Pending) : option Pending :=
  find (fun q => jstring_eqb (pend_id q) id && await_eqb (pend_await q) a) p.

Definition remove_pending (id : jstring) (p : list Pending) : list Pending :=
  filter (fun q => negb (jstring_eqb (pend_id q) id)) p.

(** The connection [id] closes while its handler is suspended. *)
Definition close_pending (id : jstring) (p : list Pending) : list Pending :=
  map (fun q => if jstring_eqb (pend_id q) id
                then mkPending (pend_socket q) (pend_await q) false
                else q) p.

Section Interleaving.

Variable jwt_verify : jstring -> option Decoded.
Variable castObjectId : jstring -> option ObjectId.

(** The handler from the answer of [User.findById] to the second [await],
    or to the end of the [try] when the [catch] is taken; the result is
    the socket and whether the handler is suspended again. *)
Definition connection_user (socket : Socket) : M (Socket * bool) :=
  try_catch
    (user <- User_findById castObjectId (sock_userId socket) ;;
     match user with
     | None => throw TypeError          (* user.name on null *)
     | Some user =>
         let socket := mkSocket (sock_id socket) (sock_userId socket)
                                (sock_userEmail socket) (Some (u_name user)) in
         set_connectedUsers
           (Map_set (sock_userId socket)
                    (mkUserInfo (sock_id socket) (u_name user) (u_email user))) ;;
         ret (socket, true)
     end)
    (fun error => ret (socket, false)).

(** The handler from the answer of [Message.find] to the end of the
    [try]. *)
Definition connection_recent (socket : Socket) : M unit :=
  try_catch
    (recentMessages <- Message_find_recent 50 0 ;;
     let anonymizedMessages :=
       map (fun msg => anonymizeMessage msg (Some (sock_userId socket))) recentMessages in
     emit (ToSocket (sock_id socket)) "recent_messages" (JArr (rev anonymizedMessages)))
    (fun error => ret tt).

(** The end of the handler: the four [socket.on] calls.  The listeners of
    a connection that has closed in the meantime are never called. *)
Definition register_listeners (socket : Socket) (open : bool) : M unit :=
  if open then set_sockets (fun l => socket :: unregister (sock_id socket) l)
  else ret tt.

(** What the server reacts to. *)
Inductive Tick :=
| Arrives (ev : Event)            (* a handshake or an event of a client *)
| UserAnswers (id : jstring)      (* the [User.findById] of connection [id] resolves *)
| RecentAnswers (id : jstring).   (* the [Message.find] of connection [id] resolves *)

(** One reaction; the result is the list of suspended handlers afterwards.
    A handshake that passes the middleware starts the handler, which runs
    to its first [await]; an event of a connection whose listeners are
    not registered yet reaches no listener. *)
Definition tick (t : Tick) (p : list Pending) : M (list Pending) :=
  match t with
  | Arrives (Connect id token) =>
      match authenticateSocket jwt_verify id token with
      | None => ret p
      | Some socket => ret (mkPending socket AwaitUser true :: p)
      end
  | Arrives (Disconnect id) =>
      dispatch jwt_verify castObjectId (Disconnect id) ;;
      ret (close_pending id p)
  | Arrives ev =>
      dispatch jwt_verify castObjectId ev ;;
      ret p
  | UserAnswers id =>
      match find_pending id AwaitUser p with
      | None => ret p
      | Some q =>
          r <- connection_user (pend_socket q) ;;
          if (snd r : bool)
          then ret (mkPending (fst r) AwaitRecent (pend_open q) :: remove_pending id p)
          else register_listeners (fst r) (pend_open q) ;;
               ret (remove_pending id p)
      end
  | RecentAnswers id =>
      match find_pending id AwaitRecent p with
      | None => ret p
      | Some q =>
          connection_recent (pend_socket q) ;;
          register_listeners (pend_socket q) (pend_open q) ;;
          ret (remove_pending id p)
      end
  end.

(** The reactions in order; an exception no handler catches ends the run. *)
Fixpoint run_ticks (ts : list Tick) (p : list Pending) : M (list Pending) :=
  match ts with
  | [] => ret p
  | t :: rest => p' <- tick t p ;; run_ticks rest p'
  end.

(** The connections that are open: those whose listeners are registered
    and those whose handler is suspended and that have not closed. *)
Definition open_sockets (w : World) (p : list Pending) : list Socket :=
  sockets w ++ map pend_socket (filter pend_open p).

(** Every reaction of the run finds the connections in order: a handshake
    arrives with an id that no connection uses, and a connection closes
    only after its handler has registered the listeners. *)
Fixpoint orderly (ts : list Tick) (p : list Pending) (w : World) : Prop :=
  match ts with
  | [] => True
  | t :: rest =>
      match t with
      | Arrives (Connect id _) =>
          ~ In id (map sock_id (sockets w)) /\ ~ In id (map pend_id p)
      | Arrives (Disconnect id) => ~ In id (map pend_id p)
      | _ => True
      end
      /\ match tick t p w with
         | (Returned p', w', _) => orderly rest p' w'
         | (Thrown _, _, _) => True
         end
  end.

End Interleaving.

(** No stale entry: connection ids are unique, and every entry of
    [connectedUsers] points at an open connection of the entry's
    identity. *)
Definition presence_live (w : World) (p : list Pending) : Prop :=
  NoDup (map sock_id (sockets w) ++ map pend_id p)
  /\ Forall (fun q => pend_open q = true) p
  /\ forall k info,
       In (k, info) (connectedUsers w) ->
       exists s, In s (open_sockets w p)
                 /\ sock_id s = socketId info /\ sock_userId s = k.

(* ------------------------------------------------------------------ *)
(** ** The period tracker: the Period model and the route that starts a cycle *)

(** A stored Period document (models/Period.js); dates are milliseconds
    since the epoch.  [createdAt], [updatedAt] and [remindersSent] are left
    out: the functions below do not read them. *)
Record Period := mkPeriod {
  p_id : ObjectId;
  p_userId : ObjectId;              (* required *)
  startDate : Z;                    (* required *)
  endDate : option Z;               (* default null *)
  cycleLength : option Z;           (* default null, min 21, max 45 *)
  predictedNextDate : Z;            (* required *)
  isActive : bool                   (* default true *)
}.

(** [1000 * 60 * 60 * 24] *)
Definition DAY : Z := 1000 * 60 * 60 * 24.

(** [Math.ceil(a / b)] for integers [a] and [b > 0]; the quotient of the
    source is a double, which gives this value for [|a| < 2^53]. *)
Definition ceil_div (a b : Z) : Z := (- ((- a) / b))%Z.

(** [Math.round(a / b)] for integers [a] and [b > 0]: the nearest integer,
    a half rounded up. *)
Definition round_div (a b : Z) : Z := ((2 * a + b) / (2 * b))%Z.

(** [periodSchema.methods.calculateCycleLength]; a date argument is [None]
    when it is an Invalid Date, and so is a result that is [NaN]. *)
Definition calculateCycleLength (this : Period) (nextPeriodStartDate : option Z) : option Z :=
  match nextPeriodStartDate with
  | Some next =>
      let diffTime := Z.abs (next - startDate this) in
      let diffDays := ceil_div diffTime DAY in
      Some diffDays
  | None => None
  end.

(** [.sort({ startDate: -1 })]; among equal start dates the model keeps the
    order of the collection. *)
Fixpoint insert_by_start (p : Period) (sorted : list Period) : list Period :=
  match sorted with
  | [] => [p]
  | x :: rest =>
      if (startDate x <=? startDate p)%Z then p :: x :: rest
      else x :: insert_by_start p rest
  end.

Definition sort_start_desc (l : list Period) : list Period :=
  fold_right insert_by_start [] l.

Definition has_length (p : Period) : bool :=
  match cycleLength p with Some _ => true | None => false end.

Definition length_or_zero (p : Period) : Z :=
  match cycleLength p with Some n => n | None => 0%Z end.

(** The cycles the average is taken over:
    [find({ userId, cycleLength: { $ne: null } }).sort({ startDate: -1 }).limit(6)]. *)
Definition last_cycles (uid : ObjectId) (db : list Period) : list Period :=
  firstn 6 (sort_start_desc
              (filter (fun p => oid_eqb (p_userId p) uid && has_length p) db)).

(** [periodSchema.statics.calculateAverageCycleLength], the user id
    already cast. *)
Definition calculateAverageCycleLength (uid : ObjectId) (db : list Period) : Z :=
  let periods := last_cycles uid db in
  if Nat.ltb (List.length periods) 3 then 30%Z
  else
    let sum := fold_left (fun acc period => (acc + length_or_zero period)%Z) periods 0%Z in
    round_div sum (Z.of_nat (List.length periods)).

(** [Period.findOne({ userId, isActive: true })] *)
Definition find_active (uid : ObjectId) (db : list Period) : option Period :=
  find (fun p => oid_eqb (p_userId p) uid && isActive p) db.

(** [doc.save()] of a stored document: the document replaces the one with
    its [_id]. *)
Definition replace_period (p : Period) (db : list Period) : list Period :=
  map (fun q => if oid_eqb (p_id q) (p_id p) then p else q) db.

(** The validators of [cycleLength]: a number from 21 to 45. *)
Definition valid_cycleLength (n : option Z) : bool :=
  match n with
  | Some n => (21 <=? n)%Z && (n <=? 45)%Z
  | None => false
  end.

(** The fields of the record as the serialised document has them; the
    document also carries [remindersSent], [createdAt], [updatedAt] and
    [__v], which the record leaves out. *)
Definition Period_toJSON (p : Period) : JsVal :=
  JObj [("_id", JOid (p_id p)); ("userId", JOid (p_userId p));
        ("startDate", JDate (startDate p));
        ("endDate", match endDate p with Some d => JDate d | None => JNull end);
        ("cycleLength", match cycleLength p with Some n => JNum n | None => JNull end);
        ("predictedNextDate", JDate (predictedNextDate p));
        ("isActive", JBool (isActive p))].

Section PeriodRoutes.

(** [new Date(value)]: the date a request value denotes, [None] for an
    Invalid Date. *)
Variable toDate : JsVal -> option Z.

(** [d.setDate(d.getDate() + n)]: the date [n] calendar days after [d] in
    the server's time zone, [None] outside the range of Date. *)
Variable addDays : Z -> Z -> option Z.

Variable castObjectId : jstring -> option ObjectId.

(** [periodSchema.statics.predictNextPeriod] *)
Definition predictNextPeriod (lastPeriodDate : option Z) (cycleLength : Z) : option Z :=
  match lastPeriodDate with
  | Some d => addDays d cycleLength
  | None => None
  end.

(** The handler of [app.post('/api/period/start', authenticateToken, ...)]
    for the identity [userId] of the token: the collection afterwards, the
    status and the body of the response.  [today] is the time of the
    request, [fresh] the id the new document receives. *)
Definition period_start (userId : jstring) (body : JsVal) (today : Z) (fresh : ObjectId)
    (db : list Period) : list Period * (nat * JsVal) :=
  let failed := (500, error_body "Failed to log period") in
  match body with
  | JUndefined | JNull => (db, failed)             (* destructuring throws *)
  | _ =>
      let startDateValue := match get_field "startDate" body with
                       | Some v => v
                       | None => JUndefined
                       end in
      if negb (truthy startDateValue) then (db, (400, error_body "Start date is required"))
      else
        let periodStartDate := toDate startDateValue in
        if match periodStartDate with Some d => (today <? d)%Z | None => false end
        then (db, (400, error_body "Start date cannot be in the future"))
        else
          match castObjectId userId with
          | None => (db, failed)                   (* the query does not cast *)
          | Some uid =>
              let closed :=
                match find_active uid db with
                | Some activeCycle =>
                    let n := calculateCycleLength activeCycle periodStartDate in
                    if valid_cycleLength n
                    then Some (replace_period
                                 (mkPeriod (p_id activeCycle) (p_userId activeCycle)
                                           (startDate activeCycle) (endDate activeCycle)
                                           n (predictedNextDate activeCycle) false) db)
                    else None                      (* activeCycle.save() fails validation *)
                | None => Some db
                end in
              match closed with
              | None => (db, failed)
              | Some db1 =>
                  let averageCycleLength := calculateAverageCycleLength uid db1 in
                  let predicted := predictNextPeriod periodStartDate averageCycleLength in
                  match periodStartDate, predicted with
                  | Some start, Some next =>
                      if existsb (fun q => oid_eqb (p_id q) fresh) db1
                      then (db1, failed)           (* duplicate key *)
                      else
                        let newPeriod := mkPeriod fresh uid start None None next true in
                        (db1 ++ [newPeriod],
                         (201, JObj [("message", JStr (str "Period logged successfully"));
                                     ("period", Period_toJSON newPeriod);
                                     ("averageCycleLength", JNum averageCycleLength)]))
                  | _, _ => (db1, failed)          (* newPeriod.save() fails validation *)
                  end
              end
          end
  end.

End PeriodRoutes.


(** The recorded cycle lengths of the user lie between [lo] and [hi]. *)
Definition lengths_within (lo hi : Z) (uid : ObjectId) (db : list Period) : Prop :=
  forall p n, In p db -> oid_eqb (p_userId p) uid = true -> cycleLength p = Some n ->
              (lo <= n <= hi)%Z.

(** Sample data of the period tracker. *)
Definition day (n : Z) : Z := n * DAY.

Definition to_date_sample (v : JsVal) : option Z :=
  match v with
  | JNum ms => Some ms
  | _ => None
  end.

Definition add_days_sample (d n : Z) : option Z := Some (d + n * DAY)%Z.

Definition cycle_june : Period :=
  mkPeriod (oid_of_N 301) (u_id alice) (day 100) None None (day 130) true.

Definition start_on (d : Z) : JsVal := JObj [("startDate", JNum d)].

(** Further sample data. *)
Definition no_token : Request := mkRequest None JUndefined None None.

Definition get_page (limit page : Z) : Request :=
  mkRequest (bearer "token-alice") JUndefined (Some limit) (Some page).

Definition socketA2 : Socket :=
  mkSocket (str "sA2") alice_id (u_email alice) (Some (u_name alice)).

(** Alice connected twice; the entry is the one of the later connection. *)
Definition two_tabs : World :=
  mkWorld [alice; bob] []
          [(alice_id, mkUserInfo (str "sA2") (u_name alice) (u_email alice))]
          [socketA2; socketA].

(** A database in which no user document is found. *)
Definition no_users : World := mkWorld [] [] [] [].

(** Bob connected, and Alice's user document no longer stored. *)
Definition alice_unknown : World :=
  mkWorld [bob] []
          [(bob_id, mkUserInfo (str "sB") (u_name bob) (u_email bob))]
          [socketB].

(** Three closed cycles of 28, 30 and 29 days. *)
Definition three_cycles : list Period :=
  [mkPeriod (oid_of_N 302) (u_id alice) (day 0) None (Some 28%Z) (day 30) false;
   mkPeriod (oid_of_N 303) (u_id alice) (day 28) None (Some 30%Z) (day 58) false;
   mkPeriod (oid_of_N 304) (u_id alice) (day 58) None (Some 29%Z) (day 88) false].

(** Runs of the connection handler.  Alice connects and her handler
    runs to its end. *)
Definition alice_connects : list Tick :=
  [Arrives (Connect (str "sA") (JStr (str "token-alice")));
   UserAnswers (str "sA"); RecentAnswers (str "sA")].

(** Alice's connection closes while her handler waits for the lookup. *)
Definition alice_leaves_early : list Tick :=
  [Arrives (Connect (str "sA") (JStr (str "token-alice")));
   Arrives (Disconnect (str "sA"));
   UserAnswers (str "sA"); RecentAnswers (str "sA")].

(** Alice and Bob connect, their handlers interleaved; Alice sends a
    message and leaves. *)
Definition two_handlers_interleaved : list Tick :=
  [Arrives (Connect (str "sA") (JStr (str "token-alice")));
   Arrives (Connect (str "sB") (JStr (str "token-bob")));
   UserAnswers (str "sB"); UserAnswers (str "sA");
   RecentAnswers (str "sA"); RecentAnswers (str "sB");
   Arrives (SendMessage (str "sA") hello (oid_of_N 100) 5);
   Arrives (Disconnect (str "sA"))].

(* ================================================================== *)
(** * Properties *)

(** ** Strings and ids *)

Lemma jstring_eqb_eq (a b : jstring) : jstring_eqb a b = true <-> a = b.
Proof.
  revert b; induction a as [|x a IH]; intros [|y b]; simpl; split;
    try congruence; try discriminate.
  - intros H. apply andb_true_iff in H as [Hx Hab].
    apply N.eqb_eq in Hx. apply IH in Hab. congruence.
  - intros H. injection H as -> ->.
    rewrite N.eqb_refl. simpl. now apply IH.
Qed.

Lemma jstring_eqb_refl (a : jstring) : jstring_eqb a a = true.
Proof. now apply jstring_eqb_eq. Qed.

Lemma jstring_eqb_neq (a b : jstring) : a <> b -> jstring_eqb a b = false.
Proof.
  intros H. destruct (jstring_eqb a b) eqn:E; [|reflexivity].
  apply jstring_eqb_eq in E. contradiction.
Qed.

Lemma oid_toString_length (o : ObjectId) : List.length (oid_toString o) = 24.
Proof. destruct o. reflexivity. Qed.

Lemma oid_toString_truthy (o : ObjectId) : truthy (JStr (oid_toString o)) = true.
Proof. unfold truthy. now rewrite oid_toString_length. Qed.

(** ** The anonymization boundary *)

(** C1. For every stored message and every viewer (the author, anyone
    else, the null viewer) the wire message shows the name 'Anonymous'; its
    fields are the six of the object literal, none of them [userId] (or
    [authorId], [authorDisplayName]); and it does not depend on the author:
    two messages with the same id, content and timestamp, whatever their
    [userId] and [username], have the same wire message up to the boolean
    [isOwnMessage], and the same wire message for the null viewer. *)
Theorem anonymize_hides_author :
  forall (m : Message) (v : option jstring),
    get_field "username" (anonymizeMessage m v) = Some (JStr (str "Anonymous"))
    /\ field_names (anonymizeMessage m v)
       = ["_id"; "content"; "username"; "timestamp"; "isAnonymous"; "isOwnMessage"]
    /\ get_field "userId" (anonymizeMessage m v) = None
    /\ get_field "authorId" (anonymizeMessage m v) = None
    /\ get_field "authorDisplayName" (anonymizeMessage m v) = None
    /\ (forall (m' : Message) (v' : option jstring),
          _id m' = _id m -> content m' = content m -> timestamp m' = timestamp m ->
          (get_field "isOwnMessage" (anonymizeMessage m' v')
             = get_field "isOwnMessage" (anonymizeMessage m v) ->
           anonymizeMessage m' v' = anonymizeMessage m v)
          /\ anonymizeMessage m' None = anonymizeMessage m None).
Proof.
  intros m v. do 5 (split; [reflexivity|]).
  intros m' v' Hid Hcontent Htime. split.
  - unfold anonymizeMessage. cbn. rewrite Hid, Hcontent, Htime. congruence.
  - unfold anonymizeMessage. now rewrite Hid, Hcontent, Htime.
Qed.

(** C3. The [isOwnMessage] flag is [true] for the viewer whose identity is
    the author's id string, [false] for every other identity string,
    [false] for the null viewer, and always a boolean. *)
Theorem isOwnMessage_flag :
  forall (m : Message),
    get_field "isOwnMessage" (anonymizeMessage m (Some (oid_toString (userId m))))
      = Some (JBool true)
    /\ (forall v : jstring,
          v <> oid_toString (userId m) ->
          get_field "isOwnMessage" (anonymizeMessage m (Some v)) = Some (JBool false))
    /\ get_field "isOwnMessage" (anonymizeMessage m None) = Some (JBool false)
    /\ (forall v : option jstring,
          exists b : bool,
            get_field "isOwnMessage" (anonymizeMessage m v) = Some (JBool b)).
Proof.
  intros m. repeat split.
  - cbn [anonymizeMessage get_field assoc String.eqb Ascii.eqb Bool.eqb].
    now rewrite oid_toString_truthy, jstring_eqb_refl.
  - intros v Hv. cbn [anonymizeMessage get_field assoc String.eqb Ascii.eqb Bool.eqb].
    rewrite jstring_eqb_neq by congruence. now destruct (truthy (JStr v)).
  - intros v. eexists. reflexivity.
Qed.

(** ** Trimming *)

Lemma trimStart_length (s : jstring) : List.length (trimStart s) <= List.length s.
Proof.
  induction s as [|c s IH]; simpl; [lia|].
  destruct (isWhiteSpace c); simpl; lia.
Qed.

Lemma trim_length (s : jstring) : List.length (trim s) <= List.length s.
Proof.
  unfold trim, trimEnd. rewrite length_rev.
  etransitivity; [apply trimStart_length|].
  rewrite length_rev. apply trimStart_length.
Qed.

Lemma trimStart_blank (s : jstring) : forallb isWhiteSpace s = true -> trimStart s = [].
Proof.
  induction s as [|c s IH]; simpl; [reflexivity|].
  intros H. apply andb_true_iff in H as [Hc Hs]. now rewrite Hc, IH.
Qed.

Lemma trim_blank (s : jstring) : forallb isWhiteSpace s = true -> trim s = [].
Proof. intros H. unfold trim. now rewrite trimStart_blank. Qed.

(** ** The handler monad *)

Lemma forEach_fanout (message : Message) (entries : list (jstring * UserInfo)) (w : World) :
  Map_forEach entries
    (fun userInfo userId =>
       let messageData := anonymizeMessage message (Some userId) in
       emit (ToSocket (socketId userInfo)) "new_message" messageData) w
  = (Returned tt, w, fanout message entries).
Proof.
  set (callback := fun (userInfo : UserInfo) (userId : jstring) => _).
  induction entries as [|[k v] entries IH]; [reflexivity|].
  change (bind (callback v k) (fun _ => Map_forEach entries callback) w
          = (Returned tt, w, fanout message ((k, v) :: entries))).
  unfold bind. unfold callback at 1. unfold emit, act. cbv beta iota zeta.
  rewrite IH. reflexivity.
Qed.

Lemma save_valid (castObjectId : jstring -> option ObjectId)
    (fresh : ObjectId) (now : Z) (s userId name : jstring) (uid : ObjectId) (w : World) :
  List.length (trim s) <> 0 -> List.length s <= 500 ->
  castObjectId userId = Some uid -> name <> [] -> unused fresh w = true ->
  save (new_Message castObjectId fresh now (trim s) userId (Some name)) w
  = (Returned (stored fresh now s uid name), add_message (stored fresh now s uid name) w,
     [Saved (stored fresh now s uid name)]).
Proof.
  intros Hne Hlen Hcast Hname Hfresh.
  unfold save, validate, new_Message. cbn [doc_userId doc_username doc_content doc_id doc_timestamp].
  rewrite Hcast.
  assert (Nat.eqb (List.length (trim s)) 0 = false) as -> by now apply Nat.eqb_neq.
  assert (Nat.leb (List.length (trim s)) 500 = true) as ->.
  { apply Nat.leb_le. pose proof (trim_length s). lia. }
  assert (Nat.eqb (List.length name) 0 = false) as ->.
  { apply Nat.eqb_neq. destruct name; simpl; congruence. }
  cbn [negb andb _id]. unfold unused in Hfresh. apply negb_true_iff in Hfresh.
  rewrite Hfresh. reflexivity.
Qed.

Lemma content_ok_inv (s : jstring) :
  content_ok (JStr s) = true ->
  List.length (trim s) <> 0 /\ List.length s <= 500 /\ List.length s <> 0.
Proof.
  unfold content_ok. intros H. apply andb_true_iff in H as [Hne Hle].
  apply negb_true_iff, Nat.eqb_neq in Hne. apply Nat.leb_le in Hle.
  pose proof (trim_length s). lia.
Qed.

Lemma is_blank_ok (s : jstring) (w : World) :
  content_ok (JStr s) = true -> is_blank (JStr s) w = (Returned false, w, []).
Proof.
  intros H. apply content_ok_inv in H as (Hne & _ & Hs).
  unfold is_blank, truthy.
  assert (Nat.eqb (List.length s) 0 = false) as -> by now apply Nat.eqb_neq.
  cbn [negb call_trim]. unfold bind, ret.
  assert (Nat.eqb (List.length (trim s)) 0 = false) as -> by now apply Nat.eqb_neq.
  reflexivity.
Qed.

Lemma length_gt_ok (s : jstring) : content_ok (JStr s) = true -> length_gt (JStr s) 500 = false.
Proof.
  intros H. apply content_ok_inv in H as (_ & Hle & _).
  unfold length_gt. apply Nat.ltb_ge. lia.
Qed.

Lemma is_blank_reject (content : JsVal) (w : World) :
  content_ok content = false ->
  match verdict content with
  | Empty => is_blank content w = (Returned true, w, [])
  | NoTrim => is_blank content w = (Thrown TypeError, w, [])
  | TooLong => is_blank content w = (Returned false, w, []) /\ length_gt content 500 = true
  end.
Proof.
  intros H. destruct content as [ | |b|n|s|o|ms|l|fields|what]; cbn [verdict truthy];
    try reflexivity.
  - destruct b; reflexivity.
  - destruct (negb (n =? 0)%Z) eqn:E; unfold is_blank, truthy; rewrite E; reflexivity.
  - unfold content_ok in H. unfold is_blank, truthy.
    destruct (Nat.eqb (List.length (trim s)) 0) eqn:Et.
    + destruct (Nat.eqb (List.length s) 0) eqn:Es; cbn [negb call_trim]; [reflexivity|].
      unfold bind, ret. now rewrite Et.
    + cbn [negb andb] in H. apply Nat.leb_gt in H.
      assert (Nat.eqb (List.length s) 0 = false) as -> by (apply Nat.eqb_neq; lia).
      cbn [negb call_trim]. unfold bind, ret. rewrite Et. split; [reflexivity|].
      unfold length_gt. apply Nat.ltb_lt. lia.
Qed.

(** ** The realtime send *)

Lemma fanout_no_broadcast (message : Message) (entries : list (jstring * UserInfo)) :
  filter is_broadcast (fanout message entries) = [].
Proof. induction entries as [|e entries IH]; [reflexivity|exact IH]. Qed.

Lemma get_prop_content (data : JsVal) (w : World) :
  get_prop "content" data w
  = match content_of data with
    | Some content => (Returned content, w, [])
    | None => (Thrown TypeError, w, [])
    end.
Proof.
  destruct data; try reflexivity.
  cbn [get_prop content_of]. now destruct (assoc "content" fields).
Qed.

Section ServerFacts.

Variable jwt_verify : jstring -> option Decoded.
Variable castObjectId : jstring -> option ObjectId.

Lemma send_message_accepts (socket : Socket) (data : JsVal) (s : jstring)
    (fresh : ObjectId) (now : Z) (w : World) (uid : ObjectId) (name : jstring) :
  content_of data = Some (JStr s) ->
  content_ok (JStr s) = true ->
  sock_userName socket = Some name -> name <> [] ->
  castObjectId (sock_userId socket) = Some uid ->
  unused fresh w = true ->
  send_message castObjectId socket data fresh now w
  = (Returned tt, add_message (stored fresh now s uid name) w,
     Saved (stored fresh now s uid name)
     :: fanout (stored fresh now s uid name) (connectedUsers w)
     ++ [Emit ToAll "new_message" (anonymizeMessage (stored fresh now s uid name) None)]).
Proof.
  intros Hc Hok Hname Hne Hcast Hfresh.
  destruct (content_ok_inv _ Hok) as (Ht & Hlen & _).
  unfold send_message, try_catch. unfold bind at 1. rewrite get_prop_content, Hc.
  unfold bind at 1. rewrite is_blank_ok by assumption.
  rewrite length_gt_ok by assumption. unfold bind at 1. cbn [call_trim]. unfold ret at 1.
  unfold bind at 1. rewrite Hname.
  rewrite save_valid with (uid := uid) by assumption.
  unfold bind at 1. unfold gets at 1. unfold bind at 1.
  rewrite forEach_fanout. reflexivity.
Qed.

Lemma send_message_rejects (socket : Socket) (data : JsVal)
    (fresh : ObjectId) (now : Z) (w : World) :
  data_ok data = false ->
  send_message castObjectId socket data fresh now w
  = (Returned tt, w,
     [Emit (ToSocket (sock_id socket)) "error" (error_payload (rejection_text data))]).
Proof.
  intros Hbad. unfold data_ok in Hbad. unfold rejection_text.
  unfold send_message, try_catch. unfold bind at 1. rewrite get_prop_content.
  destruct (content_of data) as [content|]; [|reflexivity].
  pose proof (is_blank_reject content w Hbad) as Hv.
  unfold bind at 1. destruct (verdict content).
  - rewrite Hv. reflexivity.
  - rewrite Hv. reflexivity.
  - destruct Hv as [-> ->]. reflexivity.
Qed.

(** ** The REST mirror *)

Lemma authenticateToken_ok (req : Request) (user : Decoded) (next : Decoded -> M unit)
    (w : World) :
  authenticated jwt_verify req user ->
  authenticateToken jwt_verify req next w = next user w.
Proof.
  intros (authHeader & token & Hh & Hsplit & Hne & Hv).
  unfold authenticateToken. rewrite Hh.
  assert (truthy (JStr authHeader) = true) as ->.
  { destruct authHeader; [discriminate Hsplit|reflexivity]. }
  rewrite Hsplit.
  assert (truthy (JStr token) = true) as ->.
  { destruct token; [congruence|reflexivity]. }
  cbn [negb]. now rewrite Hv.
Qed.

Lemma resolve_messageData (content : JsVal) (w : World) :
  resolve (send_route_scope content) "messageData" w = (Thrown ReferenceError, w, []).
Proof. reflexivity. Qed.

Lemma post_chat_send_accepts (req : Request) (req_user : Decoded) (s : jstring)
    (fresh : ObjectId) (now : Z) (w : World) (uid : ObjectId) (user : User) :
  authenticated jwt_verify req req_user ->
  content_of (body req) = Some (JStr s) ->
  content_ok (JStr s) = true ->
  castObjectId (d_userId req_user) = Some uid ->
  find (fun u => oid_eqb (u_id u) uid) (users w) = Some user ->
  u_name user <> [] ->
  unused fresh w = true ->
  post_chat_send jwt_verify castObjectId req fresh now w
  = (Returned tt, add_message (stored fresh now s uid (u_name user)) w,
     Saved (stored fresh now s uid (u_name user))
     :: fanout (stored fresh now s uid (u_name user)) (connectedUsers w)
     ++ [Respond 500 (error_body "Failed to send message")]).
Proof.
  intros Hauth Hc Hok Hcast Hfind Hne Hfresh.
  destruct (content_ok_inv _ Hok) as (Ht & Hlen & _).
  unfold post_chat_send. rewrite authenticateToken_ok with (user := req_user) by assumption.
  unfold try_catch. unfold bind at 1. rewrite get_prop_content, Hc.
  unfold bind at 1. rewrite is_blank_ok by assumption.
  rewrite length_gt_ok by assumption.
  unfold bind at 1. unfold User_findById. rewrite Hcast. unfold gets at 1. rewrite Hfind.
  unfold bind at 1. cbn [call_trim]. unfold ret at 1.
  unfold bind at 1. unfold ret at 1.
  unfold bind at 1. rewrite save_valid with (uid := uid) by assumption.
  unfold bind at 1. unfold gets at 1. unfold bind at 1.
  rewrite forEach_fanout. unfold bind at 1. rewrite resolve_messageData.
  cbn. rewrite <- app_assoc. reflexivity.
Qed.

Lemma post_chat_send_rejects (req : Request) (req_user : Decoded)
    (fresh : ObjectId) (now : Z) (w : World) :
  authenticated jwt_verify req req_user ->
  data_ok (body req) = false ->
  post_chat_send jwt_verify castObjectId req fresh now w
  = (Returned tt, w,
     [Respond (rejection_status (body req)) (error_body (rejection_text (body req)))]).
Proof.
  intros Hauth Hbad. unfold data_ok in Hbad. unfold rejection_text, rejection_status.
  unfold post_chat_send. rewrite authenticateToken_ok with (user := req_user) by assumption.
  unfold try_catch. unfold bind at 1. rewrite get_prop_content.
  destruct (content_of (body req)) as [content|]; [|reflexivity].
  pose proof (is_blank_reject content w Hbad) as Hv.
  unfold bind at 1. destruct (verdict content).
  - rewrite Hv. reflexivity.
  - rewrite Hv. reflexivity.
  - destruct Hv as [-> ->]. reflexivity.
Qed.

(** ** Claims on the send paths *)

(** C2. A [send_message] event whose content passes validation and whose
    document is saved is delivered to every entry of [connectedUsers]
    individually, each copy anonymized for that entry's own identity, and
    then broadcast exactly once to all sockets, anonymized for the null
    viewer. *)
Theorem send_message_delivers (socket : Socket) (data : JsVal) (s : jstring)
    (fresh : ObjectId) (now : Z) (w : World) (uid : ObjectId) (name : jstring) :
  content_of data = Some (JStr s) ->
  content_ok (JStr s) = true ->
  sock_userName socket = Some name -> name <> [] ->
  castObjectId (sock_userId socket) = Some uid ->
  unused fresh w = true ->
  let message := stored fresh now s uid name in
  let r := send_message castObjectId socket data fresh now w in
  messages (world_of r) = messages w ++ [message]
  /\ actions_of r
     = Saved message
       :: fanout message (connectedUsers w)
       ++ [Emit ToAll "new_message" (anonymizeMessage message None)]
  /\ (forall userId userInfo,
        In (userId, userInfo) (connectedUsers w) ->
        In (Emit (ToSocket (socketId userInfo)) "new_message"
                 (anonymizeMessage message (Some userId)))
           (actions_of r))
  /\ filter is_broadcast (actions_of r)
     = [Emit ToAll "new_message" (anonymizeMessage message None)].
Proof.
  intros Hc Hok Hname Hne Hcast Hfresh message r.
  assert (Hr : r = (Returned tt, add_message message w,
                    Saved message :: fanout message (connectedUsers w)
                    ++ [Emit ToAll "new_message" (anonymizeMessage message None)])).
  { apply send_message_accepts; assumption. }
  rewrite Hr. cbn [world_of actions_of fst snd add_message messages].
  split; [reflexivity|]. split; [reflexivity|]. split.
  - intros userId userInfo Hin. right. apply in_or_app. left.
    unfold fanout. apply in_map_iff. exists (userId, userInfo). split; [reflexivity|assumption].
  - cbn [filter is_broadcast]. rewrite filter_app, fanout_no_broadcast. reflexivity.
Qed.

(** C4, as the code has it.  A send passes validation exactly when its
    content is a string that is not empty once trimmed and that has at most
    500 code units as received, before trimming.  A send that does not pass
    changes nothing in the store or the presence map and produces one
    action only: an error to the sender (an [error] event to the sending
    socket; on the REST route a 400 or 500 response), no save and no
    broadcast.  A send that passes is saved when its document is valid and
    its id unused.  A content of 500 code units that is not blank passes;
    one of 501 does not; a blank one does not. *)
Theorem send_validation :
  (forall socket data fresh now w,
      data_ok data = false ->
      send_message castObjectId socket data fresh now w
      = (Returned tt, w,
         [Emit (ToSocket (sock_id socket)) "error" (error_payload (rejection_text data))]))
  /\ (forall req req_user fresh now w,
        authenticated jwt_verify req req_user ->
        data_ok (body req) = false ->
        post_chat_send jwt_verify castObjectId req fresh now w
        = (Returned tt, w,
           [Respond (rejection_status (body req))
                    (error_body (rejection_text (body req)))]))
  /\ (forall socket data s fresh now w uid name,
        content_of data = Some (JStr s) -> data_ok data = true ->
        sock_userName socket = Some name -> name <> [] ->
        castObjectId (sock_userId socket) = Some uid -> unused fresh w = true ->
        messages (world_of (send_message castObjectId socket data fresh now w))
        = messages w ++ [stored fresh now s uid name])
  /\ (forall req req_user s fresh now w uid user,
        authenticated jwt_verify req req_user ->
        content_of (body req) = Some (JStr s) -> data_ok (body req) = true ->
        castObjectId (d_userId req_user) = Some uid ->
        find (fun u => oid_eqb (u_id u) uid) (users w) = Some user ->
        u_name user <> [] -> unused fresh w = true ->
        messages (world_of (post_chat_send jwt_verify castObjectId req fresh now w))
        = messages w ++ [stored fresh now s uid (u_name user)])
  /\ (forall s, content_ok (JStr s) = true
                <-> trim s <> [] /\ List.length s <= 500)
  /\ (forall s, List.length s = 500 -> trim s <> [] -> content_ok (JStr s) = true)
  /\ (forall s, List.length s = 501 -> content_ok (JStr s) = false)
  /\ (forall s, forallb isWhiteSpace s = true -> content_ok (JStr s) = false).
Proof.
  assert (Hiff : forall s, content_ok (JStr s) = true
                           <-> trim s <> [] /\ List.length s <= 500).
  { intros s. unfold content_ok. rewrite andb_true_iff, negb_true_iff, Nat.eqb_neq, Nat.leb_le.
    split; intros [Ht Hl]; (split; [|exact Hl]).
    - intros E. now rewrite E in Ht.
    - destruct (trim s); [congruence|discriminate]. }
  split; [|split; [|split; [|split; [|split; [|split; [|split]]]]]].
  - intros. now apply send_message_rejects.
  - intros. now apply post_chat_send_rejects with (req_user := req_user).
  - intros socket data s fresh now w uid name Hc Hok Hname Hne Hcast Hfresh.
    unfold data_ok in Hok. rewrite Hc in Hok.
    rewrite send_message_accepts with (s := s) (uid := uid) (name := name) by assumption.
    reflexivity.
  - intros req req_user s fresh now w uid user Hauth Hc Hok Hcast Hfind Hne Hfresh.
    unfold data_ok in Hok. rewrite Hc in Hok.
    rewrite post_chat_send_accepts with (req_user := req_user) (s := s) (uid := uid) (user := user)
      by assumption.
    reflexivity.
  - exact Hiff.
  - intros s Hl Ht. apply Hiff. split; [assumption|lia].
  - intros s Hl. destruct (content_ok (JStr s)) eqn:E; [|reflexivity].
    apply Hiff in E. lia.
  - intros s Hb. destruct (content_ok (JStr s)) eqn:E; [|reflexivity].
    apply Hiff in E. rewrite trim_blank in E by assumption. now destruct E.
Qed.

(** C10. An authenticated POST whose content passes validation (the
    sender's user document found, the new document valid and its id
    unused) saves the message and delivers it to every entry of
    [connectedUsers] before it produces its response, and that response,
    the last action of the run, is the 500 error of the [catch]: the error
    response leaves the message stored and delivered. *)
Theorem post_chat_send_not_atomic (req : Request) (req_user : Decoded) (s : jstring)
    (fresh : ObjectId) (now : Z) (w : World) (uid : ObjectId) (user : User) :
  authenticated jwt_verify req req_user ->
  content_of (body req) = Some (JStr s) ->
  content_ok (JStr s) = true ->
  castObjectId (d_userId req_user) = Some uid ->
  find (fun u => oid_eqb (u_id u) uid) (users w) = Some user ->
  u_name user <> [] ->
  unused fresh w = true ->
  let message := stored fresh now s uid (u_name user) in
  let r := post_chat_send jwt_verify castObjectId req fresh now w in
  messages (world_of r) = messages w ++ [message]
  /\ actions_of r
     = (Saved message :: fanout message (connectedUsers w))
       ++ [Respond 500 (error_body "Failed to send message")]
  /\ (forall userId userInfo,
        In (userId, userInfo) (connectedUsers w) ->
        In (Emit (ToSocket (socketId userInfo)) "new_message"
                 (anonymizeMessage message (Some userId)))
           (Saved message :: fanout message (connectedUsers w)))
  /\ world_of r <> w.
Proof.
  intros Hauth Hc Hok Hcast Hfind Hne Hfresh message r.
  assert (Hr : r = (Returned tt, add_message message w,
                    Saved message :: fanout message (connectedUsers w)
                    ++ [Respond 500 (error_body "Failed to send message")])).
  { apply post_chat_send_accepts with (req_user := req_user); assumption. }
  rewrite Hr. cbn [world_of actions_of fst snd add_message messages].
  split; [reflexivity|]. split; [reflexivity|]. split.
  - intros userId userInfo Hin. right.
    unfold fanout. apply in_map_iff. exists (userId, userInfo). split; [reflexivity|assumption].
  - intros E. apply (f_equal (fun x => List.length (messages x))) in E.
    cbv beta in E. unfold add_message in E. cbn [messages] in E.
    rewrite length_app in E. cbn in E. lia.
Qed.

(** The older copy of the realtime handler delivers per entry and stops
    there: no broadcast follows. *)
Lemma send_message_legacy_accepts (socket : Socket) (data : JsVal) (s : jstring)
    (fresh : ObjectId) (now : Z) (w : World) (uid : ObjectId) (name : jstring) :
  content_of data = Some (JStr s) ->
  content_ok (JStr s) = true ->
  sock_userName socket = Some name -> name <> [] ->
  castObjectId (sock_userId socket) = Some uid ->
  unused fresh w = true ->
  send_message_legacy castObjectId socket data fresh now w
  = (Returned tt, add_message (stored fresh now s uid name) w,
     Saved (stored fresh now s uid name)
     :: fanout (stored fresh now s uid name) (connectedUsers w)).
Proof.
  intros Hc Hok Hname Hne Hcast Hfresh.
  destruct (content_ok_inv _ Hok) as (Ht & Hlen & _).
  unfold send_message_legacy, try_catch. unfold bind at 1. rewrite get_prop_content, Hc.
  unfold bind at 1. rewrite is_blank_ok by assumption.
  rewrite length_gt_ok by assumption. unfold bind at 1. cbn [call_trim]. unfold ret at 1.
  unfold bind at 1. rewrite Hname.
  rewrite save_valid with (uid := uid) by assumption.
  unfold bind at 1. unfold gets at 1.
  rewrite forEach_fanout. reflexivity.
Qed.

(** ** The online count *)

(** C9. The authenticated online-count route answers
    [{count: 0, users: []}] in every state: for any two worlds, whatever
    their connections and presence entries, the response is the same, and
    the route changes nothing. *)
Theorem users_online_constant (req : Request) (user : Decoded) (w1 w2 : World) :
  authenticated jwt_verify req user ->
  get_users_online jwt_verify req w1
  = (Returned tt, w1, [Respond 200 (JObj [("count", JNum 0); ("users", JArr [])])])
  /\ get_users_online jwt_verify req w2
     = (Returned tt, w2, [Respond 200 (JObj [("count", JNum 0); ("users", JArr [])])])
  /\ actions_of (get_users_online jwt_verify req w1)
     = actions_of (get_users_online jwt_verify req w2).
Proof.
  intros Hauth. unfold get_users_online.
  rewrite !authenticateToken_ok with (user := user) by assumption.
  repeat split.
Qed.

(** Without a valid token the answer is an error that does not depend on
    the state either. *)
Lemma users_online_state_independent (req : Request) (w1 w2 : World) :
  actions_of (get_users_online jwt_verify req w1)
  = actions_of (get_users_online jwt_verify req w2).
Proof.
  unfold get_users_online, authenticateToken.
  match goal with |- context [negb (truthy ?t)] => generalize t end.
  intros token. destruct (negb (truthy token)); [reflexivity|].
  destruct token; try reflexivity. destruct (jwt_verify s); reflexivity.
Qed.

(** ** Presence *)

Lemma Map_get_set (V : Type) (k : jstring) (v : V) (m : list (jstring * V)) :
  Map_get k (Map_set k v m) = Some v.
Proof.
  induction m as [|[k' v'] m IH]; simpl.
  - now rewrite jstring_eqb_refl.
  - destruct (jstring_eqb k' k) eqn:E; simpl; now rewrite E.
Qed.

Lemma Map_get_delete (V : Type) (k : jstring) (m : list (jstring * V)) :
  Map_get k (Map_delete k m) = None.
Proof.
  induction m as [|[k' v'] m IH]; simpl; [reflexivity|].
  destruct (jstring_eqb k' k) eqn:E; simpl; [assumption|]. now rewrite E.
Qed.

Lemma find_socket_unregister (id : jstring) (l : list Socket) :
  find_socket id (unregister id l) = None.
Proof.
  induction l as [|s l IH]; simpl; [reflexivity|].
  destruct (jstring_eqb (sock_id s) id) eqn:E; simpl; [assumption|]. now rewrite E.
Qed.

Lemma dispatch_unregistered (ev : Event) (w : World) :
  is_connect ev = false ->
  find_socket (event_socket ev) (sockets w) = None ->
  dispatch jwt_verify castObjectId ev w = (Returned tt, w, []).
Proof.
  intros Hev Hnone.
  destruct ev; try discriminate Hev; cbn [event_socket] in Hnone;
    cbn [dispatch]; unfold with_socket, bind, gets; now rewrite Hnone.
Qed.

Lemma run_unregistered (id : jstring) (evs : list Event) (w : World) :
  find_socket id (sockets w) = None ->
  Forall (fun ev => event_socket ev = id /\ is_connect ev = false) evs ->
  run jwt_verify castObjectId evs w = (Returned tt, w, []).
Proof.
  intros Hnone Hall. induction Hall as [|ev evs [Hid Hev] _ IH]; [reflexivity|].
  cbn [run]. unfold bind. rewrite dispatch_unregistered by (rewrite ?Hid; assumption).
  now rewrite IH.
Qed.

Lemma authenticateSocket_refuses (id : jstring) (token : JsVal) :
  fails_verification jwt_verify token -> authenticateSocket jwt_verify id token = None.
Proof.
  intros H. unfold authenticateSocket.
  destruct (negb (truthy token)); [reflexivity|].
  destruct token; try reflexivity. now rewrite (H s eq_refl).
Qed.

Lemma on_connection_resolved (socket : Socket) (uid : ObjectId) (user : User) (w : World) :
  castObjectId (sock_userId socket) = Some uid ->
  find (fun u => oid_eqb (u_id u) uid) (users w) = Some user ->
  on_connection castObjectId socket w
  = (Returned (mkSocket (sock_id socket) (sock_userId socket) (sock_userEmail socket)
                        (Some (u_name user))),
     set_presence (Map_set (sock_userId socket)
                           (mkUserInfo (sock_id socket) (u_name user) (u_email user))
                           (connectedUsers w)) w,
     [Emit (ToSocket (sock_id socket)) "recent_messages"
           (JArr (rev (map (fun msg => anonymizeMessage msg (Some (sock_userId socket)))
                           (snapshot w))))]).
Proof.
  intros Hcast Hfind. unfold on_connection, try_catch.
  unfold bind at 1. unfold User_findById. rewrite Hcast. unfold gets at 1. rewrite Hfind.
  reflexivity.
Qed.

(** ** The recent-messages query *)

Lemma insert_desc_In (m x : Message) (l : list Message) :
  In x (insert_desc m l) <-> x = m \/ In x l.
Proof.
  induction l as [|y l IH]; simpl.
  - intuition congruence.
  - destruct (timestamp y <=? timestamp m)%Z; simpl; [intuition congruence|].
    rewrite IH. intuition congruence.
Qed.

Lemma insert_desc_sorted (m : Message) (l : list Message) :
  StronglySorted newer_first l -> StronglySorted newer_first (insert_desc m l).
Proof.
  induction 1 as [|y l Hl IH Hy]; simpl.
  - constructor; constructor.
  - destruct (timestamp y <=? timestamp m)%Z eqn:E.
    + apply Z.leb_le in E. constructor; [constructor; assumption|].
      constructor; [exact E|].
      eapply Forall_impl; [|exact Hy]. unfold newer_first. intros; lia.
    + apply Z.leb_gt in E. constructor; [assumption|].
      apply Forall_forall. intros x Hx. apply insert_desc_In in Hx as [->|Hx].
      * unfold newer_first; lia.
      * rewrite Forall_forall in Hy. now apply Hy.
Qed.

Lemma sort_timestamp_desc_sorted (l : list Message) :
  StronglySorted newer_first (sort_timestamp_desc l).
Proof.
  induction l as [|m l IH]; simpl; [constructor|]. now apply insert_desc_sorted.
Qed.

Lemma sort_timestamp_desc_In (x : Message) (l : list Message) :
  In x (sort_timestamp_desc l) <-> In x l.
Proof.
  induction l as [|m l IH]; simpl; [reflexivity|].
  rewrite insert_desc_In, IH. intuition congruence.
Qed.

Lemma sort_timestamp_desc_perm (l : list Message) :
  Permutation (sort_timestamp_desc l) l.
Proof.
  assert (Hins : forall m s, Permutation (insert_desc m s) (m :: s)).
  { intros m s. induction s as [|y s IH]; simpl; [reflexivity|].
    destruct (timestamp y <=? timestamp m)%Z; [reflexivity|].
    rewrite IH. apply perm_swap. }
  induction l as [|m l IH]; simpl; [reflexivity|].
  rewrite Hins. now constructor.
Qed.

Lemma StronglySorted_skipn (n : nat) (l : list Message) :
  StronglySorted newer_first l -> StronglySorted newer_first (skipn n l).
Proof.
  revert l; induction n as [|n IH]; intros l H; [exact H|].
  destruct l as [|x l]; [constructor|]. simpl. apply IH. now inversion H.
Qed.

Lemma StronglySorted_firstn (n : nat) (l : list Message) :
  StronglySorted newer_first l -> StronglySorted newer_first (firstn n l).
Proof.
  revert l; induction n as [|n IH]; intros l H; [constructor|].
  destruct l as [|x l]; [constructor|]. simpl. inversion H as [|? ? Hl Hx]; subst.
  constructor; [now apply IH|].
  apply Forall_forall. intros y Hy. rewrite Forall_forall in Hx.
  apply Hx. revert Hy. clear. revert l. induction n; intros [|z l]; simpl; intuition.
Qed.

Lemma In_skipn (x : Message) (n : nat) (l : list Message) : In x (skipn n l) -> In x l.
Proof.
  revert l; induction n as [|n IH]; intros [|y l]; simpl; auto.
Qed.

Lemma In_firstn (x : Message) (n : nat) (l : list Message) : In x (firstn n l) -> In x l.
Proof.
  revert l; induction n as [|n IH]; intros [|y l]; simpl; intuition.
Qed.

Lemma sort_three_newest (old : list Message) (A B C : Message) :
  Forall (fun m => (timestamp m < timestamp A)%Z) old ->
  (timestamp A < timestamp B)%Z -> (timestamp B < timestamp C)%Z ->
  sort_timestamp_desc (old ++ [A; B; C]) = C :: B :: A :: sort_timestamp_desc old.
Proof.
  intros Hold HAB HBC. induction Hold as [|m old Hm _ IH]; simpl.
  - assert ((timestamp C <=? timestamp B)%Z = false) as -> by (apply Z.leb_gt; lia).
    simpl.
    assert ((timestamp C <=? timestamp A)%Z = false) as -> by (apply Z.leb_gt; lia).
    assert ((timestamp B <=? timestamp A)%Z = false) as -> by (apply Z.leb_gt; lia).
    reflexivity.
  - fold (sort_timestamp_desc (old ++ [A; B; C])). rewrite IH. simpl.
    assert ((timestamp C <=? timestamp m)%Z = false) as -> by (apply Z.leb_gt; lia).
    assert ((timestamp B <=? timestamp m)%Z = false) as -> by (apply Z.leb_gt; lia).
    assert ((timestamp A <=? timestamp m)%Z = false) as -> by (apply Z.leb_gt; lia).
    reflexivity.
Qed.

Lemma find_recent_three (old : list Message) (A B C : Message) (w : World) :
  messages w = old ++ [A; B; C] ->
  isDeleted A = false -> isDeleted B = false -> isDeleted C = false ->
  Forall (fun m => isDeleted m = false -> (timestamp m < timestamp A)%Z) old ->
  (timestamp A < timestamp B)%Z -> (timestamp B < timestamp C)%Z ->
  Message_find_recent 3 0 w = (Returned [C; B; A], w, []).
Proof.
  intros Hw HA HB HC Hold HAB HBC. unfold Message_find_recent.
  cbn [Z.ltb Z.compare Z.eqb Z.to_nat skipn]. rewrite Hw, filter_app.
  cbn [filter]. rewrite HA, HB, HC. cbn [negb].
  rewrite sort_three_newest; [reflexivity| |assumption|assumption].
  apply Forall_forall. intros m Hm. apply filter_In in Hm as [Hin Hnd].
  rewrite Forall_forall in Hold. apply Hold; [assumption|].
  now apply negb_true_iff.
Qed.

(** *** The orders the database may answer in *)

Lemma sort_is_database_order (stored : list Message) :
  database_order stored
    (sort_timestamp_desc (filter (fun m => negb (isDeleted m)) stored)).
Proof.
  split; [symmetry; apply sort_timestamp_desc_perm|apply sort_timestamp_desc_sorted].
Qed.

(** Two newest-first listings of the same messages agree when no two of
    the messages share a timestamp. *)
Lemma sorted_perm_unique (l1 l2 : list Message) :
  Permutation l1 l2 ->
  StronglySorted newer_first l1 -> StronglySorted newer_first l2 ->
  NoDup (map timestamp l1) ->
  l1 = l2.
Proof.
  revert l2. induction l1 as [|a l1 IH]; intros l2 Hperm Hs1 Hs2 Hnd.
  - apply Permutation_nil in Hperm. now subst.
  - destruct l2 as [|b l2].
    { symmetry in Hperm. now apply Permutation_nil in Hperm. }
    inversion Hs1 as [|? ? Hs1' Ha]; subst.
    inversion Hs2 as [|? ? Hs2' Hb]; subst.
    inversion Hnd as [|? ? Hnotin Hnd']; subst.
    assert (Hab : a = b).
    { assert (Hin_a : In a (b :: l2)) by (eapply Permutation_in; [exact Hperm|now left]).
      assert (Hin_b : In b (a :: l1))
        by (eapply Permutation_in; [symmetry; exact Hperm|now left]).
      destruct Hin_a as [E|Hin_a]; [now symmetry|].
      destruct Hin_b as [E|Hin_b]; [assumption|].
      exfalso. apply Hnotin.
      rewrite Forall_forall in Ha, Hb.
      pose proof (Ha b Hin_b) as H1. pose proof (Hb a Hin_a) as H2.
      unfold newer_first in H1, H2.
      replace (timestamp a) with (timestamp b) by lia.
      now apply in_map. }
    subst b. f_equal. apply IH; try assumption.
    eapply Permutation_cons_inv. exact Hperm.
Qed.

Lemma database_order_unique (stored found : list Message) :
  distinct_timestamps stored ->
  database_order stored found ->
  found = sort_timestamp_desc (filter (fun m => negb (isDeleted m)) stored).
Proof.
  intros Hd [Hperm Hsorted].
  destruct (sort_is_database_order stored) as [Hperm' Hsorted'].
  apply sorted_perm_unique; try assumption.
  - rewrite <- Hperm. exact Hperm'.
  - unfold distinct_timestamps in Hd.
    eapply Permutation_NoDup; [|exact Hd].
    apply Permutation_map. exact Hperm.
Qed.

(** A message newer than all the others heads every newest-first listing. *)
Lemma newest_is_first (x : Message) (rest found : list Message) :
  Permutation (x :: rest) found ->
  StronglySorted newer_first found ->
  (forall y, In y rest -> (timestamp y < timestamp x)%Z) ->
  exists found', found = x :: found' /\ Permutation rest found'
                 /\ StronglySorted newer_first found'.
Proof.
  intros Hperm Hsorted Hnew.
  destruct found as [|h t].
  { symmetry in Hperm. now apply Permutation_nil in Hperm. }
  inversion Hsorted as [|? ? Ht Hh]; subst.
  assert (Hx : In x (h :: t)) by (eapply Permutation_in; [exact Hperm|now left]).
  assert (Hhx : h = x).
  { destruct Hx as [E|Hx]; [assumption|].
    assert (Hin : In h (x :: rest))
      by (eapply Permutation_in; [symmetry; exact Hperm|now left]).
    destruct Hin as [E|Hin]; [now symmetry|].
    rewrite Forall_forall in Hh. pose proof (Hh x Hx) as H1. unfold newer_first in H1.
    pose proof (Hnew h Hin). lia. }
  subst h. exists t. split; [reflexivity|]. split; [|assumption].
  eapply Permutation_cons_inv. exact Hperm.
Qed.

Lemma three_newest_first (old : list Message) (A B C : Message) (found : list Message) :
  Permutation (old ++ [A; B; C]) found ->
  StronglySorted newer_first found ->
  Forall (fun m => (timestamp m < timestamp A)%Z) old ->
  (timestamp A < timestamp B)%Z -> (timestamp B < timestamp C)%Z ->
  firstn 3 found = [C; B; A].
Proof.
  intros Hperm Hsorted Hold HAB HBC. rewrite Forall_forall in Hold.
  assert (Hp : Permutation (C :: B :: A :: old) found).
  { rewrite <- Hperm. rewrite Permutation_app_comm. simpl.
    transitivity (A :: C :: B :: old).
    - transitivity (C :: A :: B :: old); [|apply perm_swap].
      apply perm_skip. apply perm_swap.
    - apply perm_skip. transitivity (B :: C :: old); [apply perm_swap|reflexivity]. }
  destruct (@newest_is_first C (B :: A :: old) found Hp Hsorted) as (f1 & -> & Hp1 & Hs1).
  { intros y [<-|[<-|Hy]]; [lia|lia|]. pose proof (Hold y Hy). lia. }
  destruct (@newest_is_first B (A :: old) f1 Hp1 Hs1) as (f2 & -> & Hp2 & Hs2).
  { intros y [<-|Hy]; [lia|]. pose proof (Hold y Hy). lia. }
  destruct (@newest_is_first A old f2 Hp2 Hs2) as (f3 & -> & _ & _).
  { intros y Hy. exact (Hold y Hy). }
  reflexivity.
Qed.

(** C6, as the code has it.  The recent-messages query returns messages
    that are stored and not deleted, newest first by timestamp; the
    timestamp is the only sort key.  When A, B and C are inserted in that
    order with strictly increasing timestamps, newer than the stored
    messages, the query with limit 3 and offset 0 returns [C; B; A], and
    the route, which reverses, answers with A, B, C in that order; this is
    so in whatever order the database lists messages of equal timestamp. *)
Theorem recent_order :
  (forall limit skip w,
      (0 <= skip)%Z ->
      exists msgs,
        Message_find_recent limit skip w = (Returned msgs, w, [])
        /\ StronglySorted newer_first msgs
        /\ (forall m, In m msgs -> In m (messages w) /\ isDeleted m = false))
  /\ (forall old A B C req user w,
        authenticated jwt_verify req user ->
        query_limit req = Some 3%Z -> query_page req = Some 1%Z ->
        messages w = old ++ [A; B; C] ->
        isDeleted A = false -> isDeleted B = false -> isDeleted C = false ->
        Forall (fun m => isDeleted m = false -> (timestamp m < timestamp A)%Z) old ->
        (timestamp A < timestamp B)%Z -> (timestamp B < timestamp C)%Z ->
        Message_find_recent 3 0 w = (Returned [C; B; A], w, [])
        /\ rev [C; B; A] = [A; B; C]
        /\ get_chat_messages jwt_verify req w
           = (Returned tt, w,
              [Respond 200
                 (JObj [("messages",
                         JArr (map (fun m => anonymizeMessage m (Some (d_userId user)))
                                   [A; B; C]));
                        ("hasMore", JBool true)])])
        /\ (forall answer,
              recent_answer 3 0 (messages w) answer -> rev answer = [A; B; C])).
Proof.
  split.
  - intros limit skip w Hskip. unfold Message_find_recent.
    assert ((skip <? 0)%Z = false) as -> by (apply Z.ltb_ge; lia).
    cbv zeta. eexists. split; [reflexivity|].
    set (found := sort_timestamp_desc (filter _ (messages w))).
    assert (Hs : StronglySorted newer_first (skipn (Z.to_nat skip) found)).
    { apply StronglySorted_skipn, sort_timestamp_desc_sorted. }
    assert (Hin : forall m, In m (skipn (Z.to_nat skip) found) ->
                            In m (messages w) /\ isDeleted m = false).
    { intros m Hm. apply In_skipn in Hm. unfold found in Hm.
      apply -> sort_timestamp_desc_In in Hm.
      apply filter_In in Hm as [Hm Hnd]. split; [assumption|].
      now apply negb_true_iff. }
    destruct (limit =? 0)%Z; split; auto using StronglySorted_firstn.
    intros m Hm. apply Hin. eapply In_firstn; eassumption.
  - intros old A B C req user w Hauth Hlimit Hpage Hw HA HB HC Hold HAB HBC.
    assert (Hq : Message_find_recent 3 0 w = (Returned [C; B; A], w, []))
      by (eapply find_recent_three; eassumption).
    split; [exact Hq|]. split; [reflexivity|].
    unfold get_chat_messages.
    rewrite authenticateToken_ok with (user := user) by assumption.
    rewrite Hlimit, Hpage. cbn [or_default Z.eqb Z.sub Z.mul Z.add Z.opp Z.pos_sub].
    split; [unfold try_catch, bind; rewrite Hq; reflexivity|].
    intros answer (found & [Hperm Hsorted] & ->). cbn [skipn].
    rewrite Hw, filter_app in Hperm. cbn [filter] in Hperm.
    rewrite HA, HB, HC in Hperm. cbn [negb] in Hperm.
    rewrite three_newest_first
      with (old := filter (fun m => negb (isDeleted m)) old) (A := A) (B := B) (C := C);
      try assumption; [reflexivity|].
    apply Forall_forall. intros m Hm. apply filter_In in Hm as [Hin Hnd].
    rewrite Forall_forall in Hold. apply Hold; [assumption|].
    now apply negb_true_iff.
Qed.

(** ** Further properties of the handlers *)

(** The older copy of the realtime handler: after validation and the save,
    one targeted delivery per entry and no broadcast. *)
Theorem legacy_send_has_no_broadcast (socket : Socket) (data : JsVal) (s : jstring)
    (fresh : ObjectId) (now : Z) (w : World) (uid : ObjectId) (name : jstring) :
  content_of data = Some (JStr s) ->
  content_ok (JStr s) = true ->
  sock_userName socket = Some name -> name <> [] ->
  castObjectId (sock_userId socket) = Some uid ->
  unused fresh w = true ->
  let r := send_message_legacy castObjectId socket data fresh now w in
  actions_of r
  = Saved (stored fresh now s uid name) :: fanout (stored fresh now s uid name) (connectedUsers w)
  /\ filter is_broadcast (actions_of r) = [].
Proof.
  intros Hc Hok Hname Hne Hcast Hfresh r. subst r.
  rewrite send_message_legacy_accepts with (s := s) (uid := uid) (name := name) by assumption.
  cbn [actions_of snd]. split; [reflexivity|].
  cbn [filter is_broadcast]. apply fanout_no_broadcast.
Qed.

(** The typing relay: the other sockets receive the name 'Someone' and the
    [isTyping] property of the payload, nothing of the sender; nothing is
    stored.  A payload that is [undefined] or [null] makes the handler
    throw. *)
Theorem typing_relays_no_identity (socket : Socket) (data : JsVal) (w : World) :
  on_typing socket data w
  = match data with
    | JUndefined | JNull => (Thrown TypeError, w, [])
    | _ =>
        (Returned tt, w,
         [Emit (ToOthers (sock_id socket)) "user_typing"
               (JObj [("username", JStr (str "Someone"));
                      ("isTyping", match get_field "isTyping" data with
                                   | Some v => v
                                   | None => JUndefined
                                   end)])])
    end.
Proof.
  destruct data; try reflexivity.
  unfold on_typing, bind, get_prop. cbn [get_field].
  destruct (assoc "isTyping" fields); reflexivity.
Qed.




(** The route with the default limit and page, and the connection handler,
    over the model's listing. *)
Lemma rest_page_and_snapshot (req : Request) (user : Decoded) (socket : Socket)
    (uid : ObjectId) (u : User) (w : World) :
  authenticated jwt_verify req user ->
  query_limit req = None -> query_page req = None ->
  sock_userId socket = d_userId user ->
  castObjectId (sock_userId socket) = Some uid ->
  find (fun x => oid_eqb (u_id x) uid) (users w) = Some u ->
  let page :=
    JArr (rev (map (fun msg => anonymizeMessage msg (Some (d_userId user))) (snapshot w))) in
  actions_of (get_chat_messages jwt_verify req w)
  = [Respond 200 (JObj [("messages", page);
                        ("hasMore", JBool (Nat.eqb (List.length (snapshot w)) 50))])]
  /\ actions_of (on_connection castObjectId socket w)
     = [Emit (ToSocket (sock_id socket)) "recent_messages" page].
Proof.
  intros Hauth Hlimit Hpage Hid Hcast Hfind page. subst page.
  rewrite on_connection_resolved with (uid := uid) (user := u) by assumption.
  unfold get_chat_messages.
  rewrite authenticateToken_ok with (user := user) by assumption.
  rewrite Hlimit, Hpage, Hid. split; [|reflexivity].
  cbn [or_default]. unfold try_catch, bind, Message_find_recent.
  cbn [Z.sub Z.mul Z.add Z.opp Z.pos_sub Z.ltb Z.compare Z.eqb Z.to_nat skipn actions_of snd
       respond act app].
  change (firstn (Z.abs_nat 50)) with (@firstn Message 50). fold (snapshot w).
  assert (Hmore : (Z.of_nat (List.length (snapshot w)) =? 50)%Z
                  = Nat.eqb (List.length (snapshot w)) 50).
  { destruct (Nat.eqb (List.length (snapshot w)) 50) eqn:E.
    - apply Nat.eqb_eq in E. now rewrite E.
    - apply Nat.eqb_neq in E. apply Z.eqb_neq. lia. }
  now rewrite Hmore.
Qed.

(** The REST page and the realtime snapshot agree when no two stored
    messages share a timestamp: with the default limit and page, the route
    answers with the array a socket of the same identity receives as
    [recent_messages] when it connects, the 50 newest messages of whatever
    listing the database gives, oldest first. *)
Theorem rest_page_matches_snapshot (req : Request) (user : Decoded) (socket : Socket)
    (uid : ObjectId) (u : User) (w : World) (found : list Message) :
  authenticated jwt_verify req user ->
  query_limit req = None -> query_page req = None ->
  sock_userId socket = d_userId user ->
  castObjectId (sock_userId socket) = Some uid ->
  find (fun x => oid_eqb (u_id x) uid) (users w) = Some u ->
  distinct_timestamps (messages w) ->
  database_order (messages w) found ->
  let page :=
    JArr (rev (map (fun msg => anonymizeMessage msg (Some (d_userId user)))
                   (firstn 50 found))) in
  actions_of (get_chat_messages jwt_verify req w)
  = [Respond 200 (JObj [("messages", page);
                        ("hasMore", JBool (Nat.eqb (List.length (firstn 50 found)) 50))])]
  /\ actions_of (on_connection castObjectId socket w)
     = [Emit (ToSocket (sock_id socket)) "recent_messages" page].
Proof.
  intros Hauth Hlimit Hpage Hid Hcast Hfind Hdistinct Hfound page. subst page.
  rewrite (database_order_unique Hdistinct Hfound).
  change (firstn 50 (sort_timestamp_desc
                       (filter (fun m => negb (isDeleted m)) (messages w))))
    with (snapshot w).
  exact (@rest_page_and_snapshot req user socket uid u w Hauth Hlimit Hpage Hid Hcast Hfind).
Qed.

End ServerFacts.

(** C7.  The send route on a sample request: Alice, whose token is valid,
    posts "hello" while she and Bob are connected.  The message is stored
    and delivered to each of the two entries, with no broadcast; the
    response is not [{success: true, message}] but the 500 error of the
    [catch]. *)
Lemma post_chat_send_hello_fails :
  let message := stored (oid_of_N 100) 5 (str "hello") (u_id alice) (u_name alice) in
  post_chat_send sample_verify cast_hex post_hello (oid_of_N 100) 5 two_online
  = (Returned tt, add_message message two_online,
     [Saved message;
      Emit (ToSocket (str "sA")) "new_message" (anonymizeMessage message (Some alice_id));
      Emit (ToSocket (str "sB")) "new_message" (anonymizeMessage message (Some bob_id));
      Respond 500 (error_body "Failed to send message")]).
Proof. vm_compute. reflexivity. Qed.

(** ** The client *)

Lemma client_exists_id (id : jstring) (l : list Client.AnonymousMessage) :
  existsb (fun msg => jstring_eqb (Client._id msg) id) l = true <-> In id (Client.ids l).
Proof.
  unfold Client.ids. rewrite existsb_exists, in_map_iff. split.
  - intros (x & Hx & E). apply jstring_eqb_eq in E. now exists x.
  - intros (x & E & Hx). exists x. split; [assumption|]. now apply jstring_eqb_eq.
Qed.

Lemma NoDup_snoc (id : jstring) (l : list jstring) :
  NoDup l -> ~ In id l -> NoDup (l ++ [id]).
Proof.
  induction 1 as [|x l Hx Hl IH]; simpl; intros Hid.
  - constructor; [intros []|constructor].
  - constructor.
    + rewrite in_app_iff. simpl. intuition congruence.
    + apply IH. intuition.
Qed.

Lemma client_new_message_distinct (m : Client.AnonymousMessage)
    (prev : list Client.AnonymousMessage) :
  NoDup (Client.ids prev) -> NoDup (Client.ids (Client.on_new_message m prev)).
Proof.
  intros H. unfold Client.on_new_message. cbv zeta.
  destruct (existsb _ prev) eqn:E; [assumption|].
  unfold Client.ids. rewrite map_app. apply NoDup_snoc; [assumption|].
  intros Hin. apply client_exists_id in Hin. congruence.
Qed.

Lemma client_new_message_present (m : Client.AnonymousMessage)
    (prev : list Client.AnonymousMessage) :
  In (Client._id m) (Client.ids (Client.on_new_message m prev)).
Proof.
  unfold Client.on_new_message. cbv zeta.
  destruct (existsb _ prev) eqn:E.
  - now apply client_exists_id in E.
  - unfold Client.ids. rewrite map_app, in_app_iff. right. now left.
Qed.

Lemma client_step_distinct (ev : Client.Event) (prev : list Client.AnonymousMessage) :
  Client.distinct_snapshot ev ->
  NoDup (Client.ids prev) -> NoDup (Client.ids (Client.step prev ev)).
Proof.
  destruct ev as [l|m|]; simpl; intros Hev Hprev.
  - unfold Client.on_recent_messages, Client.ids in *. now rewrite map_map.
  - now apply client_new_message_distinct.
  - constructor.
Qed.

Lemma client_run_distinct (evs : list Client.Event) (init : list Client.AnonymousMessage) :
  Forall Client.distinct_snapshot evs ->
  NoDup (Client.ids init) -> NoDup (Client.ids (fold_left Client.step evs init)).
Proof.
  intros H. revert init. induction H as [|ev evs Hev _ IH]; intros init Hinit; simpl.
  - assumption.
  - apply IH. now apply client_step_distinct.
Qed.

Lemma client_one_entry (id : jstring) (l : list Client.AnonymousMessage) :
  NoDup (Client.ids l) -> In id (Client.ids l) -> Client.entries_with id l = 1.
Proof.
  unfold Client.entries_with.
  induction l as [|x l IH]; simpl; intros Hnd Hin; [contradiction|].
  inversion Hnd as [|? ? Hx Hl]; subst.
  destruct (jstring_eqb (Client._id x) id) eqn:E.
  - apply jstring_eqb_eq in E. subst id. simpl. f_equal.
    destruct (filter _ l) as [|y rest] eqn:F; [reflexivity|].
    exfalso. apply Hx.
    assert (Hy : In y (filter (fun msg => jstring_eqb (Client._id msg) (Client._id x)) l))
      by (rewrite F; now left).
    apply filter_In in Hy as [Hy Ey]. apply jstring_eqb_eq in Ey.
    unfold Client.ids. apply in_map_iff. now exists y.
  - destruct Hin as [Hin|Hin]; [rewrite Hin, jstring_eqb_refl in E; discriminate|].
    now apply IH.
Qed.

(** C5. Whatever the client has received so far (snapshots list each
    message once), its list holds no two entries with the same id; and
    after two [new_message] events that carry the same id, the targeted copy
    and the fallback copy, the list holds exactly one entry with that id. *)
Theorem client_converges (evs : list Client.Event) (m1 m2 : Client.AnonymousMessage) :
  Forall Client.distinct_snapshot evs ->
  Client._id m1 = Client._id m2 ->
  let after := Client.on_new_message m2 (Client.on_new_message m1 (Client.run evs)) in
  Client.entries_with (Client._id m1) after = 1
  /\ NoDup (Client.ids after)
  /\ NoDup (Client.ids (Client.run evs)).
Proof.
  intros Hevs Hid after.
  assert (H0 : NoDup (Client.ids (Client.run evs))).
  { apply client_run_distinct; [assumption|constructor]. }
  assert (H2 : NoDup (Client.ids after)).
  { now do 2 apply client_new_message_distinct. }
  split; [|split; assumption].
  apply client_one_entry; [assumption|].
  rewrite Hid. apply client_new_message_present.
Qed.

(** The older copy of the context appends without the check: two copies
    of a message make two entries. *)
Lemma client_legacy_duplicates (m : Client.AnonymousMessage) :
  Client.entries_with (Client._id m)
    (Client.on_new_message_legacy m (Client.on_new_message_legacy m [])) = 2.
Proof.
  unfold Client.entries_with, Client.on_new_message_legacy. simpl.
  now rewrite jstring_eqb_refl.
Qed.

(** ** The statements at sample inputs *)

Lemma alice_authenticated : authenticated sample_verify post_hello alice_decoded.
Proof.
  exists (str "Bearer token-alice"), (str "token-alice").
  split; [reflexivity|]. split; [reflexivity|]. split; [discriminate|reflexivity].
Defined.

Lemma alice_authenticated_get : authenticated sample_verify get_three alice_decoded.
Proof.
  exists (str "Bearer token-alice"), (str "token-alice").
  split; [reflexivity|]. split; [reflexivity|]. split; [discriminate|reflexivity].
Defined.

(** Alice sends "hello" while she and Bob are connected: her copy carries
    [isOwnMessage: true], Bob's [false], and one broadcast follows. *)
Lemma send_message_delivers_witness :
  let message := stored (oid_of_N 100) 5 (str "hello") (u_id alice) (u_name alice) in
  actions_of (send_message cast_hex socketA hello (oid_of_N 100) 5 two_online)
  = [Saved message;
     Emit (ToSocket (str "sA")) "new_message" (anonymizeMessage message (Some alice_id));
     Emit (ToSocket (str "sB")) "new_message" (anonymizeMessage message (Some bob_id));
     Emit ToAll "new_message" (anonymizeMessage message None)]
  /\ get_field "isOwnMessage" (anonymizeMessage message (Some alice_id)) = Some (JBool true)
  /\ get_field "isOwnMessage" (anonymizeMessage message (Some bob_id)) = Some (JBool false).
Proof.
  intros message. split; [|split; reflexivity].
  refine (proj1 (proj2 (@send_message_delivers cast_hex socketA hello (str "hello")
                          (oid_of_N 100) 5%Z two_online (u_id alice) (u_name alice)
                          _ _ _ _ _ _))); try reflexivity.
  discriminate.
Defined.

Lemma post_chat_send_not_atomic_witness :
  let message := stored (oid_of_N 100) 5 (str "hello") (u_id alice) (u_name alice) in
  actions_of (post_chat_send sample_verify cast_hex post_hello (oid_of_N 100) 5 two_online)
  = [Saved message;
     Emit (ToSocket (str "sA")) "new_message" (anonymizeMessage message (Some alice_id));
     Emit (ToSocket (str "sB")) "new_message" (anonymizeMessage message (Some bob_id));
     Respond 500 (error_body "Failed to send message")].
Proof.
  intros message.
  refine (proj1 (proj2 (@post_chat_send_not_atomic sample_verify cast_hex post_hello
                          alice_decoded (str "hello") (oid_of_N 100) 5%Z two_online
                          (u_id alice) alice alice_authenticated _ _ _ _ _ _)));
    try reflexivity.
  discriminate.
Defined.

Lemma users_online_constant_witness :
  get_users_online sample_verify post_hello empty_world
  = (Returned tt, empty_world, [Respond 200 (JObj [("count", JNum 0); ("users", JArr [])])])
  /\ get_users_online sample_verify post_hello two_online
     = (Returned tt, two_online, [Respond 200 (JObj [("count", JNum 0); ("users", JArr [])])]).
Proof.
  pose proof (@users_online_constant sample_verify post_hello alice_decoded
                empty_world two_online alice_authenticated) as (H1 & H2 & _).
  exact (conj H1 H2).
Defined.

Lemma client_converges_witness :
  Client.run [Client.RecentMessages [earlier_message];
              Client.NewMessage targeted_copy; Client.NewMessage fallback_copy]
  = [Client.normalize earlier_message; Client.normalize targeted_copy]
  /\ Client.entries_with (str "64")
       (Client.on_new_message fallback_copy
          (Client.on_new_message targeted_copy
             (Client.run [Client.RecentMessages [earlier_message]]))) = 1.
Proof.
  split; [reflexivity|].
  refine (proj1 (@client_converges [Client.RecentMessages [earlier_message]]
                   targeted_copy fallback_copy _ eq_refl)).
  repeat constructor. simpl. intuition.
Defined.

Lemma send_validation_witness :
  content_ok (JStr (repeat_unit 97 500)) = true
  /\ content_ok (JStr (repeat_unit 97 501)) = false
  /\ content_ok (JStr (repeat_unit 32 7)) = false
  /\ send_message cast_hex socketA (JObj [("content", JStr (repeat_unit 97 501))])
       (oid_of_N 100) 5 two_online
     = (Returned tt, two_online,
        [Emit (ToSocket (str "sA")) "error"
              (error_payload "Message too long (max 500 characters)")]).
Proof.
  destruct (send_validation sample_verify cast_hex)
    as (Hreject & _ & _ & _ & _ & H500 & H501 & Hblank).
  split; [|split; [|split]].
  - apply H500; [reflexivity|vm_compute; discriminate].
  - apply H501. reflexivity.
  - apply Hblank. reflexivity.
  - exact (Hreject socketA (JObj [("content", JStr (repeat_unit 97 501))])
                   (oid_of_N 100) 5%Z two_online eq_refl).
Defined.

Lemma recent_order_witness :
  get_chat_messages sample_verify get_three three_messages
  = (Returned tt, three_messages,
     [Respond 200
        (JObj [("messages",
                JArr (map (fun m => anonymizeMessage m (Some alice_id)) [msgA; msgB; msgC]));
               ("hasMore", JBool true)])]).
Proof.
  refine (proj1 (proj2 (proj2 (proj2 (recent_order sample_verify) [] msgA msgB msgC get_three
                                 alice_decoded three_messages
                                 alice_authenticated_get eq_refl eq_refl eq_refl eq_refl
                                 eq_refl eq_refl _ _ _)))).
  - constructor.
  - reflexivity.
  - reflexivity.
Defined.

Lemma legacy_send_has_no_broadcast_witness :
  let message := stored (oid_of_N 100) 5 (str "hello") (u_id alice) (u_name alice) in
  actions_of (send_message_legacy cast_hex socketA hello (oid_of_N 100) 5 two_online)
  = [Saved message;
     Emit (ToSocket (str "sA")) "new_message" (anonymizeMessage message (Some alice_id));
     Emit (ToSocket (str "sB")) "new_message" (anonymizeMessage message (Some bob_id))].
Proof.
  intros message.
  refine (proj1 (@legacy_send_has_no_broadcast cast_hex socketA hello (str "hello")
                   (oid_of_N 100) 5%Z two_online (u_id alice) (u_name alice)
                   _ _ _ _ _ _)); try reflexivity.
  discriminate.
Defined.


Lemma rest_page_matches_snapshot_witness :
  let page := JArr (map (fun m => anonymizeMessage m (Some alice_id)) [msgA; msgB; msgC]) in
  actions_of (get_chat_messages sample_verify post_hello three_messages)
  = [Respond 200 (JObj [("messages", page); ("hasMore", JBool false)])]
  /\ actions_of (on_connection cast_hex (mkSocket (str "sA") alice_id (u_email alice) None)
                               three_messages)
     = [Emit (ToSocket (str "sA")) "recent_messages" page].
Proof.
  refine (@rest_page_matches_snapshot sample_verify cast_hex post_hello alice_decoded
            (mkSocket (str "sA") alice_id (u_email alice) None) (u_id alice) alice
            three_messages [msgC; msgB; msgA]
            alice_authenticated eq_refl eq_refl eq_refl eq_refl eq_refl _ _).
  - repeat constructor; simpl; intuition discriminate.
  - split.
    + change (Permutation [msgA; msgB; msgC] (rev [msgA; msgB; msgC])).
      apply Permutation_rev.
    + repeat constructor; unfold newer_first; simpl; lia.
Defined.

(** ** Where the specification's wording and the code part *)

(** C4, counterexample.  A letter followed by 500 blanks has a length of 1
    after trimming, within 1 to 500, and 501 code units as received: the
    handler answers "too long" and stores nothing. *)
Lemma padded_content_rejected :
  valid_after_trim padded = true
  /\ List.length padded = 501
  /\ send_message cast_hex socketA (JObj [("content", JStr padded)]) (oid_of_N 100) 5 two_online
     = (Returned tt, two_online,
        [Emit (ToSocket (str "sA")) "error"
              (error_payload "Message too long (max 500 characters)")]).
Proof. split; [|split]; vm_compute; reflexivity. Qed.

(** C6, counterexample.  A, B and C are stored in that order with one
    timestamp.  The sort the query asks for, by timestamp alone, allows the
    answer [A; B; C], which the route reverses to C, B, A; it allows
    [C; B; A] as well: no key breaks the tie, and the code does not fix
    the order of the three. *)
Lemma recent_roundtrip_ties :
  recent_answer 3 0 (messages same_millisecond) [tieA; tieB; tieC]
  /\ rev [tieA; tieB; tieC] <> [tieA; tieB; tieC]
  /\ recent_answer 3 0 (messages same_millisecond) [tieC; tieB; tieA]
  /\ [tieA; tieB; tieC] <> [tieC; tieB; tieA].
Proof.
  assert (Htie : forall a b : Message,
             In a [tieA; tieB; tieC] -> In b [tieA; tieB; tieC] -> newer_first a b).
  { intros a b Ha Hb. unfold newer_first.
    assert (Hts : forall m, In m [tieA; tieB; tieC] -> timestamp m = 1000%Z).
    { intros m [<-|[<-|[<-|[]]]]; reflexivity. }
    rewrite (Hts a Ha), (Hts b Hb). lia. }
  split; [|split; [|split]].
  - exists [tieA; tieB; tieC]. split; [|reflexivity]. split; [reflexivity|].
    repeat constructor; apply Htie; simpl; tauto.
  - vm_compute. discriminate.
  - exists [tieC; tieB; tieA]. split; [|reflexivity]. split.
    + change (Permutation [tieA; tieB; tieC] [tieC; tieB; tieA]).
      change [tieC; tieB; tieA] with (rev [tieA; tieB; tieC]). apply Permutation_rev.
    + repeat constructor; apply Htie; simpl; tauto.
  - vm_compute. discriminate.
Qed.

(** C10, counterexample.  Alice's token verifies and her content passes
    validation, but her user document is not found: the request is
    answered 500 with nothing stored and nothing delivered to Bob's entry. *)
Lemma post_chat_send_unknown_sender :
  authenticated sample_verify post_hello alice_decoded
  /\ data_ok (body post_hello) = true
  /\ Map_get bob_id (connectedUsers alice_unknown)
     = Some (mkUserInfo (str "sB") (u_name bob) (u_email bob))
  /\ post_chat_send sample_verify cast_hex post_hello (oid_of_N 100) 5 alice_unknown
     = (Returned tt, alice_unknown, [Respond 500 (error_body "Failed to send message")]).
Proof.
  split; [exact alice_authenticated|].
  split; [reflexivity|]. split; vm_compute; reflexivity.
Qed.

(** C8, counterexample.  Alice's token verifies, so the handshake
    succeeds.  When her user document is not stored, her handler runs to
    its end and registers the socket's listeners, and she has no entry.
    When her document is stored and her connection closes while the handler
    waits for the lookup, she has an entry after the disconnect, and her
    socket is not registered. *)
Lemma presence_lifecycle_gaps :
  run_ticks sample_verify cast_hex alice_connects [] no_users
  = (Returned [],
     mkWorld [] [] [] [mkSocket (str "sA") alice_id (u_email alice) None], [])
  /\ (let after := world_of (run_ticks sample_verify cast_hex alice_leaves_early []
                                      empty_world) in
      Map_get alice_id (connectedUsers after)
      = Some (mkUserInfo (str "sA") (u_name alice) (u_email alice))
      /\ sockets after = []).
Proof. split; [|split]; vm_compute; reflexivity. Qed.

(* ================================================================== *)
(** * Further properties *)

(** ** Trimming *)

Lemma trimStart_head (s : jstring) :
  match trimStart s with
  | [] => True
  | c :: _ => isWhiteSpace c = false
  end.
Proof.
  induction s as [|c s IH]; simpl; [exact I|].
  destruct (isWhiteSpace c) eqn:E; [exact IH|exact E].
Qed.

Lemma trimStart_fixed (c : N) (s : jstring) :
  isWhiteSpace c = false -> trimStart (c :: s) = c :: s.
Proof. intros H. simpl. now rewrite H. Qed.

Lemma trimStart_idempotent (s : jstring) : trimStart (trimStart s) = trimStart s.
Proof.
  pose proof (trimStart_head s) as H.
  destruct (trimStart s) as [|c t]; [reflexivity|]. now apply trimStart_fixed.
Qed.

Lemma trimStart_snoc (s : jstring) (c : N) :
  isWhiteSpace c = false -> trimStart (s ++ [c]) = trimStart s ++ [c].
Proof.
  intros H. induction s as [|x s IH]; simpl.
  - now rewrite H.
  - destruct (isWhiteSpace x); [exact IH|reflexivity].
Qed.

Lemma trimEnd_cons (c : N) (s : jstring) :
  isWhiteSpace c = false -> trimEnd (c :: s) = c :: trimEnd s.
Proof.
  intros H. unfold trimEnd. simpl. rewrite trimStart_snoc by assumption.
  rewrite rev_app_distr. reflexivity.
Qed.

Lemma trimEnd_idempotent (s : jstring) : trimEnd (trimEnd s) = trimEnd s.
Proof. unfold trimEnd. now rewrite rev_involutive, trimStart_idempotent. Qed.

Lemma trimStart_trimEnd (s : jstring) : trimStart (trimEnd (trimStart s)) = trimEnd (trimStart s).
Proof.
  pose proof (trimStart_head s) as H.
  destruct (trimStart s) as [|c t]; [reflexivity|].
  rewrite trimEnd_cons by assumption. now apply trimStart_fixed.
Qed.

Lemma trim_idempotent (s : jstring) : trim (trim s) = trim s.
Proof.
  unfold trim at 1. rewrite (trimStart_trimEnd s : trimStart (trim s) = trim s).
  unfold trim. apply trimEnd_idempotent.
Qed.

(** ** What a handler can do to the world *)

Lemma save_result (d : MessageDoc) (w : World) :
  (exists m, validate d = Some m /\ unused (_id m) w = true
             /\ save d w = (Returned m, add_message m w, [Saved m]))
  \/ (exists e, save d w = (Thrown e, w, [])).
Proof.
  unfold save, unused. destruct (validate d) as [m|]; [|right; now eexists].
  destruct (existsb _ (messages w)) eqn:E; [right; now eexists|].
  left. exists m. split; [reflexivity|]. split; [now rewrite E|reflexivity].
Qed.

Lemma validate_well_formed (d : MessageDoc) (m : Message) :
  validate d = Some m -> trim (doc_content d) = doc_content d -> well_formed m.
Proof.
  unfold validate. destruct (doc_userId d) as [uid|]; [|discriminate].
  destruct (doc_username d) as [name|]; [|discriminate].
  destruct (negb (Nat.eqb (List.length (doc_content d)) 0)) eqn:E1; [|discriminate].
  destruct (Nat.leb (List.length (doc_content d)) 500) eqn:E2; [|discriminate].
  destruct (negb (Nat.eqb (List.length name) 0)) eqn:E3; [|discriminate].
  cbn [andb]. intros H Ht. injection H as <-. unfold well_formed. cbn.
  apply negb_true_iff, Nat.eqb_neq in E1. apply Nat.leb_le in E2.
  apply negb_true_iff, Nat.eqb_neq in E3.
  repeat split; try assumption.
  - intros E. now rewrite E in E1.
  - intros E. now rewrite E in E3.
Qed.

Lemma data_ok_string (data : JsVal) :
  data_ok data = true -> exists s, content_of data = Some (JStr s) /\ content_ok (JStr s) = true.
Proof.
  unfold data_ok. destruct (content_of data) as [content|]; [|discriminate].
  destruct content; try discriminate. intros H. now exists s.
Qed.

Lemma only_adds_refl (w : World) : only_adds w w.
Proof. unfold only_adds. auto. Qed.

Lemma only_adds_message (m : Message) (w : World) :
  well_formed m -> unused (_id m) w = true -> only_adds w (add_message m w).
Proof. intros H Hu. unfold only_adds. cbn. repeat split. right. now exists m. Qed.

Section MoreServerFacts.

Variable jwt_verify : jstring -> option Decoded.
Variable castObjectId : jstring -> option ObjectId.

(** The realtime handler on a content that passes validation, whatever the
    save does. *)
Lemma send_message_valid_content (socket : Socket) (data : JsVal) (s : jstring)
    (fresh : ObjectId) (now : Z) (w : World) :
  content_of data = Some (JStr s) -> content_ok (JStr s) = true ->
  send_message castObjectId socket data fresh now w
  = match save (new_Message castObjectId fresh now (trim s)
                            (sock_userId socket) (sock_userName socket)) w with
    | (Returned m, w1, t1) =>
        (Returned tt, w1,
         t1 ++ fanout m (connectedUsers w1)
            ++ [Emit ToAll "new_message" (anonymizeMessage m None)])
    | (Thrown e, w1, t1) =>
        (Returned tt, w1,
         t1 ++ [Emit (ToSocket (sock_id socket)) "error"
                     (error_payload "Failed to send message")])
    end.
Proof.
  intros Hc Hok.
  unfold send_message, try_catch. unfold bind at 1. rewrite get_prop_content, Hc.
  unfold bind at 1. rewrite is_blank_ok by assumption.
  rewrite length_gt_ok by assumption. unfold bind at 1. cbn [call_trim]. unfold ret at 1.
  unfold bind at 1.
  destruct (save _ w) as [[[m|e] w1] t1]; [|reflexivity].
  unfold bind at 1. unfold gets at 1. unfold bind at 1.
  rewrite forEach_fanout. reflexivity.
Qed.

Lemma send_message_only_adds (socket : Socket) (data : JsVal) (fresh : ObjectId) (now : Z)
    (w : World) :
  outcome_of (send_message castObjectId socket data fresh now w) = Returned tt
  /\ only_adds w (world_of (send_message castObjectId socket data fresh now w)).
Proof.
  destruct (data_ok data) eqn:Hd.
  - destruct (data_ok_string _ Hd) as (s & Hc & Hok).
    rewrite send_message_valid_content with (s := s) by assumption.
    destruct (save_result (new_Message castObjectId fresh now (trim s)
                             (sock_userId socket) (sock_userName socket)) w)
      as [(m & Hv & Hu & ->)|(e & ->)].
    + split; [reflexivity|]. apply only_adds_message; [|assumption].
      eapply validate_well_formed; [exact Hv|]. apply trim_idempotent.
    + split; [reflexivity|apply only_adds_refl].
  - rewrite send_message_rejects by assumption. split; [reflexivity|apply only_adds_refl].
Qed.

(** ** The middleware of the routes *)

Lemma authenticateToken_cases (req : Request) (next : Decoded -> M unit) (w : World) :
  authenticateToken jwt_verify req next w
  = match bearer_token req with
    | None => (Returned tt, w, [Respond 401 (error_body "Access token required")])
    | Some token =>
        match jwt_verify token with
        | Some user => next user w
        | None => (Returned tt, w, [Respond 403 (error_body "Invalid or expired token")])
        end
    end.
Proof.
  unfold authenticateToken, bearer_token.
  destruct (authorization req) as [h|]; [|reflexivity].
  destruct h as [|c h].
  - reflexivity.
  - change (truthy (JStr (c :: h))) with true. cbv iota.
    destruct (nth_error (split_space (c :: h)) 1) as [[|d t]|]; try reflexivity.
    change (truthy (JStr (d :: t))) with true. cbv iota beta delta [negb].
    destruct (jwt_verify (d :: t)); reflexivity.
Qed.

Lemma bearer_token_authenticated (req : Request) (token : jstring) (user : Decoded) :
  bearer_token req = Some token -> jwt_verify token = Some user ->
  authenticated jwt_verify req user.
Proof.
  unfold bearer_token, authenticated. intros Hb Hv.
  destruct (authorization req) as [h|]; [|discriminate].
  destruct (nth_error (split_space h) 1) as [[|d t]|] eqn:E; try discriminate.
  injection Hb as <-. exists h, (d :: t). repeat split; try assumption. discriminate.
Qed.

(** ** The test route *)

Lemma post_chat_test_body (req : Request) (user : Decoded) (fresh : ObjectId) (now : Z)
    (w : World) :
  authenticated jwt_verify req user ->
  post_chat_test jwt_verify castObjectId req fresh now w
  = (Returned tt, w, [Respond 500 (error_body "Failed to send test message")]).
Proof.
  intros Hauth. unfold post_chat_test.
  rewrite authenticateToken_ok with (user := user) by assumption. reflexivity.
Qed.

Lemma post_chat_test_world (req : Request) (fresh : ObjectId) (now : Z) (w : World) :
  world_of (post_chat_test jwt_verify castObjectId req fresh now w) = w.
Proof.
  unfold post_chat_test. rewrite authenticateToken_cases.
  destruct (bearer_token req) as [t|]; [|reflexivity].
  destruct (jwt_verify t); reflexivity.
Qed.

(** The test route never sends its message: [userId] is read from
    [req.userId], which is [undefined], so the save fails validation.  An
    authenticated request is answered 500 and changes nothing; no request
    makes the route store, emit or answer 200. *)
Theorem chat_test_route_never_sends (req : Request) (fresh : ObjectId) (now : Z) (w : World) :
  let r := post_chat_test jwt_verify castObjectId req fresh now w in
  world_of r = w
  /\ (exists status text, actions_of r = [Respond status (error_body text)] /\ status <> 200)
  /\ (forall user, authenticated jwt_verify req user ->
        actions_of r = [Respond 500 (error_body "Failed to send test message")]).
Proof.
  cbv zeta. split; [|split].
  - apply post_chat_test_world.
  - unfold post_chat_test. rewrite authenticateToken_cases.
    destruct (bearer_token req) as [t|].
    + destruct (jwt_verify t).
      * exists 500, "Failed to send test message". split; [reflexivity|discriminate].
      * exists 403, "Invalid or expired token". split; [reflexivity|discriminate].
    + exists 401, "Access token required". split; [reflexivity|discriminate].
  - intros user Hauth. now rewrite post_chat_test_body with (user := user).
Qed.

(** ** Requests without a valid token *)

(** A request to a chat route that carries no token is answered 401, one
    whose token does not verify 403; in both cases the handler of the route
    does not run: nothing is stored or emitted and the world is as before. *)
Theorem unauthenticated_rejected (i : Input) (req : Request) (w : World) :
  input_request i = Some req ->
  (bearer_token req = None ->
   handle jwt_verify castObjectId i w
   = (Returned tt, w, [Respond 401 (error_body "Access token required")]))
  /\ (forall token,
        bearer_token req = Some token -> jwt_verify token = None ->
        handle jwt_verify castObjectId i w
        = (Returned tt, w, [Respond 403 (error_body "Invalid or expired token")])).
Proof.
  intros Hi. split.
  - intros Hb.
    destruct i; try discriminate Hi; injection Hi as ->; cbn [handle];
      unfold get_chat_messages, post_chat_send, post_chat_test, get_users_online;
      rewrite authenticateToken_cases, Hb; reflexivity.
  - intros token Hb Hv.
    destruct i; try discriminate Hi; injection Hi as ->; cbn [handle];
      unfold get_chat_messages, post_chat_send, post_chat_test, get_users_online;
      rewrite authenticateToken_cases, Hb, Hv; reflexivity.
Qed.

(** ** The send route, whatever the lookups do *)

Lemma post_chat_send_valid_content (req : Request) (req_user : Decoded) (s : jstring)
    (fresh : ObjectId) (now : Z) (w : World) :
  authenticated jwt_verify req req_user ->
  content_of (body req) = Some (JStr s) -> content_ok (JStr s) = true ->
  post_chat_send jwt_verify castObjectId req fresh now w
  = match castObjectId (d_userId req_user) with
    | None => (Returned tt, w, [Respond 500 (error_body "Failed to send message")])
    | Some uid =>
        match find (fun u => oid_eqb (u_id u) uid) (users w) with
        | None => (Returned tt, w, [Respond 500 (error_body "Failed to send message")])
        | Some user =>
            match save (new_Message castObjectId fresh now (trim s) (d_userId req_user)
                                    (Some (u_name user))) w with
            | (Returned m, w1, t1) =>
                (Returned tt, w1,
                 t1 ++ fanout m (connectedUsers w1)
                    ++ [Respond 500 (error_body "Failed to send message")])
            | (Thrown e, w1, t1) =>
                (Returned tt, w1, t1 ++ [Respond 500 (error_body "Failed to send message")])
            end
        end
    end.
Proof.
  intros Hauth Hc Hok.
  unfold post_chat_send. rewrite authenticateToken_ok with (user := req_user) by assumption.
  unfold try_catch. unfold bind at 1. rewrite get_prop_content, Hc.
  unfold bind at 1. rewrite is_blank_ok by assumption.
  rewrite length_gt_ok by assumption.
  unfold bind at 1. unfold User_findById.
  destruct (castObjectId (d_userId req_user)) as [uid|] eqn:Hcast; [|reflexivity].
  unfold gets at 1.
  destruct (find (fun u => oid_eqb (u_id u) uid) (users w)) as [user|]; [|reflexivity].
  unfold bind at 1. cbn [call_trim]. unfold ret at 1.
  unfold bind at 1. unfold ret at 1. unfold bind at 1.
  destruct (save _ w) as [[[m|e] w1] t1]; [|reflexivity].
  unfold bind at 1. unfold gets at 1. unfold bind at 1.
  rewrite forEach_fanout. unfold bind at 1. rewrite resolve_messageData.
  cbn. now rewrite app_nil_r, <- app_assoc.
Qed.

Lemma post_chat_send_only_adds (req : Request) (fresh : ObjectId) (now : Z) (w : World) :
  outcome_of (post_chat_send jwt_verify castObjectId req fresh now w) = Returned tt
  /\ only_adds w (world_of (post_chat_send jwt_verify castObjectId req fresh now w)).
Proof.
  destruct (bearer_token req) as [t|] eqn:Hb.
  2:{ unfold post_chat_send. rewrite authenticateToken_cases, Hb.
      split; [reflexivity|apply only_adds_refl]. }
  destruct (jwt_verify t) as [req_user|] eqn:Hv.
  2:{ unfold post_chat_send. rewrite authenticateToken_cases, Hb, Hv.
      split; [reflexivity|apply only_adds_refl]. }
  pose proof (bearer_token_authenticated req Hb Hv) as Hauth.
  destruct (data_ok (body req)) eqn:Hd.
  - destruct (data_ok_string _ Hd) as (s & Hc & Hok).
    rewrite post_chat_send_valid_content with (req_user := req_user) (s := s) by assumption.
    destruct (castObjectId (d_userId req_user)) as [uid|] eqn:Hcast;
      [|split; [reflexivity|apply only_adds_refl]].
    destruct (find _ (users w)) as [user|]; [|split; [reflexivity|apply only_adds_refl]].
    destruct (save_result (new_Message castObjectId fresh now (trim s) (d_userId req_user)
                             (Some (u_name user))) w)
      as [(m & Hval & Hu & ->)|(e & ->)].
    + split; [reflexivity|]. apply only_adds_message; [|assumption].
      eapply validate_well_formed; [exact Hval|]. apply trim_idempotent.
    + split; [reflexivity|apply only_adds_refl].
  - rewrite post_chat_send_rejects with (req_user := req_user) by assumption.
    split; [reflexivity|apply only_adds_refl].
Qed.

(** ** The history route *)

Lemma get_chat_messages_body (req : Request) (user : Decoded) (w : World) :
  authenticated jwt_verify req user ->
  get_chat_messages jwt_verify req w
  = let limit := or_default (query_limit req) 50 in
    let skip := ((or_default (query_page req) 1 - 1) * limit)%Z in
    if (skip <? 0)%Z
    then (Returned tt, w, [Respond 500 (error_body "Failed to fetch messages")])
    else (Returned tt, w,
          [Respond 200
             (page_body user limit
                (if (limit =? 0)%Z then skipn (Z.to_nat skip) (history w)
                 else firstn (Z.abs_nat limit) (skipn (Z.to_nat skip) (history w))))]).
Proof.
  intros Hauth. unfold get_chat_messages.
  rewrite authenticateToken_ok with (user := user) by assumption.
  cbv zeta. unfold try_catch, bind, Message_find_recent.
  destruct ((or_default (query_page req) 1 - 1) * or_default (query_limit req) 50 <? 0)%Z;
    reflexivity.
Qed.

Lemma get_chat_messages_world (req : Request) (w : World) :
  outcome_of (get_chat_messages jwt_verify req w) = Returned tt
  /\ world_of (get_chat_messages jwt_verify req w) = w.
Proof.
  destruct (bearer_token req) as [t|] eqn:Hb.
  2:{ unfold get_chat_messages. rewrite authenticateToken_cases, Hb. now split. }
  destruct (jwt_verify t) as [user|] eqn:Hv.
  2:{ unfold get_chat_messages. rewrite authenticateToken_cases, Hb, Hv. now split. }
  rewrite get_chat_messages_body with (user := user)
    by (eapply bearer_token_authenticated; eassumption).
  cbv zeta. destruct (_ <? 0)%Z; now split.
Qed.

Lemma firstn_twice (n k : nat) (l : list Message) :
  firstn n l ++ firstn k (skipn n l) = firstn (n + k) l.
Proof.
  revert l. induction n as [|n IH]; intros l; [reflexivity|].
  destruct l as [|x l]; simpl.
  - now rewrite firstn_nil.
  - now rewrite IH.
Qed.

Lemma effective_or_default (q : option Z) (d v : Z) :
  effective q d v -> or_default q d = v.
Proof.
  intros [[[-> | ->] ->] | [-> Hv]]; try reflexivity.
  unfold or_default. apply Z.eqb_neq in Hv. now rewrite Hv.
Qed.

(** The route on a positive limit and a page from 1 on, over any listing
    the database may give when no two messages share a timestamp. *)
Lemma get_chat_messages_page (req : Request) (user : Decoded) (limit page : Z)
    (w : World) (found : list Message) :
  authenticated jwt_verify req user ->
  or_default (query_limit req) 50 = limit -> or_default (query_page req) 1 = page ->
  (0 < limit)%Z -> (1 <= page)%Z ->
  distinct_timestamps (messages w) -> database_order (messages w) found ->
  get_chat_messages jwt_verify req w
  = (Returned tt, w,
     [Respond 200
        (page_body user limit
           (firstn (Z.to_nat limit) (skipn (Z.to_nat ((page - 1) * limit)) found)))]).
Proof.
  intros Hauth Hlimit Hpage Hl Hp Hdistinct Hfound.
  rewrite get_chat_messages_body with (user := user) by assumption.
  rewrite Hlimit, Hpage. cbv zeta.
  assert (Hl0 : (limit =? 0)%Z = false) by (apply Z.eqb_neq; lia).
  rewrite Hl0.
  assert (((page - 1) * limit <? 0)%Z = false) as -> by (apply Z.ltb_ge; nia).
  unfold history. rewrite <- (database_order_unique Hdistinct Hfound).
  now rewrite Zabs2Nat.abs_nat_nonneg by lia.
Qed.

Lemma NoDup_segment (n k : nat) (l : list Message) :
  NoDup l -> NoDup (firstn n (skipn k l)).
Proof.
  intros H.
  assert (Hs : NoDup (skipn k l)).
  { rewrite <- (firstn_skipn k l) in H. now apply NoDup_app_remove_l in H. }
  rewrite <- (firstn_skipn n (skipn k l)) in Hs. now apply NoDup_app_remove_r in Hs.
Qed.

(** Pages of the history route, when no two stored messages share a
    timestamp.  Two requests of one caller for the pages [page] and
    [page + 1] of the same positive limit, answered from the same store,
    carry adjacent segments of the listing: the two pages together are the
    next [2 * limit] messages after the first [(page - 1) * limit], so no
    message between them is skipped, and none is repeated; page 1 starts at
    the newest message, and after a page shorter than the limit the next
    page is empty. *)
Theorem pages_are_consecutive (req req' : Request) (user : Decoded) (limit page : Z)
    (w : World) (found : list Message) :
  authenticated jwt_verify req user -> authenticated jwt_verify req' user ->
  query_limit req = Some limit -> query_page req = Some page ->
  query_limit req' = Some limit -> query_page req' = Some (page + 1)%Z ->
  (0 < limit)%Z -> (1 <= page)%Z ->
  distinct_timestamps (messages w) -> database_order (messages w) found ->
  exists msgs msgs',
    get_chat_messages jwt_verify req w
    = (Returned tt, w, [Respond 200 (page_body user limit msgs)])
    /\ get_chat_messages jwt_verify req' w
       = (Returned tt, w, [Respond 200 (page_body user limit msgs')])
    /\ msgs ++ msgs'
       = firstn (Z.to_nat limit + Z.to_nat limit)
                (skipn (Z.to_nat ((page - 1) * limit)) found)
    /\ NoDup (msgs ++ msgs')
    /\ (page = 1%Z -> msgs = firstn (Z.to_nat limit) found)
    /\ (List.length msgs < Z.to_nat limit -> msgs' = []).
Proof.
  intros Hauth Hauth' Hlimit Hpage Hlimit' Hpage' Hl Hp Hdistinct Hfound.
  set (skipped := skipn (Z.to_nat ((page - 1) * limit)) found).
  exists (firstn (Z.to_nat limit) skipped),
         (firstn (Z.to_nat limit) (skipn (Z.to_nat limit) skipped)).
  assert (Hdefault : forall q v, q = Some v -> v <> 0%Z -> forall d, or_default q d = v).
  { intros q v -> Hv d. apply effective_or_default. right. now split. }
  assert (Hsegment : firstn (Z.to_nat limit) skipped
                     ++ firstn (Z.to_nat limit) (skipn (Z.to_nat limit) skipped)
                     = firstn (Z.to_nat limit + Z.to_nat limit) skipped)
    by apply firstn_twice.
  split; [|split; [|split; [|split; [|split]]]].
  - apply get_chat_messages_page; try assumption; apply Hdefault; assumption || lia.
  - rewrite get_chat_messages_page with (user := user) (limit := limit) (page := (page + 1)%Z)
                                        (found := found);
      try assumption; try lia; try (apply Hdefault; assumption || lia).
    do 4 f_equal. unfold skipped. rewrite skipn_skipn. do 2 f_equal.
    replace (page + 1 - 1)%Z with ((page - 1) + 1)%Z by lia.
    rewrite Z.mul_add_distr_r, Z.mul_1_l, Z2Nat.inj_add by nia. lia.
  - exact Hsegment.
  - rewrite Hsegment. unfold skipped. apply NoDup_segment.
    destruct Hfound as [Hperm _].
    eapply Permutation_NoDup; [exact Hperm|].
    eapply NoDup_map_inv. exact Hdistinct.
  - intros ->. unfold skipped. replace ((1 - 1) * limit)%Z with 0%Z by lia. reflexivity.
  - intros Hshort. rewrite length_firstn in Hshort.
    rewrite skipn_all2 by lia. apply firstn_nil.
Qed.

(** Query parameters at the edges, when no two stored messages share a
    timestamp.  Each of the two parameters is replaced by its default, 50
    for the limit and 1 for the page, when it is missing, not a number or
    0, whatever the other one is.  With a positive limit, a page from 1 on
    is answered with that page of the listing, and a negative page makes
    the query fail: the route answers 500 with no messages. *)
Theorem query_parameter_edges (req : Request) (user : Decoded) (limit page : Z)
    (w : World) (found : list Message) :
  authenticated jwt_verify req user ->
  effective (query_limit req) 50 limit -> effective (query_page req) 1 page ->
  (0 < limit)%Z ->
  distinct_timestamps (messages w) -> database_order (messages w) found ->
  page <> 0%Z
  /\ ((1 <= page)%Z ->
      get_chat_messages jwt_verify req w
      = (Returned tt, w,
         [Respond 200
            (page_body user limit
               (firstn (Z.to_nat limit) (skipn (Z.to_nat ((page - 1) * limit)) found)))]))
  /\ ((page < 0)%Z ->
      get_chat_messages jwt_verify req w
      = (Returned tt, w, [Respond 500 (error_body "Failed to fetch messages")])).
Proof.
  intros Hauth Hlimit Hpage Hl Hdistinct Hfound.
  pose proof (effective_or_default Hlimit) as Hlimit'.
  pose proof (effective_or_default Hpage) as Hpage'.
  split; [|split].
  - destruct Hpage as [[_ ->] | [_ Hp]]; [discriminate|assumption].
  - intros Hp. now apply get_chat_messages_page.
  - intros Hp. rewrite get_chat_messages_body with (user := user) by assumption.
    rewrite Hlimit', Hpage'. cbv zeta.
    assert (((page - 1) * limit <? 0)%Z = true) as -> by (apply Z.ltb_lt; nia).
    reflexivity.
Qed.

(** ** The store under any run of inputs *)

Lemma world_of_bind (A B : Type) (m : M A) (f : A -> M B) (w : World) :
  world_of (bind m f w)
  = match m w with
    | (Returned a, w1, _) => world_of (f a w1)
    | (Thrown _, w1, _) => w1
    end.
Proof.
  unfold bind. destruct (m w) as [[[a|e] w1] t1]; [|reflexivity].
  now destruct (f a w1) as [[o w2] t2].
Qed.

Lemma on_connection_cases (socket : Socket) (w : World) :
  (exists uid user,
      castObjectId (sock_userId socket) = Some uid
      /\ find (fun u => oid_eqb (u_id u) uid) (users w) = Some user)
  \/ on_connection castObjectId socket w = (Returned socket, w, []).
Proof.
  destruct (castObjectId (sock_userId socket)) as [uid|] eqn:Hcast.
  - destruct (find (fun u => oid_eqb (u_id u) uid) (users w)) as [user|] eqn:Hfind.
    + left. now exists uid, user.
    + right. unfold on_connection, try_catch. unfold bind at 1. unfold User_findById.
      rewrite Hcast. unfold gets at 1. now rewrite Hfind.
  - right. unfold on_connection, try_catch. unfold bind at 1. unfold User_findById.
    now rewrite Hcast.
Qed.

Lemma only_adds_store (w w' : World) : only_adds w w' -> store_grows w w'.
Proof.
  intros (Hu & _ & _ & [Hm|(m & Hm & Hwf & _)]); split; try assumption.
  - exists []. now rewrite app_nil_r.
  - exists [m]. split; [assumption|]. now constructor.
Qed.

Lemma store_grows_same (w w' : World) :
  users w' = users w -> messages w' = messages w -> store_grows w w'.
Proof. intros Hu Hm. split; [assumption|]. exists []. now rewrite app_nil_r. Qed.

Lemma store_grows_refl (w : World) : store_grows w w.
Proof. now apply store_grows_same. Qed.

Lemma store_grows_trans (w1 w2 w3 : World) :
  store_grows w1 w2 -> store_grows w2 w3 -> store_grows w1 w3.
Proof.
  intros (Hu1 & a1 & Hm1 & Hf1) (Hu2 & a2 & Hm2 & Hf2). split; [congruence|].
  exists (a1 ++ a2). split.
  - now rewrite Hm2, Hm1, app_assoc.
  - apply Forall_app. now split.
Qed.

Lemma with_socket_cases (id : jstring) (handler : Socket -> M unit) (w : World) :
  with_socket id handler w
  = match find_socket id (sockets w) with
    | Some socket => handler socket w
    | None => (Returned tt, w, [])
    end.
Proof.
  unfold with_socket, bind, gets.
  destruct (find_socket id (sockets w)) as [socket|]; [|reflexivity].
  now destruct (handler socket w) as [[o w2] t2].
Qed.

Lemma on_typing_world (socket : Socket) (data : JsVal) (w : World) :
  world_of (on_typing socket data w) = w.
Proof.
  unfold on_typing. rewrite world_of_bind.
  destruct data; try reflexivity. cbn [get_prop].
  destruct (assoc "isTyping" fields); reflexivity.
Qed.

Lemma dispatch_store (ev : Event) (w : World) :
  store_grows w (world_of (dispatch jwt_verify castObjectId ev w)).
Proof.
  destruct ev as [id token|id data fresh now|id data|id|id]; cbn [dispatch].
  - destruct (authenticateSocket jwt_verify id token) as [socket|]; [|apply store_grows_refl].
    rewrite world_of_bind.
    destruct (on_connection_cases socket w) as [(uid & user & Hcast & Hfind)| ->].
    + rewrite on_connection_resolved with (uid := uid) (user := user) by assumption.
      now apply store_grows_same.
    + now apply store_grows_same.
  - rewrite with_socket_cases. destruct (find_socket id (sockets w)) as [socket|];
      [|apply store_grows_refl].
    apply only_adds_store, send_message_only_adds.
  - rewrite with_socket_cases. destruct (find_socket id (sockets w)) as [socket|];
      [|apply store_grows_refl].
    rewrite on_typing_world. apply store_grows_refl.
  - rewrite with_socket_cases. destruct (find_socket id (sockets w)) as [socket|];
      apply store_grows_refl.
  - rewrite with_socket_cases. destruct (find_socket id (sockets w)) as [socket|];
      now apply store_grows_same.
Qed.

Lemma get_users_online_world (req : Request) (w : World) :
  world_of (get_users_online jwt_verify req w) = w.
Proof.
  unfold get_users_online. rewrite authenticateToken_cases.
  destruct (bearer_token req) as [t|]; [|reflexivity]. now destruct (jwt_verify t).
Qed.

Lemma handle_store (i : Input) (w : World) :
  store_grows w (world_of (handle jwt_verify castObjectId i w)).
Proof.
  destruct i as [ev|req|req fresh now|req fresh now|req]; cbn [handle].
  - apply dispatch_store.
  - rewrite (proj2 (get_chat_messages_world req w)). apply store_grows_refl.
  - apply only_adds_store, post_chat_send_only_adds.
  - rewrite post_chat_test_world. apply store_grows_refl.
  - rewrite get_users_online_world. apply store_grows_refl.
Qed.

(** The messages collection only grows.  Whatever socket events and chat
    requests arrive, in any order, the collection afterwards is the one
    before followed by the messages added; no stored message is changed,
    removed or marked deleted, the users collection is untouched, and every
    message added has a content of 1 to 500 code units with no blank at
    either end and a non-empty author name, is anonymous and not deleted. *)
Theorem store_only_grows (inputs : list Input) (w : World) :
  store_grows w (world_of (handle_all jwt_verify castObjectId inputs w)).
Proof.
  revert w. induction inputs as [|i inputs IH]; intros w; cbn [handle_all].
  - apply store_grows_refl.
  - rewrite world_of_bind.
    pose proof (handle_store i w) as Hi.
    destruct (handle jwt_verify castObjectId i w) as [[[[]|e] w1] t1];
      cbn [world_of fst snd] in Hi; [|exact Hi].
    eapply store_grows_trans; [exact Hi|apply IH].
Qed.

(** ** Presence under any run of inputs *)

Lemma find_socket_In (id : jstring) (l : list Socket) (s : Socket) :
  find_socket id l = Some s -> In s l /\ sock_id s = id.
Proof.
  unfold find_socket. intros H. apply find_some in H as [Hin E].
  split; [assumption|]. now apply jstring_eqb_eq.
Qed.

Lemma find_socket_None (id : jstring) (l : list Socket) :
  find_socket id l = None -> ~ In id (map sock_id l) /\ unregister id l = l.
Proof.
  unfold find_socket, unregister. induction l as [|s l IH]; simpl; [now split|].
  destruct (jstring_eqb (sock_id s) id) eqn:E; [discriminate|].
  intros H. destruct (IH H) as [Hn Hu]. simpl. rewrite Hu. split; [|reflexivity].
  intros [Hs|Hin]; [|contradiction].
  rewrite Hs, jstring_eqb_refl in E. discriminate.
Qed.

Lemma In_Map_set (V : Type) (k k' : jstring) (v v' : V) (m : list (jstring * V)) :
  In (k', v') (Map_set k v m) -> (k' = k /\ v' = v) \/ In (k', v') m.
Proof.
  induction m as [|[k0 v0] m IH]; simpl.
  - intros [H|[]]. injection H as <- <-. now left.
  - destruct (jstring_eqb k0 k) eqn:E; simpl.
    + apply jstring_eqb_eq in E. subst k0.
      intros [H|H]; [injection H as <- <-; now left|now right; right].
    + intros [H|H]; [now right; left|]. destruct (IH H); [now left|now right; right].
Qed.

Lemma In_Map_delete (V : Type) (k k' : jstring) (v' : V) (m : list (jstring * V)) :
  In (k', v') (Map_delete k m) -> In (k', v') m /\ k' <> k.
Proof.
  unfold Map_delete. intros H. apply filter_In in H as [Hin E]. split; [assumption|].
  cbn [fst] in E. apply negb_true_iff in E. intros ->.
  now rewrite jstring_eqb_refl in E.
Qed.

Lemma NoDup_unregister (id : jstring) (l : list Socket) :
  NoDup (map sock_id l) -> NoDup (map sock_id (unregister id l)).
Proof.
  unfold unregister. induction l as [|s l IH]; simpl; [trivial|].
  intros H. inversion H as [|? ? Hs Hl]; subst.
  destruct (negb (jstring_eqb (sock_id s) id)); simpl; [|now apply IH].
  constructor; [|now apply IH].
  intros Hin. apply Hs. apply in_map_iff in Hin as (x & Ex & Hx).
  apply filter_In in Hx as [Hx _]. apply in_map_iff. now exists x.
Qed.

Lemma In_unregister (id : jstring) (s : Socket) (l : list Socket) :
  In s l -> sock_id s <> id -> In s (unregister id l).
Proof.
  intros Hin Hne. unfold unregister. apply filter_In. split; [assumption|].
  apply negb_true_iff. now apply jstring_eqb_neq.
Qed.

Lemma same_id_same_socket (l : list Socket) (a b : Socket) :
  NoDup (map sock_id l) -> In a l -> In b l -> sock_id a = sock_id b -> a = b.
Proof.
  induction l as [|s l IH]; simpl; [contradiction|].
  intros H Ha Hb E. inversion H as [|? ? Hs Hl]; subst.
  destruct Ha as [->|Ha], Hb as [->|Hb]; try reflexivity.
  - exfalso. apply Hs. rewrite E. now apply in_map.
  - exfalso. apply Hs. rewrite <- E. now apply in_map.
  - now apply IH.
Qed.

Lemma authenticateSocket_id (id : jstring) (token : JsVal) (socket : Socket) :
  authenticateSocket jwt_verify id token = Some socket -> sock_id socket = id.
Proof.
  unfold authenticateSocket. destruct (negb (truthy token)); [discriminate|].
  destruct token; try discriminate. destruct (jwt_verify s); [|discriminate].
  intros H. now injection H as <-.
Qed.

(** ** Connections without an entry *)

Lemma find_socket_unregister_other (id id' : jstring) (l : list Socket) :
  id <> id' -> find_socket id (unregister id' l) = find_socket id l.
Proof.
  intros Hne. unfold find_socket, unregister. induction l as [|s l IH]; simpl; [reflexivity|].
  destruct (jstring_eqb (sock_id s) id') eqn:E'; simpl.
  - apply jstring_eqb_eq in E'. rewrite jstring_eqb_neq by congruence. exact IH.
  - destruct (jstring_eqb (sock_id s) id); [reflexivity|exact IH].
Qed.

(** Two connections of one identity.  When one of them disconnects, the
    identity's entry is deleted although the other connection is still
    registered; no remaining entry points at that connection, so it is left
    out of the per-entry delivery and is reached by broadcasts only. *)
Theorem other_tab_loses_entry (id1 id2 : jstring) (s1 s2 : Socket) (w : World) :
  presence_consistent w ->
  find_socket id1 (sockets w) = Some s1 -> find_socket id2 (sockets w) = Some s2 ->
  id1 <> id2 -> sock_userId s1 = sock_userId s2 ->
  let w' := world_of (dispatch jwt_verify castObjectId (Disconnect id2) w) in
  find_socket id1 (sockets w') = Some s1
  /\ Map_get (sock_userId s1) (connectedUsers w') = None
  /\ (forall k info, In (k, info) (connectedUsers w') -> socketId info <> id1)
  /\ (forall message,
        ~ In (Emit (ToSocket id1) "new_message"
                   (anonymizeMessage message (Some (sock_userId s1))))
             (fanout message (connectedUsers w'))).
Proof.
  intros [Hn He] H1 H2 Hne Hsame w'.
  assert (Hw' : w' = mkWorld (users w) (messages w)
                             (Map_delete (sock_userId s2) (connectedUsers w))
                             (unregister id2 (sockets w))).
  { subst w'. cbn [dispatch]. rewrite with_socket_cases, H2. reflexivity. }
  assert (Hnone : forall k info, In (k, info) (connectedUsers w') -> socketId info <> id1).
  { intros k info Hin E. rewrite Hw' in Hin. cbn [connectedUsers] in Hin.
    apply In_Map_delete in Hin as [Hin Hk].
    destruct (He k info Hin) as (s & Hs & E1 & E2).
    apply find_socket_In in H1 as [Hs1 Hid1].
    assert (s = s1) by (apply (same_id_same_socket (sockets w)); [assumption..|congruence]).
    subst s. congruence. }
  split; [|split; [|split]].
  - rewrite Hw'. cbn [sockets]. now rewrite find_socket_unregister_other.
  - rewrite Hw'. cbn [connectedUsers]. rewrite Hsame. apply Map_get_delete.
  - exact Hnone.
  - intros message Hin. unfold fanout in Hin. apply in_map_iff in Hin as ([k info] & E & Hin).
    cbn [fst snd] in E. injection E as E _. now apply (Hnone k info).
Qed.

Lemma send_message_without_name (socket : Socket) (data : JsVal) (fresh : ObjectId) (now : Z)
    (w : World) :
  sock_userName socket = None ->
  send_message castObjectId socket data fresh now w
  = (Returned tt, w,
     [Emit (ToSocket (sock_id socket)) "error"
           (error_payload (if data_ok data then "Failed to send message"
                           else rejection_text data))]).
Proof.
  intros Hname. destruct (data_ok data) eqn:Hd.
  - destruct (data_ok_string _ Hd) as (s & Hc & Hok).
    rewrite send_message_valid_content with (s := s) by assumption.
    unfold save, validate, new_Message. cbn [doc_userId doc_username]. rewrite Hname.
    now destruct (castObjectId (sock_userId socket)).
  - now apply send_message_rejects.
Qed.

(** A token that verifies for an identity whose user document is not
    found.  The handshake succeeds and the socket's handlers are
    registered, but the [catch] of the connection handler leaves the socket
    without a name and the identity without an entry, and no snapshot is
    sent; afterwards every [send_message] of that socket, also one with a
    valid content, is answered with an [error] event and stores nothing. *)
Theorem unresolved_identity_cannot_send (id t : jstring) (decoded : Decoded) (w : World) :
  t <> [] -> jwt_verify t = Some decoded ->
  (forall uid, castObjectId (d_userId decoded) = Some uid ->
               find (fun u => oid_eqb (u_id u) uid) (users w) = None) ->
  find_socket id (sockets w) = None ->
  let socket := mkSocket id (d_userId decoded) (d_email decoded) None in
  dispatch jwt_verify castObjectId (Connect id (JStr t)) w
  = (Returned tt, mkWorld (users w) (messages w) (connectedUsers w) (socket :: sockets w), [])
  /\ forall data fresh now w',
       find_socket id (sockets w') = Some socket ->
       dispatch jwt_verify castObjectId (SendMessage id data fresh now) w'
       = (Returned tt, w',
          [Emit (ToSocket id) "error"
                (error_payload (if data_ok data then "Failed to send message"
                                else rejection_text data))]).
Proof.
  intros Ht Hv Hnouser Hfresh socket. split.
  - cbn [dispatch]. unfold authenticateSocket.
    assert (truthy (JStr t) = true) as -> by (destruct t; [congruence|reflexivity]).
    cbn [negb]. rewrite Hv. fold socket. unfold bind.
    destruct (on_connection_cases socket w) as [(uid & user & Hcast & Hfind)| ->].
    + cbn [socket sock_userId] in Hcast. rewrite (Hnouser uid Hcast) in Hfind. discriminate.
    + cbn. now rewrite (proj2 (find_socket_None _ _ Hfresh)).
  - intros data fresh now w' Hreg. cbn [dispatch]. rewrite with_socket_cases, Hreg.
    now rewrite send_message_without_name.
Qed.

(** ** From the input box to the store *)

(** What the client sends is already trimmed, so on this path the server's
    length test sees the trimmed length: a typed message is emitted when it
    is not blank, and the emitted payload passes the server's validation
    exactly when the message has 1 to 500 code units after trimming; the
    message stored is the trimmed text. *)
Theorem typed_message_validity (message : jstring) :
  (trim message = [] -> forall socket, ClientSend.sendMessage socket message = [])
  /\ (trim message <> [] ->
      ClientSend.sendMessage true message
      = [("send_message", JObj [("content", JStr (trim message))])]
      /\ data_ok (JObj [("content", JStr (trim message))]) = valid_after_trim message
      /\ forall socket fresh now w uid name,
           List.length (trim message) <= 500 ->
           sock_userName socket = Some name -> name <> [] ->
           castObjectId (sock_userId socket) = Some uid -> unused fresh w = true ->
           messages (world_of (send_message castObjectId socket
                                 (JObj [("content", JStr (trim message))]) fresh now w))
           = messages w ++ [mkMessage fresh (trim message) uid name true now false]).
Proof.
  split.
  - intros Hblank socket. unfold ClientSend.sendMessage. rewrite Hblank.
    now rewrite andb_false_r.
  - intros Hne.
    assert (Hlen : List.length (trim message) <> 0) by (destruct (trim message); simpl; congruence).
    split; [|split].
    + unfold ClientSend.sendMessage, truthy.
      now rewrite (proj2 (Nat.eqb_neq _ _) Hlen).
    + unfold data_ok, content_of. cbn [assoc String.eqb Ascii.eqb Bool.eqb].
      unfold content_ok, valid_after_trim. rewrite trim_idempotent.
      rewrite (proj2 (Nat.eqb_neq _ _) Hlen). cbn [negb andb].
      assert (Nat.leb 1 (List.length (trim message)) = true) as ->
        by (apply Nat.leb_le; lia).
      reflexivity.
    + intros socket fresh now w uid name Hle Hname Hn Hcast Hfresh.
      rewrite send_message_accepts with (s := trim message) (uid := uid) (name := name);
        try assumption; try reflexivity.
      * unfold stored. now rewrite trim_idempotent.
      * unfold content_ok. rewrite trim_idempotent.
        rewrite (proj2 (Nat.eqb_neq _ _) Hlen). cbn [negb andb]. now apply Nat.leb_le.
Qed.

End MoreServerFacts.

(** ** More on the client *)

(** The chat page's send: a message that is not blank, typed while
    connected, is emitted trimmed, followed by the end of the typing signal,
    and the input is cleared; a blank message or a lost connection emits
    nothing and keeps the input. *)
Theorem page_send_clears_or_keeps (isConnected : bool) (message : jstring) :
  (trim message <> [] -> isConnected = true ->
   ClientSend.handleSendMessage true isConnected message
   = ([("send_message", JObj [("content", JStr (trim message))]);
       ("typing", JObj [("isTyping", JBool false)])], []))
  /\ (trim message = [] \/ isConnected = false ->
      forall socket, ClientSend.handleSendMessage socket isConnected message = ([], message)).
Proof.
  split.
  - intros Hne ->. unfold ClientSend.handleSendMessage, ClientSend.sendMessage,
      ClientSend.handleSetIsTyping, truthy.
    assert (Nat.eqb (List.length (trim message)) 0 = false) as ->
      by (destruct (trim message); simpl; congruence).
    reflexivity.
  - intros [Hblank | ->] socket; unfold ClientSend.handleSendMessage.
    + now rewrite Hblank.
    + now rewrite andb_false_r.
Qed.

(** The first copy wins.  A [new_message] whose id is already listed
    leaves the list as it is, whatever its other fields; so of two copies
    of a new message the one that arrives first is the one rendered, with
    its own [isOwnMessage] flag. *)
Theorem client_first_copy_wins (prev : list Client.AnonymousMessage)
    (m1 m2 : Client.AnonymousMessage) :
  (In (Client._id m1) (Client.ids prev) -> Client.on_new_message m1 prev = prev)
  /\ (Client._id m1 = Client._id m2 -> ~ In (Client._id m1) (Client.ids prev) ->
      Client.on_new_message m2 (Client.on_new_message m1 prev)
      = prev ++ [Client.normalize m1]).
Proof.
  split.
  - intros Hin. unfold Client.on_new_message. cbv zeta.
    destruct (existsb _ prev) eqn:E; [reflexivity|].
    apply client_exists_id in Hin. cbn [Client.normalize Client._id] in E. congruence.
  - intros Hid Hnew.
    assert (H1 : Client.on_new_message m1 prev = prev ++ [Client.normalize m1]).
    { unfold Client.on_new_message. cbv zeta.
      destruct (existsb _ prev) eqn:E; [|reflexivity].
      apply client_exists_id in E. contradiction. }
    rewrite H1. unfold Client.on_new_message. cbv zeta.
    assert (E : existsb (fun msg => jstring_eqb (Client._id msg)
                                      (Client._id (Client.normalize m2)))
                        (prev ++ [Client.normalize m1]) = true).
    { apply client_exists_id. unfold Client.ids. rewrite map_app, in_app_iff.
      right. left. cbn. exact Hid. }
    now rewrite E.
Qed.

Lemma client_step_anonymous (ev : Client.Event) (prev : list Client.AnonymousMessage) :
  Forall (fun m => Client.username m = str "Anonymous" /\ Client.isAnonymous m = true) prev ->
  Forall (fun m => Client.username m = str "Anonymous" /\ Client.isAnonymous m = true)
         (Client.step prev ev).
Proof.
  intros H. destruct ev as [l|m|]; simpl.
  - unfold Client.on_recent_messages. apply Forall_forall. intros x Hx.
    apply in_map_iff in Hx as (y & <- & _). now split.
  - unfold Client.on_new_message. cbv zeta. destruct (existsb _ prev); [assumption|].
    apply Forall_app. split; [assumption|]. constructor; [now split|constructor].
  - constructor.
Qed.

(** Whatever the server sends, the client shows no name: after any events,
    with any [username] and [isAnonymous] in their payloads, every entry of
    the list has the name 'Anonymous' and is marked anonymous. *)
Theorem client_always_anonymous (evs : list Client.Event) :
  Forall (fun m => Client.username m = str "Anonymous" /\ Client.isAnonymous m = true)
         (Client.run evs).
Proof.
  unfold Client.run.
  assert (H : forall init,
             Forall (fun m => Client.username m = str "Anonymous"
                              /\ Client.isAnonymous m = true) init ->
             Forall (fun m => Client.username m = str "Anonymous"
                              /\ Client.isAnonymous m = true)
                    (fold_left Client.step evs init)).
  { induction evs as [|ev evs IH]; intros init Hinit; simpl; [assumption|].
    apply IH. now apply client_step_anonymous. }
  apply H. constructor.
Qed.

(* ------------------------------------------------------------------ *)
(** ** The period tracker *)


Lemma bytes_eqb_eq (a b : list byte) : bytes_eqb a b = true -> a = b.
Proof.
  revert b. induction a as [|x a IH]; intros [|y b]; simpl; try congruence.
  intros H. apply andb_true_iff in H. destruct H as [Hx Hr].
  apply Byte.byte_dec_bl in Hx. apply IH in Hr. congruence.
Qed.


Lemma oid_eqb_left (a b c : ObjectId) :
  oid_eqb a b = true -> oid_eqb a c = oid_eqb b c.
Proof.
  unfold oid_eqb. intros H. apply bytes_eqb_eq in H. now rewrite H.
Qed.

Lemma DAY_pos : (0 < DAY)%Z.
Proof. reflexivity. Qed.

Lemma ceil_div_bounds (a b : Z) :
  (0 < b)%Z -> ((ceil_div a b - 1) * b < a <= ceil_div a b * b)%Z.
Proof.
  intros Hb. unfold ceil_div.
  pose proof (Z.div_mod (- a) b) as Hdm.
  pose proof (Z.mod_pos_bound (- a) b Hb) as Hm.
  assert (Hb' : b <> 0%Z) by lia. specialize (Hdm Hb').
  nia.
Qed.

(** The length of a cycle is the number of days begun between the two
    starts, for starts less than 2^53 milliseconds apart (about 285,000
    years; up to there the subtraction and the division of the source are
    exact enough for [Math.ceil]): no day begun for the same instant, [n]
    days for anything longer than [n - 1] whole days and at most [n]; the
    order of the two starts does not matter, and an Invalid Date gives no
    number. *)
Theorem cycle_length_counts_begun_days (this : Period) (next : Z)
    (Hexact : (Z.abs (next - startDate this) < 2 ^ 53)%Z) :
  calculateCycleLength this None = None
  /\ exists n,
       calculateCycleLength this (Some next) = Some n
       /\ ((n - 1) * DAY < Z.abs (next - startDate this) <= n * DAY)%Z
       /\ (0 <= n < 2 ^ 27)%Z
       /\ (n = 0%Z <-> next = startDate this)
       /\ (forall other, startDate other = next ->
             calculateCycleLength other (Some (startDate this)) = Some n).
Proof.
  split; [reflexivity|].
  unfold calculateCycleLength. cbv zeta.
  exists (ceil_div (Z.abs (next - startDate this)) DAY).
  pose proof (ceil_div_bounds (Z.abs (next - startDate this)) DAY_pos) as Hb.
  pose proof DAY_pos as Hd.
  split; [reflexivity|]. split; [exact Hb|].
  split; [|split].
  - split; [nia|].
    assert (H53 : (2 ^ 53 < 2 ^ 27 * DAY)%Z) by reflexivity.
    nia.
  - split; intros H.
    + rewrite H in Hb. lia.
    + subst next. rewrite Z.sub_diag. reflexivity.
  - intros other ->. do 2 f_equal. lia.
Qed.

Lemma round_div_bounds (s n lo hi : Z) :
  (0 < n)%Z -> (n * lo <= s <= n * hi)%Z -> (lo <= round_div s n <= hi)%Z.
Proof.
  intros Hn Hs. unfold round_div. split.
  - apply Z.div_le_lower_bound; nia.
  - apply Z.lt_succ_r. apply Z.div_lt_upper_bound; nia.
Qed.

Lemma insert_by_start_In (p x : Period) (l : list Period) :
  In x (insert_by_start p l) -> x = p \/ In x l.
Proof.
  induction l as [|y l IH]; simpl.
  - intros [H|[]]; auto.
  - destruct (startDate y <=? startDate p)%Z; simpl.
    + intros [H|[H|H]]; auto.
    + intros [H|H]; auto. destruct (IH H); auto.
Qed.

Lemma sort_start_desc_In (x : Period) (l : list Period) :
  In x (sort_start_desc l) -> In x l.
Proof.
  induction l as [|y l IH]; simpl; [auto|].
  intros H. apply insert_by_start_In in H. destruct H; auto.
Qed.

Lemma firstn_In_period (x : Period) (n : nat) (l : list Period) :
  In x (firstn n l) -> In x l.
Proof.
  revert l. induction n as [|n IH]; intros [|y l]; simpl; auto; try tauto.
  intros [H|H]; auto.
Qed.

Lemma sum_lengths_bounds (lo hi : Z) (l : list Period) (acc : Z) :
  (forall p, In p l -> (lo <= length_or_zero p <= hi)%Z) ->
  (acc + Z.of_nat (List.length l) * lo
   <= fold_left (fun acc period => (acc + length_or_zero period)%Z) l acc
   <= acc + Z.of_nat (List.length l) * hi)%Z.
Proof.
  revert acc. induction l as [|p l IH]; intros acc H.
  - simpl. lia.
  - cbn [fold_left]. 
    specialize (IH (acc + length_or_zero p)%Z (fun q Hq => H q (or_intror Hq))).
    pose proof (H p (or_introl eq_refl)) as Hp.
    change (List.length (p :: l)) with (S (List.length l)).
    rewrite Nat2Z.inj_succ. nia.
Qed.

(** The average cycle length never leaves the range of the lengths the
    user has recorded, as soon as that range holds the default of 30 that
    is answered for fewer than three recorded cycles. *)
Theorem average_within_recorded_range (uid : ObjectId) (db : list Period) (lo hi : Z)
    (Hdefault : (lo <= 30 <= hi)%Z)
    (Hrecorded : lengths_within lo hi uid db) :
  (lo <= calculateAverageCycleLength uid db <= hi)%Z.
Proof.
  unfold calculateAverageCycleLength. cbv zeta.
  destruct (Nat.ltb (List.length (last_cycles uid db)) 3) eqn:Hlen; [exact Hdefault|].
  apply Nat.ltb_ge in Hlen.
  apply round_div_bounds; [lia|].
  assert (Hall : forall p, In p (last_cycles uid db) -> (lo <= length_or_zero p <= hi)%Z).
  { intros p Hp. unfold last_cycles in Hp.
    apply firstn_In_period, sort_start_desc_In, filter_In in Hp.
    destruct Hp as [Hin Hp]. apply andb_true_iff in Hp. destruct Hp as [Hu Hl].
    unfold has_length in Hl. unfold length_or_zero.
    destruct (cycleLength p) as [n|] eqn:Hn; [|discriminate].
    exact (Hrecorded p n Hin Hu Hn). }
  pose proof (@sum_lengths_bounds lo hi (last_cycles uid db) 0 Hall) as Hsum.
  lia.
Qed.

(** With fewer than three recorded cycles the average is the default of 30
    whatever the recorded lengths are, and cycles of other users or without
    a length do not count. *)
Theorem average_needs_three_cycles (uid : ObjectId) (db : list Period)
    (Hfew : (List.length (filter (fun p => oid_eqb (p_userId p) uid && has_length p) db) < 3)%nat) :
  calculateAverageCycleLength uid db = 30%Z.
Proof.
  unfold calculateAverageCycleLength. cbv zeta.
  assert (Hlen : (List.length (last_cycles uid db) < 3)%nat).
  { unfold last_cycles. 
    set (l := filter _ db) in *.
    assert (Hs : forall l0, List.length (sort_start_desc l0) = List.length l0).
    { assert (Hi : forall p l0, List.length (insert_by_start p l0) = S (List.length l0)).
      { intros p l0. induction l0 as [|y l0 IH]; simpl; [reflexivity|].
        destruct (startDate y <=? startDate p)%Z; simpl; [reflexivity|now rewrite IH]. }
      induction l0 as [|y l0 IH]; simpl; [reflexivity|]. now rewrite Hi, IH. }
    rewrite length_firstn, Hs. lia. }
  apply Nat.ltb_lt in Hlen. now rewrite Hlen.
Qed.




Lemma existsb_replace_period (fresh : ObjectId) (c : Period) (db : list Period) :
  existsb (fun q => oid_eqb (p_id q) fresh) (replace_period c db)
  = existsb (fun q => oid_eqb (p_id q) fresh) db.
Proof.
  unfold replace_period. induction db as [|q db IH]; simpl; [reflexivity|].
  rewrite IH. f_equal.
  destruct (oid_eqb (p_id q) (p_id c)) eqn:E; [|reflexivity].
  symmetry. now apply oid_eqb_left.
Qed.

Lemma unusual_cycle_invalid (this : Period) (d : Z) :
  (Z.abs (d - startDate this) <= 20 * DAY \/ 45 * DAY < Z.abs (d - startDate this))%Z ->
  valid_cycleLength (calculateCycleLength this (Some d)) = false.
Proof.
  intros Hgap. unfold calculateCycleLength, valid_cycleLength. cbv zeta.
  pose proof (ceil_div_bounds (Z.abs (d - startDate this)) DAY_pos) as Hb.
  pose proof DAY_pos as Hd.
  apply andb_false_iff. destruct Hgap as [Hshort|Hlong].
  - left. apply Z.leb_gt. nia.
  - right. apply Z.leb_gt. nia.
Qed.






Section PeriodFacts.

Variable toDate : JsVal -> option Z.
Variable addDays : Z -> Z -> option Z.
Variable castObjectId : jstring -> option ObjectId.

(** Starting a period while a cycle is active fails with status 500
    and leaves the collection as it was when the new start is at most 20
    days or more than 45 days from the start of the active cycle: the
    length computed for the active cycle does not pass the validators. *)
Theorem period_start_refuses_unusual_cycle
    (userId : jstring) (uid : ObjectId) (body v : JsVal) (d today : Z)
    (fresh : ObjectId) (db : list Period) (activeCycle : Period)
    (Hid : castObjectId userId = Some uid)
    (Hbody : get_field "startDate" body = Some v)
    (Hv : truthy v = true)
    (Hdate : toDate v = Some d)
    (Hpast : (d <= today)%Z)
    (Hactive : find_active uid db = Some activeCycle)
    (Hgap : (Z.abs (d - startDate activeCycle) <= 20 * DAY
             \/ 45 * DAY < Z.abs (d - startDate activeCycle))%Z) :
  period_start toDate addDays castObjectId userId body today fresh db
  = (db, (500, error_body "Failed to log period")).
Proof.
  destruct body; try discriminate Hbody.
  unfold period_start. rewrite Hbody, Hv, Hdate, Hid, Hactive.
  cbv zeta. cbn [negb].
  replace (today <? d)%Z with false by (symmetry; apply Z.ltb_ge; exact Hpast).
  rewrite (@unusual_cycle_invalid activeCycle d Hgap). reflexivity.
Qed.


Ltac closed_cases :=
  repeat match goal with
         | H : match find_active ?o ?db with _ => _ end = Some _ |- _ =>
             destruct (find_active o db) eqn:?
         | H : (if ?c then _ else _) = Some _ |- _ => destruct c eqn:?
         | H : Some _ = Some _ |- _ => injection H as H; subst
         | H : None = Some _ |- _ => discriminate H
         | H : valid_cycleLength (calculateCycleLength _ None) = true |- _ =>
             discriminate H
         end.

Lemma last_cycles_within (lo hi : Z) (uid : ObjectId) (db : list Period) :
  lengths_within lo hi uid db ->
  forall p, In p (last_cycles uid db) -> (lo <= length_or_zero p <= hi)%Z.
Proof.
  intros Hrecorded p Hp. unfold last_cycles in Hp.
  apply firstn_In_period, sort_start_desc_In, filter_In in Hp.
  destruct Hp as [Hin Hp]. apply andb_true_iff in Hp. destruct Hp as [Hu Hl].
  unfold has_length in Hl. unfold length_or_zero.
  destruct (cycleLength p) as [n|] eqn:Hn; [|discriminate].
  exact (Hrecorded p n Hin Hu Hn).
Qed.

Lemma average_of_validated (uid : ObjectId) (db : list Period) :
  lengths_within 21 45 uid db ->
  (21 <= calculateAverageCycleLength uid db <= 45)%Z.
Proof.
  intros Hrecorded. unfold calculateAverageCycleLength. cbv zeta.
  destruct (Nat.ltb (List.length (last_cycles uid db)) 3) eqn:Hlen; [lia|].
  apply Nat.ltb_ge in Hlen.
  pose proof (@sum_lengths_bounds 21 45 (last_cycles uid db) 0
                (last_cycles_within Hrecorded)) as Hsum.
  apply round_div_bounds; lia.
Qed.

(** Saving a document whose cycle length passes the validators keeps the
    recorded lengths within the validators' range. *)
Lemma replace_validated_lengths (uid : ObjectId) (c : Period) (db : list Period) :
  lengths_within 21 45 uid db ->
  valid_cycleLength (cycleLength c) = true ->
  lengths_within 21 45 uid (replace_period c db).
Proof.
  intros Hrecorded Hvalid p n Hin Hu Hn.
  unfold replace_period in Hin. apply in_map_iff in Hin.
  destruct Hin as (q & Hq & Hin).
  destruct (oid_eqb (p_id q) (p_id c)).
  - subst p. rewrite Hn in Hvalid.
    unfold valid_cycleLength in Hvalid. apply andb_true_iff in Hvalid.
    destruct Hvalid as [H1 H2]. apply Z.leb_le in H1, H2. lia.
  - subst q. exact (Hrecorded p n Hin Hu Hn).
Qed.

(** A start that is not answered 201 changes nothing, as long as the id of
    the new document is unused, the user's recorded cycle lengths are as
    the validators leave them, from 21 to 45, and the requested start lies
    far enough from the end of the range of Date for 21 to 45 days to be
    added to it: every refusal then happens before the first write. *)
Theorem period_start_refusal_keeps_store
    (userId : jstring) (body : JsVal) (today : Z) (fresh : ObjectId) (db : list Period)
    (Hfresh : existsb (fun q => oid_eqb (p_id q) fresh) db = false)
    (Hlengths : forall uid, castObjectId userId = Some uid -> lengths_within 21 45 uid db)
    (Hrange : forall v d n,
        get_field "startDate" body = Some v -> toDate v = Some d ->
        (21 <= n <= 45)%Z -> addDays d n <> None)
    (Hstatus : fst (snd (period_start toDate addDays castObjectId userId body today fresh db))
               <> 201%nat) :
  fst (period_start toDate addDays castObjectId userId body today fresh db) = db.
Proof.
  revert Hstatus. unfold period_start. cbv zeta.
  destruct (get_field "startDate" body) as [v|] eqn:Hv.
  2:{ destruct body; cbn [truthy negb fst snd]; intros; reflexivity. }
  specialize (Hrange v).
  repeat match goal with
         | |- context [match ?x with _ => _ end] => destruct x eqn:?
         end;
    cbn [fst snd].
  all: intros Hstatus; try reflexivity; try (exfalso; apply Hstatus; reflexivity).
  all: closed_cases; try congruence.
  all: try match goal with
           | H : predictNextPeriod addDays (Some ?d) (calculateAverageCycleLength ?o ?l) = None
             |- _ =>
               exfalso; unfold predictNextPeriod in H;
               apply (Hrange d (calculateAverageCycleLength o l) eq_refl eq_refl);
               [|exact H];
               apply average_of_validated;
               first [now apply Hlengths
                     |apply replace_validated_lengths; [now apply Hlengths|];
                      match goal with
                      | Hvalid : valid_cycleLength _ = true |- _ => exact Hvalid
                      end]
           end.
  all: try congruence.
  all: rewrite existsb_replace_period in *; congruence.
Qed.


End PeriodFacts.

(* ------------------------------------------------------------------ *)
(** ** Worked examples of the further properties *)

(** A history request without a token is answered 401. *)
Lemma unauthenticated_rejected_witness :
  handle sample_verify cast_hex (GetMessages no_token) three_messages
  = (Returned tt, three_messages, [Respond 401 (error_body "Access token required")]).
Proof.
  exact (proj1 (@unauthenticated_rejected sample_verify cast_hex (GetMessages no_token)
                  no_token three_messages eq_refl) eq_refl).
Defined.

Lemma alice_authenticated_page (limit page : Z) :
  authenticated sample_verify (get_page limit page) alice_decoded.
Proof.
  exists (str "Bearer token-alice"), (str "token-alice").
  split; [reflexivity|]. split; [reflexivity|]. split; [discriminate|reflexivity].
Defined.

Lemma three_messages_distinct : distinct_timestamps (messages three_messages).
Proof. repeat constructor; simpl; intuition discriminate. Defined.

Lemma three_messages_order : database_order (messages three_messages) [msgC; msgB; msgA].
Proof.
  split.
  - change (Permutation [msgA; msgB; msgC] (rev [msgA; msgB; msgC])). apply Permutation_rev.
  - repeat constructor; unfold newer_first; simpl; lia.
Defined.

(** Pages of two over the three messages: C and B, then A. *)
Lemma pages_are_consecutive_witness :
  exists msgs msgs',
    get_chat_messages sample_verify (get_page 2 1) three_messages
    = (Returned tt, three_messages, [Respond 200 (page_body alice_decoded 2 msgs)])
    /\ get_chat_messages sample_verify (get_page 2 2) three_messages
       = (Returned tt, three_messages, [Respond 200 (page_body alice_decoded 2 msgs')])
    /\ msgs ++ msgs' = [msgC; msgB; msgA].
Proof.
  destruct (@pages_are_consecutive sample_verify (get_page 2 1) (get_page 2 2) alice_decoded
              2 1 three_messages [msgC; msgB; msgA]
              (alice_authenticated_page 2 1) (alice_authenticated_page 2 2)
              eq_refl eq_refl eq_refl eq_refl eq_refl
              (Z.le_refl 1) three_messages_distinct three_messages_order)
    as (msgs & msgs' & H1 & H2 & H3 & _).
  exists msgs, msgs'. split; [exact H1|]. split; [exact H2|exact H3].
Defined.

(** A request without query parameters gets the first 50. *)
Lemma query_parameter_edges_witness :
  get_chat_messages sample_verify post_hello three_messages
  = (Returned tt, three_messages,
     [Respond 200 (page_body alice_decoded 50 [msgC; msgB; msgA])]).
Proof.
  refine (proj1 (proj2 (@query_parameter_edges sample_verify post_hello alice_decoded 50 1
                          three_messages [msgC; msgB; msgA] alice_authenticated
                          (or_introl (conj (or_introl eq_refl) eq_refl))
                          (or_introl (conj (or_introl eq_refl) eq_refl))
                          eq_refl three_messages_distinct three_messages_order))
                (Z.le_refl 1)).
Defined.

Lemma two_tabs_consistent : presence_consistent two_tabs.
Proof.
  split.
  - repeat constructor; simpl; intuition discriminate.
  - intros k info [H|[]]. injection H as <- <-.
    exists socketA2. split; [now left|]. split; reflexivity.
Defined.

(** Alice's second tab closes: her first tab stays registered without an
    entry. *)
Lemma other_tab_loses_entry_witness :
  let w' := world_of (dispatch sample_verify cast_hex (Disconnect (str "sA2")) two_tabs) in
  find_socket (str "sA") (sockets w') = Some socketA
  /\ Map_get alice_id (connectedUsers w') = None.
Proof.
  pose proof (@other_tab_loses_entry sample_verify cast_hex (str "sA") (str "sA2")
                socketA socketA2 two_tabs two_tabs_consistent eq_refl eq_refl) as H.
  cbv zeta in H |- *.
  assert (Hne : str "sA" <> str "sA2") by discriminate.
  destruct (H Hne eq_refl) as [H1 [H2 _]]. split; assumption.
Defined.

(** Alice's token verifies but her document is gone. *)
Lemma unresolved_identity_cannot_send_witness :
  dispatch sample_verify cast_hex (Connect (str "sA") (JStr (str "token-alice"))) no_users
  = (Returned tt,
     mkWorld [] [] [] [mkSocket (str "sA") alice_id (u_email alice) None], []).
Proof.
  assert (Hne : str "token-alice" <> []) by discriminate.
  exact (proj1 (@unresolved_identity_cannot_send sample_verify cast_hex (str "sA")
                  (str "token-alice") alice_decoded no_users Hne eq_refl
                  (fun uid _ => eq_refl) eq_refl)).
Defined.

(** A start 28 days and one millisecond after the start of the cycle. *)
Lemma cycle_length_counts_begun_days_witness :
  exists n, calculateCycleLength cycle_june (Some (day 128 + 1)%Z) = Some n
            /\ ((n - 1) * DAY < Z.abs (day 128 + 1 - startDate cycle_june) <= n * DAY)%Z.
Proof.
  assert (Hexact : (Z.abs (day 128 + 1 - startDate cycle_june) < 2 ^ 53)%Z) by reflexivity.
  destruct (proj2 (@cycle_length_counts_begun_days cycle_june (day 128 + 1)%Z Hexact))
    as (n & H1 & H2 & _).
  exists n. split; assumption.
Defined.

Lemma three_cycles_within : lengths_within 28 30 (u_id alice) three_cycles.
Proof.
  intros p n Hin _ Hn.
  destruct Hin as [<-|[<-|[<-|[]]]]; simpl in Hn; injection Hn as <-; lia.
Defined.

(** The average of 28, 30 and 29 lies between 28 and 30. *)
Lemma average_within_recorded_range_witness :
  (28 <= calculateAverageCycleLength (u_id alice) three_cycles <= 30)%Z.
Proof.
  apply (@average_within_recorded_range (u_id alice) three_cycles 28 30);
    [lia|exact three_cycles_within].
Defined.

(** One open cycle and nothing recorded: the default. *)
Lemma average_needs_three_cycles_witness :
  calculateAverageCycleLength (u_id alice) [cycle_june] = 30%Z.
Proof.
  apply (@average_needs_three_cycles (u_id alice) [cycle_june]).
  vm_compute. lia.
Defined.

(** A start 60 days after the start of the active cycle is refused. *)
Lemma period_start_refuses_unusual_cycle_witness :
  period_start to_date_sample add_days_sample cast_hex alice_id (start_on (day 160))
               (day 200) (oid_of_N 305) [cycle_june]
  = ([cycle_june], (500%nat, error_body "Failed to log period")).
Proof.
  apply (@period_start_refuses_unusual_cycle to_date_sample add_days_sample cast_hex
           alice_id (u_id alice) (start_on (day 160)) (JNum (day 160)) (day 160) (day 200)
           (oid_of_N 305) [cycle_june] cycle_june);
    try reflexivity.
  - discriminate.
  - right. reflexivity.
Defined.

(** A start dated after the request is refused and changes nothing. *)
Lemma period_start_refusal_keeps_store_witness :
  fst (period_start to_date_sample add_days_sample cast_hex alice_id (start_on (day 201))
                    (day 200) (oid_of_N 305) [cycle_june])
  = [cycle_june].
Proof.
  apply (@period_start_refusal_keeps_store to_date_sample add_days_sample cast_hex
           alice_id (start_on (day 201)) (day 200) (oid_of_N 305) [cycle_june]).
  - reflexivity.
  - intros uid _ p n [<-|[]] _ Hn. discriminate Hn.
  - intros v d n _ _ _. discriminate.
  - vm_compute. discriminate.
Defined.



(* ------------------------------------------------------------------ *)
(** ** The connection handler, await by await *)

Lemma find_pending_head (id : jstring) (socket : Socket) (a : Await) (open : bool)
    (p : list Pending) :
  sock_id socket = id ->
  find_pending id a (mkPending socket a open :: p) = Some (mkPending socket a open).
Proof.
  intros <-. unfold find_pending. cbn [find pend_id pend_socket pend_await].
  rewrite jstring_eqb_refl. now destruct a.
Qed.

Lemma find_pending_In (id : jstring) (a : Await) (p : list Pending) (q : Pending) :
  find_pending id a p = Some q -> In q p /\ pend_id q = id /\ pend_await q = a.
Proof.
  unfold find_pending. intros H. apply find_some in H as [Hin E].
  apply andb_true_iff in E as [E1 E2]. apply jstring_eqb_eq in E1.
  split; [assumption|]. split; [assumption|].
  destruct (pend_await q), a; try discriminate; reflexivity.
Qed.


Lemma remove_pending_absent (id : jstring) (p : list Pending) :
  ~ In id (map pend_id p) -> remove_pending id p = p.
Proof.
  unfold remove_pending. induction p as [|q p IH]; simpl; [reflexivity|].
  intros Hnot. destruct (jstring_eqb (pend_id q) id) eqn:E.
  - apply jstring_eqb_eq in E. exfalso. apply Hnot. now left.
  - simpl. f_equal. apply IH. intros Hin. apply Hnot. now right.
Qed.

Lemma close_pending_absent (id : jstring) (p : list Pending) :
  ~ In id (map pend_id p) -> close_pending id p = p.
Proof.
  unfold close_pending. induction p as [|q p IH]; simpl; [reflexivity|].
  intros Hnot. destruct (jstring_eqb (pend_id q) id) eqn:E.
  - apply jstring_eqb_eq in E. exfalso. apply Hnot. now left.
  - f_equal. apply IH. intros Hin. apply Hnot. now right.
Qed.

Section InterleavingFacts.

Variable jwt_verify : jstring -> option Decoded.
Variable castObjectId : jstring -> option ObjectId.

Lemma connection_user_resolved (socket : Socket) (uid : ObjectId) (user : User) (w : World) :
  castObjectId (sock_userId socket) = Some uid ->
  find (fun u => oid_eqb (u_id u) uid) (users w) = Some user ->
  connection_user castObjectId socket w
  = (Returned (mkSocket (sock_id socket) (sock_userId socket) (sock_userEmail socket)
                        (Some (u_name user)), true),
     set_presence (Map_set (sock_userId socket)
                           (mkUserInfo (sock_id socket) (u_name user) (u_email user))
                           (connectedUsers w)) w,
     []).
Proof.
  intros Hcast Hfind. unfold connection_user, try_catch.
  unfold bind at 1. unfold User_findById. rewrite Hcast. unfold gets at 1. rewrite Hfind.
  reflexivity.
Qed.

Lemma connection_user_cases (socket : Socket) (w : World) :
  (exists uid user,
      castObjectId (sock_userId socket) = Some uid
      /\ find (fun u => oid_eqb (u_id u) uid) (users w) = Some user)
  \/ (connection_user castObjectId socket w = (Returned (socket, false), w, [])
      /\ on_connection castObjectId socket w = (Returned socket, w, [])).
Proof.
  destruct (castObjectId (sock_userId socket)) as [uid|] eqn:Hcast.
  - destruct (find (fun u => oid_eqb (u_id u) uid) (users w)) as [user|] eqn:Hfind.
    + left. now exists uid, user.
    + right. unfold connection_user, on_connection, try_catch. unfold bind at 1 3.
      unfold User_findById. rewrite Hcast. unfold gets at 1 2. now rewrite Hfind.
  - right. unfold connection_user, on_connection, try_catch. unfold bind at 1 3.
    unfold User_findById. now rewrite Hcast.
Qed.

Lemma connection_recent_emits (socket : Socket) (w : World) :
  connection_recent socket w
  = (Returned tt, w,
     [Emit (ToSocket (sock_id socket)) "recent_messages"
           (JArr (rev (map (fun msg => anonymizeMessage msg (Some (sock_userId socket)))
                           (snapshot w))))]).
Proof. reflexivity. Qed.

Lemma run_ticks_cons (t : Tick) (ts : list Tick) (p : list Pending) (w : World) :
  run_ticks jwt_verify castObjectId (t :: ts) p w
  = match tick jwt_verify castObjectId t p w with
    | (Returned p', w1, t1) =>
        match run_ticks jwt_verify castObjectId ts p' w1 with
        | (o, w2, t2) => (o, w2, t1 ++ t2)
        end
    | (Thrown e, w1, t1) => (Thrown e, w1, t1)
    end.
Proof. reflexivity. Qed.

Lemma tick_handshake (id : jstring) (token : JsVal) (socket : Socket)
    (p : list Pending) (w : World) :
  authenticateSocket jwt_verify id token = Some socket ->
  tick jwt_verify castObjectId (Arrives (Connect id token)) p w
  = (Returned (mkPending socket AwaitUser true :: p), w, []).
Proof. intros H. cbn [tick]. now rewrite H. Qed.

Lemma tick_refused (id : jstring) (token : JsVal) (p : list Pending) (w : World) :
  authenticateSocket jwt_verify id token = None ->
  tick jwt_verify castObjectId (Arrives (Connect id token)) p w = (Returned p, w, []).
Proof. intros H. cbn [tick]. now rewrite H. Qed.

Lemma tick_user_resolved (id : jstring) (q : Pending) (uid : ObjectId) (user : User)
    (p : list Pending) (w : World) :
  find_pending id AwaitUser p = Some q ->
  castObjectId (sock_userId (pend_socket q)) = Some uid ->
  find (fun u => oid_eqb (u_id u) uid) (users w) = Some user ->
  tick jwt_verify castObjectId (UserAnswers id) p w
  = (Returned (mkPending (mkSocket id (sock_userId (pend_socket q))
                                   (sock_userEmail (pend_socket q)) (Some (u_name user)))
                         AwaitRecent (pend_open q)
               :: remove_pending id p),
     set_presence (Map_set (sock_userId (pend_socket q))
                           (mkUserInfo id (u_name user) (u_email user))
                           (connectedUsers w)) w,
     []).
Proof.
  intros Hq Hcast Hfind. cbn [tick]. rewrite Hq.
  apply find_pending_In in Hq as (_ & Hid & _). unfold pend_id in Hid.
  subst id. unfold bind.
  rewrite connection_user_resolved with (uid := uid) (user := user) by assumption.
  reflexivity.
Qed.

(** The end of the handler on the world: the socket's listeners are
    registered when the connection is still open. *)
Lemma tick_user_unresolved (id : jstring) (q : Pending) (p : list Pending) (w : World) :
  find_pending id AwaitUser p = Some q ->
  connection_user castObjectId (pend_socket q) w = (Returned (pend_socket q, false), w, []) ->
  tick jwt_verify castObjectId (UserAnswers id) p w
  = (Returned (remove_pending id p),
     (if pend_open q
      then mkWorld (users w) (messages w) (connectedUsers w)
                   (pend_socket q :: unregister id (sockets w))
      else w),
     []).
Proof.
  intros Hq Hu. cbn [tick]. rewrite Hq.
  apply find_pending_In in Hq as (_ & Hid & _). unfold pend_id in Hid.
  subst id. unfold bind at 1. rewrite Hu. cbn [fst snd].
  destruct (pend_open q); reflexivity.
Qed.

Lemma tick_recent (id : jstring) (q : Pending) (p : list Pending) (w : World) :
  find_pending id AwaitRecent p = Some q ->
  tick jwt_verify castObjectId (RecentAnswers id) p w
  = (Returned (remove_pending id p),
     (if pend_open q
      then mkWorld (users w) (messages w) (connectedUsers w)
                   (pend_socket q :: unregister id (sockets w))
      else w),
     [Emit (ToSocket id) "recent_messages"
           (JArr (rev (map (fun msg => anonymizeMessage msg
                                         (Some (sock_userId (pend_socket q))))
                           (snapshot w))))]).
Proof.
  intros Hq. cbn [tick]. rewrite Hq.
  apply find_pending_In in Hq as (_ & Hid & _). unfold pend_id in Hid.
  subst id. unfold bind at 1. rewrite connection_recent_emits.
  destruct (pend_open q); reflexivity.
Qed.

Lemma tick_no_handler (id : jstring) (p : list Pending) (w : World) :
  (find_pending id AwaitUser p = None ->
   tick jwt_verify castObjectId (UserAnswers id) p w = (Returned p, w, []))
  /\ (find_pending id AwaitRecent p = None ->
      tick jwt_verify castObjectId (RecentAnswers id) p w = (Returned p, w, [])).
Proof. split; intros H; cbn [tick]; now rewrite H. Qed.

Lemma remove_pending_head (id : jstring) (q : Pending) (p : list Pending) :
  pend_id q = id -> ~ In id (map pend_id p) -> remove_pending id (q :: p) = p.
Proof.
  intros Hq Hnot. unfold remove_pending. cbn [filter].
  rewrite Hq, jstring_eqb_refl. cbn [negb].
  now apply remove_pending_absent.
Qed.


Lemma tick_unregistered (ev : Event) (p : list Pending) (w : World) :
  is_connect ev = false ->
  find_socket (event_socket ev) (sockets w) = None ->
  ~ In (event_socket ev) (map pend_id p) ->
  tick jwt_verify castObjectId (Arrives ev) p w = (Returned p, w, []).
Proof.
  intros Hev Hnone Hnot.
  pose proof (@dispatch_unregistered jwt_verify castObjectId ev w Hev Hnone) as Hd.
  destruct ev; try discriminate Hev; cbn [tick]; unfold bind; rewrite Hd;
    try reflexivity.
  cbn [event_socket] in Hnot. unfold ret. now rewrite close_pending_absent.
Qed.

Lemma run_ticks_unregistered (id : jstring) (evs : list Event) (p : list Pending)
    (w : World) :
  find_socket id (sockets w) = None ->
  ~ In id (map pend_id p) ->
  Forall (fun ev => event_socket ev = id /\ is_connect ev = false) evs ->
  run_ticks jwt_verify castObjectId (map Arrives evs) p w = (Returned p, w, []).
Proof.
  intros Hnone Hnot Hall. induction Hall as [|ev evs [Hid Hev] _ IH]; [reflexivity|].
  cbn [map]. rewrite run_ticks_cons.
  rewrite tick_unregistered by (rewrite ?Hid; assumption).
  now rewrite IH.
Qed.

(** C8, as the code has it.  A handshake whose token verifies starts the
    connection handler, which is suspended at the lookup of the user.  When
    the lookup answers with the user's document, the identity gets its
    entry in [connectedUsers], pointing at the connection.  The disconnect
    event of a connection whose listeners are registered deletes the entry
    of its identity.  So a connection whose user is found and whose handler
    runs to its end before the connection closes has its entry from the
    lookup to the disconnect.  A connection whose credential fails
    verification gets no handler and no entry: the handshake and every later
    event of that connection leave the store and the presence map as they
    were and produce no action. *)
Theorem presence_lifecycle :
  (forall id t decoded p w,
      t <> [] -> jwt_verify t = Some decoded ->
      tick jwt_verify castObjectId (Arrives (Connect id (JStr t))) p w
      = (Returned (mkPending (mkSocket id (d_userId decoded) (d_email decoded) None)
                             AwaitUser true :: p),
         w, []))
  /\ (forall id q uid user p w,
        find_pending id AwaitUser p = Some q ->
        castObjectId (sock_userId (pend_socket q)) = Some uid ->
        find (fun u => oid_eqb (u_id u) uid) (users w) = Some user ->
        let w' := world_of (tick jwt_verify castObjectId (UserAnswers id) p w) in
        Map_get (sock_userId (pend_socket q)) (connectedUsers w')
        = Some (mkUserInfo id (u_name user) (u_email user)))
  /\ (forall id socket p w,
        find_socket id (sockets w) = Some socket ->
        let w' := world_of (tick jwt_verify castObjectId (Arrives (Disconnect id)) p w) in
        Map_get (sock_userId socket) (connectedUsers w') = None
        /\ find_socket id (sockets w') = None)
  /\ (forall id t decoded uid user p w,
        t <> [] -> jwt_verify t = Some decoded ->
        castObjectId (d_userId decoded) = Some uid ->
        find (fun u => oid_eqb (u_id u) uid) (users w) = Some user ->
        ~ In id (map pend_id p) ->
        let connected :=
          world_of (run_ticks jwt_verify castObjectId
                      [Arrives (Connect id (JStr t)); UserAnswers id; RecentAnswers id] p w) in
        Map_get (d_userId decoded) (connectedUsers connected)
        = Some (mkUserInfo id (u_name user) (u_email user))
        /\ find_socket id (sockets connected)
           = Some (mkSocket id (d_userId decoded) (d_email decoded) (Some (u_name user)))
        /\ Map_get (d_userId decoded)
             (connectedUsers
                (world_of (tick jwt_verify castObjectId (Arrives (Disconnect id)) p connected)))
           = None)
  /\ (forall id token evs p w,
        fails_verification jwt_verify token ->
        find_socket id (sockets w) = None ->
        ~ In id (map pend_id p) ->
        Forall (fun ev => event_socket ev = id /\ is_connect ev = false) evs ->
        run_ticks jwt_verify castObjectId (Arrives (Connect id token) :: map Arrives evs) p w
        = (Returned p, w, [])).
Proof.
  assert (Hhandshake : forall id t decoded,
             t <> [] -> jwt_verify t = Some decoded ->
             authenticateSocket jwt_verify id (JStr t)
             = Some (mkSocket id (d_userId decoded) (d_email decoded) None)).
  { intros id t decoded Ht Hv. unfold authenticateSocket.
    assert (truthy (JStr t) = true) as -> by (destruct t; [congruence|reflexivity]).
    cbn [negb]. now rewrite Hv. }
  assert (Hdisconnect : forall id socket p w,
             find_socket id (sockets w) = Some socket ->
             let w' := world_of (tick jwt_verify castObjectId (Arrives (Disconnect id)) p w) in
             Map_get (sock_userId socket) (connectedUsers w') = None
             /\ find_socket id (sockets w') = None).
  { intros id socket p w Hfind w'. subst w'. cbn [tick dispatch].
    rewrite world_of_bind. rewrite with_socket_cases, Hfind.
    cbn. split; [apply Map_get_delete|apply find_socket_unregister]. }
  split; [|split; [|split; [|split]]].
  - intros id t decoded p w Ht Hv. apply tick_handshake. now apply Hhandshake.
  - intros id q uid user p w Hq Hcast Hfind w'. subst w'.
    rewrite tick_user_resolved with (q := q) (uid := uid) (user := user) by assumption.
    cbn [world_of fst snd set_presence connectedUsers]. apply Map_get_set.
  - exact Hdisconnect.
  - intros id t decoded uid user p w Ht Hv Hcast Hfind Hfresh connected.
    assert (Hconnected :
              connected
              = mkWorld (users w) (messages w)
                  (Map_set (d_userId decoded) (mkUserInfo id (u_name user) (u_email user))
                           (connectedUsers w))
                  (mkSocket id (d_userId decoded) (d_email decoded) (Some (u_name user))
                   :: unregister id (sockets w))).
    { subst connected. rewrite run_ticks_cons.
      rewrite tick_handshake
        with (socket := mkSocket id (d_userId decoded) (d_email decoded) None)
        by now apply Hhandshake.
      rewrite run_ticks_cons.
      rewrite tick_user_resolved
        with (q := mkPending (mkSocket id (d_userId decoded) (d_email decoded) None)
                             AwaitUser true) (uid := uid) (user := user);
        [|now apply find_pending_head|assumption..].
      cbn [pend_socket pend_open sock_userId sock_userEmail].
      rewrite remove_pending_head by first [assumption|reflexivity].
      rewrite run_ticks_cons.
      rewrite tick_recent
        with (q := mkPending (mkSocket id (d_userId decoded) (d_email decoded)
                                       (Some (u_name user))) AwaitRecent true);
        [|now apply find_pending_head].
      reflexivity. }
    assert (Hsocket : find_socket id (sockets connected)
                      = Some (mkSocket id (d_userId decoded) (d_email decoded)
                                       (Some (u_name user)))).
    { rewrite Hconnected. cbn [sockets find_socket find sock_id].
      now rewrite jstring_eqb_refl. }
    split; [rewrite Hconnected; cbn [connectedUsers]; apply Map_get_set|].
    split; [exact Hsocket|].
    exact (proj1 (Hdisconnect id _ p connected Hsocket)).
  - intros id token evs p w Hfail Hnone Hnot Hall.
    rewrite run_ticks_cons.
    rewrite tick_refused by now apply authenticateSocket_refuses.
    now rewrite run_ticks_unregistered with (id := id).
Qed.

(** *** No stale entry *)

Lemma unregister_absent (id : jstring) (l : list Socket) :
  ~ In id (map sock_id l) -> unregister id l = l.
Proof.
  unfold unregister. induction l as [|s l IH]; simpl; [reflexivity|].
  intros Hnot. destruct (jstring_eqb (sock_id s) id) eqn:E.
  - apply jstring_eqb_eq in E. exfalso. apply Hnot. now left.
  - simpl. f_equal. apply IH. intros Hin. apply Hnot. now right.
Qed.

Lemma In_remove_pending (id : jstring) (q : Pending) (p : list Pending) :
  In q (remove_pending id p) <-> In q p /\ pend_id q <> id.
Proof.
  unfold remove_pending. rewrite filter_In. split; intros [Hin E]; split; try assumption.
  - apply negb_true_iff in E. intros Heq. rewrite Heq, jstring_eqb_refl in E. discriminate.
  - apply negb_true_iff. now apply jstring_eqb_neq.
Qed.

Lemma same_id_same_pending (p : list Pending) (a b : Pending) :
  NoDup (map pend_id p) -> In a p -> In b p -> pend_id a = pend_id b -> a = b.
Proof.
  induction p as [|q p IH]; simpl; [contradiction|].
  intros H Ha Hb E. inversion H as [|? ? Hq Hp]; subst.
  destruct Ha as [->|Ha], Hb as [->|Hb]; try reflexivity.
  - exfalso. apply Hq. rewrite E. now apply in_map.
  - exfalso. apply Hq. rewrite <- E. now apply in_map.
  - now apply IH.
Qed.

(** The ids of the suspended handlers, with the one of [q] put first. *)
Lemma pending_ids_split (q : Pending) (p : list Pending) :
  NoDup (map pend_id p) -> In q p ->
  Permutation (map pend_id p) (pend_id q :: map pend_id (remove_pending (pend_id q) p)).
Proof.
  induction p as [|a p IH]; cbn [map In]; [contradiction|].
  intros Hnd Hin. inversion Hnd as [|? ? Ha Hp]; subst.
  destruct Hin as [->|Hin].
  - rewrite remove_pending_head by (reflexivity || assumption). reflexivity.
  - assert (Hne : pend_id a <> pend_id q).
    { intros E. apply Ha. rewrite E. now apply in_map. }
    unfold remove_pending. cbn [filter]. fold (remove_pending (pend_id q) p).
    rewrite (jstring_eqb_neq Hne). cbn [negb map].
    rewrite (IH Hp Hin) at 1. apply perm_swap.
Qed.

Lemma open_sockets_all (w : World) (p : list Pending) :
  Forall (fun q => pend_open q = true) p ->
  open_sockets w p = sockets w ++ map pend_socket p.
Proof.
  intros Hopen. unfold open_sockets. do 2 f_equal.
  induction Hopen as [|q p Hq _ IH]; simpl; [reflexivity|]. now rewrite Hq, IH.
Qed.

Lemma presence_live_intro (w : World) (p : list Pending) :
  NoDup (map sock_id (sockets w) ++ map pend_id p) ->
  Forall (fun q => pend_open q = true) p ->
  (forall k info,
      In (k, info) (connectedUsers w) ->
      exists s, (In s (sockets w) \/ exists q, In q p /\ pend_socket q = s)
                /\ sock_id s = socketId info /\ sock_userId s = k) ->
  presence_live w p.
Proof.
  intros Hnd Hopen He. split; [assumption|]. split; [assumption|].
  intros k info Hin. destruct (He k info Hin) as (s & Hs & E1 & E2).
  exists s. split; [|now split].
  rewrite open_sockets_all by assumption. apply in_or_app.
  destruct Hs as [Hs|(q & Hq & <-)]; [now left|right; now apply in_map].
Qed.

Lemma presence_live_elim (w : World) (p : list Pending) :
  presence_live w p ->
  NoDup (map sock_id (sockets w)) /\ NoDup (map pend_id p)
  /\ (forall id, In id (map pend_id p) -> ~ In id (map sock_id (sockets w)))
  /\ Forall (fun q => pend_open q = true) p
  /\ (forall k info,
        In (k, info) (connectedUsers w) ->
        exists s, (In s (sockets w) \/ exists q, In q p /\ pend_socket q = s)
                  /\ sock_id s = socketId info /\ sock_userId s = k).
Proof.
  intros (Hnd & Hopen & He).
  split; [now apply NoDup_app_remove_r in Hnd|].
  split; [now apply NoDup_app_remove_l in Hnd|].
  split.
  { intros id Hp Hs. revert Hnd Hs Hp. generalize (map sock_id (sockets w)) as l.
    induction l as [|x l IH]; simpl; [contradiction|].
    intros Hnd [->|Hs] Hp.
    - inversion Hnd as [|? ? Hx _]; subst. apply Hx. apply in_or_app. now right.
    - inversion Hnd; subst. now apply IH. }
  split; [assumption|].
  intros k info Hin. destruct (He k info Hin) as (s & Hs & E1 & E2).
  exists s. split; [|now split].
  rewrite open_sockets_all in Hs by assumption. apply in_app_or in Hs.
  destruct Hs as [Hs|Hs]; [now left|right].
  apply in_map_iff in Hs as (q & Eq & Hq). now exists q.
Qed.

(** A socket event other than a handshake and a disconnect leaves the
    map and the registered sockets as they are. *)
Lemma dispatch_keeps_presence (ev : Event) (w : World) :
  match ev with
  | Connect _ _ | Disconnect _ => True
  | _ =>
      connectedUsers (world_of (dispatch jwt_verify castObjectId ev w)) = connectedUsers w
      /\ sockets (world_of (dispatch jwt_verify castObjectId ev w)) = sockets w
  end.
Proof.
  destruct ev as [id token|id data fresh now|id data|id|id]; try exact I; cbn [dispatch];
    rewrite with_socket_cases; destruct (find_socket id (sockets w)) as [socket|];
    try (split; reflexivity).
  - destruct (send_message_only_adds castObjectId socket data fresh now w)
      as [_ (_ & Hc & Hs & _)].
    now split.
  - now rewrite on_typing_world.
Qed.

Lemma NoDup_insert (x : jstring) (l1 l2 : list jstring) :
  NoDup (l1 ++ l2) -> ~ In x l1 -> ~ In x l2 -> NoDup (l1 ++ x :: l2).
Proof.
  intros Hnd H1 H2. eapply Permutation_NoDup; [apply Permutation_middle|].
  constructor; [|assumption].
  intros Hin. apply in_app_or in Hin. tauto.
Qed.

Lemma NoDup_unregister_app (id : jstring) (l : list Socket) (r : list jstring) :
  NoDup (map sock_id l ++ r) -> NoDup (map sock_id (unregister id l) ++ r).
Proof.
  unfold unregister. induction l as [|s l IH]; simpl; [trivial|].
  intros H. inversion H as [|? ? Hs Hl]; subst.
  destruct (negb (jstring_eqb (sock_id s) id)); simpl; [|now apply IH].
  constructor; [|now apply IH].
  intros Hin. apply Hs. apply in_app_or in Hin. apply in_or_app.
  destruct Hin as [Hin|Hin]; [left|now right].
  apply in_map_iff in Hin as (x & Ex & Hx).
  apply filter_In in Hx as [Hx _]. apply in_map_iff. now exists x.
Qed.

(** The handler of [q] reaches its [socket.on] calls: the connection
    moves from the suspended handlers to the registered sockets. *)
Lemma presence_live_registered (q : Pending) (p : list Pending) (w : World) :
  presence_live w p -> In q p ->
  presence_live
    (mkWorld (users w) (messages w) (connectedUsers w)
             (pend_socket q :: unregister (pend_id q) (sockets w)))
    (remove_pending (pend_id q) p).
Proof.
  intros Hlive Hin.
  destruct (@presence_live_elim w p Hlive) as (Hs & Hp & Hdisj & Hopen & He).
  destruct Hlive as (Hnd & _ & _).
  assert (Hnot : ~ In (pend_id q) (map sock_id (sockets w)))
    by (apply Hdisj; now apply in_map).
  rewrite unregister_absent by assumption.
  apply presence_live_intro; cbn [sockets connectedUsers map].
  - change (NoDup ((pend_id q :: map sock_id (sockets w))
                   ++ map pend_id (remove_pending (pend_id q) p))).
    eapply Permutation_NoDup; [|exact Hnd].
    rewrite (@pending_ids_split q p Hp Hin) at 1.
    symmetry. apply Permutation_middle.
  - apply Forall_forall. intros q0 Hq0. apply In_remove_pending in Hq0 as [Hq0 _].
    rewrite Forall_forall in Hopen. now apply Hopen.
  - intros k info Hk. destruct (He k info Hk) as (s & Hsock & E1 & E2).
    exists s. split; [|now split].
    destruct Hsock as [Hsock|(q0 & Hq0 & <-)]; [left; now right|].
    destruct (jstring_eqb (pend_id q0) (pend_id q)) eqn:E.
    + apply jstring_eqb_eq in E.
      rewrite (@same_id_same_pending p q0 q Hp Hq0 Hin E). left. now left.
    + right. exists q0. split; [|reflexivity]. apply In_remove_pending.
      split; [assumption|]. intros Heq. now rewrite Heq, jstring_eqb_refl in E.
Qed.

(** The lookup of the user of [q] answers with the document [user]: the
    entry is set, and the handler is suspended again. *)
Lemma presence_live_resolved (q : Pending) (user : User) (p : list Pending) (w : World) :
  presence_live w p -> In q p ->
  presence_live
    (set_presence (Map_set (sock_userId (pend_socket q))
                           (mkUserInfo (pend_id q) (u_name user) (u_email user))
                           (connectedUsers w)) w)
    (mkPending (mkSocket (pend_id q) (sock_userId (pend_socket q))
                         (sock_userEmail (pend_socket q)) (Some (u_name user)))
               AwaitRecent (pend_open q)
     :: remove_pending (pend_id q) p).
Proof.
  intros Hlive Hin.
  destruct (@presence_live_elim w p Hlive) as (Hs & Hp & Hdisj & Hopen & He).
  destruct Hlive as (Hnd & _ & _).
  set (socket' := mkSocket (pend_id q) (sock_userId (pend_socket q))
                           (sock_userEmail (pend_socket q)) (Some (u_name user))).
  set (q' := mkPending socket' AwaitRecent (pend_open q)).
  apply presence_live_intro; cbn [set_presence sockets connectedUsers map].
  - change (pend_id q') with (pend_id q).
    eapply Permutation_NoDup; [|exact Hnd].
    apply Permutation_app_head. apply (@pending_ids_split q p Hp Hin).
  - constructor.
    + cbn [pend_open q']. rewrite Forall_forall in Hopen. now apply Hopen.
    + apply Forall_forall. intros q0 Hq0. apply In_remove_pending in Hq0 as [Hq0 _].
      rewrite Forall_forall in Hopen. now apply Hopen.
  - intros k info Hk. apply In_Map_set in Hk as [[-> ->]|Hk].
    + exists socket'. split; [|now split].
      right. exists q'. split; [now left|reflexivity].
    + destruct (He k info Hk) as (s & Hsock & E1 & E2).
      destruct Hsock as [Hsock|(q0 & Hq0 & <-)].
      * exists s. split; [now left|now split].
      * destruct (jstring_eqb (pend_id q0) (pend_id q)) eqn:E.
        -- apply jstring_eqb_eq in E.
           pose proof (@same_id_same_pending p q0 q Hp Hq0 Hin E) as ->.
           exists socket'. split; [|now split].
           right. exists q'. split; [now left|reflexivity].
        -- exists (pend_socket q0). split; [|now split].
           right. exists q0. split; [|reflexivity]. right. apply In_remove_pending.
           split; [assumption|]. intros Heq. now rewrite Heq, jstring_eqb_refl in E.
Qed.

Lemma tick_presence (t : Tick) (p p' : list Pending) (w w' : World) (acts : list Action) :
  presence_live w p ->
  match t with
  | Arrives (Connect id _) =>
      ~ In id (map sock_id (sockets w)) /\ ~ In id (map pend_id p)
  | Arrives (Disconnect id) => ~ In id (map pend_id p)
  | _ => True
  end ->
  tick jwt_verify castObjectId t p w = (Returned p', w', acts) ->
  presence_live w' p'.
Proof.
  intros Hlive Hguard Htick.
  destruct (@presence_live_elim w p Hlive) as (Hs & Hp & Hdisj & Hopen & He).
  assert (Hsame : forall w1,
             connectedUsers w1 = connectedUsers w -> sockets w1 = sockets w ->
             presence_live w1 p).
  { intros w1 Hc Hk. unfold presence_live, open_sockets. rewrite Hc, Hk. exact Hlive. }
  assert (Hquiet : forall ev,
             match ev with Connect _ _ | Disconnect _ => False | _ => True end ->
             tick jwt_verify castObjectId (Arrives ev) p w = (Returned p', w', acts) ->
             presence_live w' p').
  { intros ev Hev H. pose proof (dispatch_keeps_presence ev w) as Hk.
    destruct ev; try contradiction; cbn [tick] in H; unfold bind in H;
      destruct (dispatch jwt_verify castObjectId _ w) as [[[[]|e] w1] t1];
      try discriminate H; cbn [world_of fst snd] in Hk;
      injection H as <- <- _; destruct Hk; now apply Hsame. }
  destruct t as [ev|id|id].
  - destruct ev as [id token|id data fresh now|id data|id|id];
      try (match type of Htick with
           | tick _ _ (Arrives ?ev) _ _ = _ => now apply (Hquiet ev I Htick)
           end).
    + destruct Hguard as [Hns Hnp].
      destruct (authenticateSocket jwt_verify id token) as [socket|] eqn:Ha.
      * rewrite tick_handshake with (socket := socket) in Htick by assumption.
        injection Htick as <- <- _. apply authenticateSocket_id in Ha.
        destruct Hlive as (Hnd & _ & _).
        apply presence_live_intro.
        -- cbn [map]. unfold pend_id at 1. cbn [pend_socket]. rewrite Ha.
           now apply NoDup_insert.
        -- constructor; [reflexivity|assumption].
        -- intros k info Hk. destruct (He k info Hk) as (s & Hsock & E1 & E2).
           exists s. split; [|now split].
           destruct Hsock as [Hsock|(q0 & Hq0 & <-)]; [now left|].
           right. exists q0. split; [now right|reflexivity].
      * rewrite tick_refused in Htick by assumption.
        injection Htick as <- <- _. exact Hlive.
    + cbn [tick dispatch] in Htick. unfold bind in Htick.
      rewrite with_socket_cases in Htick. rewrite close_pending_absent in Htick by assumption.
      destruct (find_socket id (sockets w)) as [socket|] eqn:Hf.
      * cbn in Htick. injection Htick as <- <- _.
        apply find_socket_In in Hf as [Hsock Hid]. destruct Hlive as (Hnd & _ & _).
        apply presence_live_intro; cbn [sockets connectedUsers].
        -- now apply NoDup_unregister_app.
        -- assumption.
        -- intros k info Hk. apply In_Map_delete in Hk as [Hk Hne].
           destruct (He k info Hk) as (s & Hsk & E1 & E2).
           exists s. split; [|now split].
           destruct Hsk as [Hsk|Hsk]; [left|now right].
           apply In_unregister; [assumption|].
           intros E. apply Hne. rewrite <- E2.
           f_equal. apply (same_id_same_socket (sockets w)); [assumption..|congruence].
      * injection Htick as <- <- _. exact Hlive.
  - destruct (find_pending id AwaitUser p) as [q|] eqn:Hq.
    + destruct (@find_pending_In _ _ _ _ Hq) as (Hin & Hid & _).
      destruct (connection_user_cases (pend_socket q) w)
        as [(uid & user & Hcast & Hfind)|[Hu _]].
      * rewrite tick_user_resolved with (q := q) (uid := uid) (user := user) in Htick
          by assumption.
        injection Htick as <- <- _. subst id. now apply presence_live_resolved.
      * rewrite tick_user_unresolved with (q := q) in Htick by assumption.
        injection Htick as <- <- _.
        rewrite Forall_forall in Hopen. rewrite (Hopen q Hin).
        subst id. now apply presence_live_registered.
    + rewrite (proj1 (tick_no_handler id p w)) in Htick by assumption.
      injection Htick as <- <- _. exact Hlive.
  - destruct (find_pending id AwaitRecent p) as [q|] eqn:Hq.
    + destruct (@find_pending_In _ _ _ _ Hq) as (Hin & Hid & _).
      rewrite tick_recent with (q := q) in Htick by assumption.
      injection Htick as <- <- _.
      rewrite Forall_forall in Hopen. rewrite (Hopen q Hin).
      subst id. now apply presence_live_registered.
    + rewrite (proj2 (tick_no_handler id p w)) in Htick by assumption.
      injection Htick as <- <- _. exact Hlive.
Qed.

(** No stale presence entry, as long as no connection closes before its
    handler has registered the listeners.  From a state in which every
    entry of [connectedUsers] points at an open connection of the entry's
    identity (the empty state is one), any run of handshakes, client
    events and answers of the database, taken in any order, leads to such a
    state again, when each handshake arrives with an unused connection id
    and each disconnect finds the connection's handler finished. *)
Theorem presence_stays_consistent (ts : list Tick) (p p' : list Pending) (w : World) :
  presence_live w p ->
  orderly jwt_verify castObjectId ts p w ->
  outcome_of (run_ticks jwt_verify castObjectId ts p w) = Returned p' ->
  presence_live (world_of (run_ticks jwt_verify castObjectId ts p w)) p'.
Proof.
  revert p w. induction ts as [|t ts IH]; intros p w Hlive Horder Hout.
  - cbn in Hout. injection Hout as <-. exact Hlive.
  - cbn [orderly] in Horder. destruct Horder as [Hguard Hrest].
    rewrite run_ticks_cons in Hout |- *.
    destruct (tick jwt_verify castObjectId t p w) as [[[p1|e] w1] t1] eqn:Htick;
      [|discriminate Hout].
    pose proof (@tick_presence t p p1 w w1 t1 Hlive Hguard Htick) as Hstep.
    specialize (IH p1 w1 Hstep Hrest).
    destruct (run_ticks jwt_verify castObjectId ts p1 w1) as [[o w2] t2].
    cbn [outcome_of world_of fst snd] in *. now apply IH.
Qed.

(** A connection that closes while its handler waits for the user lookup
    keeps its entry: when the lookup answers, the handler sets the entry of
    the identity although the connection is gone, and the disconnect
    listener, registered afterwards, is never called.  The entry stays, and
    it points at a connection that is not open. *)
Theorem early_disconnect_leaves_entry (id t : jstring) (decoded : Decoded)
    (uid : ObjectId) (user : User) (p : list Pending) (w : World) :
  t <> [] -> jwt_verify t = Some decoded ->
  castObjectId (d_userId decoded) = Some uid ->
  find (fun u => oid_eqb (u_id u) uid) (users w) = Some user ->
  find_socket id (sockets w) = None -> ~ In id (map pend_id p) ->
  let r := run_ticks jwt_verify castObjectId
             [Arrives (Connect id (JStr t)); Arrives (Disconnect id);
              UserAnswers id; RecentAnswers id] p w in
  outcome_of r = Returned p
  /\ Map_get (d_userId decoded) (connectedUsers (world_of r))
     = Some (mkUserInfo id (u_name user) (u_email user))
  /\ sockets (world_of r) = sockets w
  /\ ~ In id (map sock_id (open_sockets (world_of r) p)).
Proof.
  intros Ht Hv Hcast Hfind Hnone Hfresh r.
  assert (Hr : r = (Returned p,
                    set_presence (Map_set (d_userId decoded)
                                          (mkUserInfo id (u_name user) (u_email user))
                                          (connectedUsers w)) w,
                    [Emit (ToSocket id) "recent_messages"
                          (JArr (rev (map (fun msg => anonymizeMessage msg
                                                        (Some (d_userId decoded)))
                                          (snapshot w))))])).
  { subst r. rewrite run_ticks_cons.
    rewrite tick_handshake
      with (socket := mkSocket id (d_userId decoded) (d_email decoded) None).
    2:{ unfold authenticateSocket.
        assert (truthy (JStr t) = true) as -> by (destruct t; [congruence|reflexivity]).
        cbn [negb]. now rewrite Hv. }
    rewrite run_ticks_cons.
    assert (Hclose : tick jwt_verify castObjectId (Arrives (Disconnect id))
                       (mkPending (mkSocket id (d_userId decoded) (d_email decoded) None)
                                  AwaitUser true :: p) w
                     = (Returned (mkPending (mkSocket id (d_userId decoded)
                                                      (d_email decoded) None)
                                            AwaitUser false :: p), w, [])).
    { cbn [tick dispatch]. unfold bind. rewrite with_socket_cases, Hnone.
      unfold ret. unfold close_pending. cbn [map]. fold (close_pending id p).
      rewrite close_pending_absent by assumption.
      unfold pend_id at 1. cbn [pend_socket sock_id]. now rewrite jstring_eqb_refl. }
    rewrite Hclose. rewrite run_ticks_cons.
    rewrite tick_user_resolved
      with (q := mkPending (mkSocket id (d_userId decoded) (d_email decoded) None)
                           AwaitUser false) (uid := uid) (user := user);
      [|now apply find_pending_head|assumption..].
    cbn [pend_socket pend_open sock_userId sock_userEmail].
    rewrite remove_pending_head by first [assumption|reflexivity].
    rewrite run_ticks_cons.
    rewrite tick_recent
      with (q := mkPending (mkSocket id (d_userId decoded) (d_email decoded)
                                     (Some (u_name user))) AwaitRecent false);
      [|now apply find_pending_head].
    cbn [pend_socket pend_open sock_userId].
    rewrite remove_pending_head by first [assumption|reflexivity].
    reflexivity. }
  rewrite Hr. cbn [outcome_of world_of fst snd set_presence connectedUsers sockets].
  split; [reflexivity|]. split; [apply Map_get_set|]. split; [reflexivity|].
  unfold open_sockets. cbn [sockets]. rewrite map_app. intros Hin.
  apply in_app_or in Hin. destruct Hin as [Hin|Hin].
  - apply find_socket_None in Hnone as [Hnone _]. contradiction.
  - apply Hfresh. rewrite map_map in Hin.
    apply in_map_iff in Hin as (q & Eq & Hq). apply filter_In in Hq as [Hq _].
    rewrite <- Eq. change (In (pend_id q) (map pend_id p)). now apply in_map.
Qed.

End InterleavingFacts.

(** Alice connects, is listed, leaves and is no longer listed; a forged
    handshake and the events that follow it change nothing. *)
Lemma presence_lifecycle_witness :
  let connected := world_of (run_ticks sample_verify cast_hex alice_connects [] empty_world) in
  Map_get alice_id (connectedUsers connected)
  = Some (mkUserInfo (str "sA") (u_name alice) (u_email alice))
  /\ Map_get alice_id
       (connectedUsers
          (world_of (tick sample_verify cast_hex (Arrives (Disconnect (str "sA"))) []
                          connected)))
     = None
  /\ run_ticks sample_verify cast_hex
       (Arrives (Connect (str "sX") (JStr (str "forged")))
        :: map Arrives [SendMessage (str "sX") hello (oid_of_N 100) 5;
                        Typing (str "sX") JUndefined; Disconnect (str "sX")])
       [] two_online
     = (Returned [], two_online, []).
Proof.
  intros connected.
  destruct (presence_lifecycle sample_verify cast_hex)
    as (_ & _ & _ & Hlifecycle & Hrefused).
  assert (Hne : str "token-alice" <> []) by discriminate.
  destruct (Hlifecycle (str "sA") (str "token-alice") alice_decoded (u_id alice) alice
                       [] empty_world Hne eq_refl eq_refl eq_refl (fun H => H))
    as (H1 & _ & H3).
  split; [exact H1|]. split; [exact H3|].
  apply Hrefused.
  - intros t E. injection E as <-. reflexivity.
  - reflexivity.
  - intros [].
  - repeat constructor.
Defined.

Lemma empty_world_live : presence_live empty_world [].
Proof.
  split; [constructor|]. split; [constructor|]. intros k info [].
Defined.

(** Two handlers interleaved, a message and a disconnect. *)
Lemma presence_stays_consistent_witness :
  presence_live
    (world_of (run_ticks sample_verify cast_hex two_handlers_interleaved [] empty_world)) [].
Proof.
  apply (@presence_stays_consistent sample_verify cast_hex two_handlers_interleaved
           [] [] empty_world empty_world_live).
  - vm_compute. intuition discriminate.
  - vm_compute. reflexivity.
Defined.

(** Alice's connection closes during the lookup: her entry is set and
    stays. *)
Lemma early_disconnect_leaves_entry_witness :
  Map_get alice_id
    (connectedUsers
       (world_of (run_ticks sample_verify cast_hex alice_leaves_early [] empty_world)))
  = Some (mkUserInfo (str "sA") (u_name alice) (u_email alice)).
Proof.
  assert (Hne : str "token-alice" <> []) by discriminate.
  exact (proj1 (proj2 (@early_disconnect_leaves_entry sample_verify cast_hex (str "sA")
                         (str "token-alice") alice_decoded (u_id alice) alice [] empty_world
                         Hne eq_refl eq_refl eq_refl eq_refl (fun H => H)))).
Defined.

